(** * back40computing: the two-phase BFS enactor and the random graph builder

    A shallow embedding of [b40c/graph/bfs/enactor_two_phase.cuh] (class
    [EnactorTwoPhase]) and of the random graph construction routine
    [BuildRandomGraph].  Host code is sequential C++ that talks to the CUDA
    runtime and to the device; every such interaction is a [Call] answered by
    an arbitrary deterministic environment, and is appended, with its answer,
    to a trace.  Host programs are written in a small state monad with three
    ways to end: returning, undefined behaviour, and running out of loop
    rounds.  [fflush] and the messages of [B40CPerror] are not modelled. *)

From Stdlib Require Import ZArith List String Bool Lia.
From Stdlib Require Import Floats.SpecFloat.
Import ListNotations.
Open Scope Z_scope.

(** ** C++ scalar types *)

Module CTypes.

(** Value of a [bits]-wide unsigned integer holding [z] (conversion wraps). *)
Definition to_unsigned (bits z : Z) : Z := z mod 2 ^ bits.

(** Value of a [bits]-wide two's complement integer holding [z]. *)
Definition to_signed (bits z : Z) : Z :=
  let u := to_unsigned bits z in
  if u <? 2 ^ (bits - 1) then u else u - 2 ^ bits.

Definition signed_min (bits : Z) : Z := - 2 ^ (bits - 1).
Definition signed_max (bits : Z) : Z := 2 ^ (bits - 1) - 1.

Definition in_signed (bits z : Z) : bool :=
  (signed_min bits <=? z) && (z <=? signed_max bits).

(** A signed integer type narrower than [int]. *)
Definition narrow (bits : Z) : bool := (0 <? bits) && (bits <? 32).

(** The width at which arithmetic on a signed integer [bits] wide is done:
    an operand narrower than [int] is promoted to [int]. *)
Definition promoted (bits : Z) : Z := Z.max bits 32.

(** A value computed at the promoted width, stored back into a signed
    integer [bits] wide: a type narrower than [int] wraps, a wider one
    holds the value as it is. *)
Definition converted (bits z : Z) : Z :=
  if narrow bits then to_signed bits z else z.

(** [unsigned long long] *)
Definition u64 (z : Z) : Z := to_unsigned 64 z.
(** [int] *)
Definition to_int (z : Z) : Z := to_signed 32 z.

(** IEEE 754 binary64, the C++ [double]: 53 bits of precision. *)
Definition double := spec_float.
Definition double_of_Z (z : Z) : double := binary_normalize 53 1024 z 0 false.
Definition double_div (x y : double) : double := SFdiv 53 1024 x y.
Definition double_zero : double := S754_zero false.

End CTypes.
Import CTypes.

(** ** CUDA runtime status codes *)

Inductive cudaError_t : Type :=
| cudaSuccess
| cudaErrorMemoryAllocation
| cudaErrorInitializationError
| cudaErrorLaunchFailure
| cudaErrorLaunchTimeout
| cudaErrorLaunchOutOfResources
| cudaErrorInvalidConfiguration
| cudaErrorInvalidValue
| cudaErrorInvalidDevicePointer
| cudaErrorInvalidTexture
| cudaErrorInvalidTextureBinding
| cudaErrorInvalidResourceHandle
| cudaErrorNotReady
| cudaErrorUnknown.

(** The C++ truth value of a status: [if (retval = ...) break;] leaves the
    block exactly when the status is not [cudaSuccess]. *)
Definition failed (e : cudaError_t) : bool :=
  match e with cudaSuccess => false | _ => true end.

(** ** Tuning policies (the template arguments of the kernel policies) *)

Inductive ld_modifier := ld_NONE | ld_cg.
Inductive st_modifier := st_NONE | st_cg.

(** [two_phase::KernelPolicy] and [two_phase::expand_atomic::KernelPolicy]
    take the same list of arguments. *)
Record ExpandPolicy := {
  x_CUDA_ARCH : Z;
  x_INSTRUMENT : bool;
  x_SATURATION_QUIT : Z;
  x_CTA_OCCUPANCY : Z;
  x_LOG_THREADS : Z;
  x_LOG_LOAD_VEC_SIZE : Z;
  x_LOG_LOADS_PER_TILE : Z;
  x_LOG_RAKING_THREADS : Z;
  x_QUEUE_READ_MODIFIER : ld_modifier;
  x_COLUMN_READ_MODIFIER : ld_modifier;
  x_ROW_OFFSET_ALIGNED_READ_MODIFIER : ld_modifier;
  x_ROW_OFFSET_UNALIGNED_READ_MODIFIER : ld_modifier;
  x_QUEUE_WRITE_MODIFIER : st_modifier;
  x_WORK_STEALING : bool;
  x_WARP_GATHER_THRESHOLD : Z;
  x_CTA_GATHER_THRESHOLD : Z;
  x_LOG_SCHEDULE_GRANULARITY : Z
}.

(** [two_phase::contract_atomic::KernelPolicy] *)
Record ContractPolicy := {
  c_CUDA_ARCH : Z;
  c_INSTRUMENT : bool;
  c_DEQUEUE_PROBLEM_SIZE : bool;
  c_CTA_OCCUPANCY : Z;
  c_LOG_THREADS : Z;
  c_LOG_LOAD_VEC_SIZE : Z;
  c_LOG_LOADS_PER_TILE : Z;
  c_LOG_RAKING_THREADS : Z;
  c_QUEUE_READ_MODIFIER : ld_modifier;
  c_QUEUE_WRITE_MODIFIER : st_modifier;
  c_WORK_STEALING : bool;
  c_LOG_SCHEDULE_GRANULARITY : Z
}.

(** The fused configuration chosen by [EnactFusedSearch] for SM 2.0 and up. *)
Definition FusedPolicy200 (INSTRUMENT : bool) : ExpandPolicy := {|
  x_CUDA_ARCH := 200;
  x_INSTRUMENT := INSTRUMENT;
  x_SATURATION_QUIT := 0;
  x_CTA_OCCUPANCY := 8;
  x_LOG_THREADS := 7;
  x_LOG_LOAD_VEC_SIZE := 0;
  x_LOG_LOADS_PER_TILE := 0;
  x_LOG_RAKING_THREADS := 5;
  x_QUEUE_READ_MODIFIER := ld_cg;
  x_COLUMN_READ_MODIFIER := ld_NONE;
  x_ROW_OFFSET_ALIGNED_READ_MODIFIER := ld_cg;
  x_ROW_OFFSET_UNALIGNED_READ_MODIFIER := ld_NONE;
  x_QUEUE_WRITE_MODIFIER := st_cg;
  x_WORK_STEALING := false;
  x_WARP_GATHER_THRESHOLD := 128;
  x_CTA_GATHER_THRESHOLD := 128;
  x_LOG_SCHEDULE_GRANULARITY := 6
|}.

(** The expansion configuration chosen by [EnactIterativeSearch]. *)
Definition ExpandPolicy200 (INSTRUMENT : bool) : ExpandPolicy := {|
  x_CUDA_ARCH := 200;
  x_INSTRUMENT := INSTRUMENT;
  x_SATURATION_QUIT := 0;
  x_CTA_OCCUPANCY := 8;
  x_LOG_THREADS := 7;
  x_LOG_LOAD_VEC_SIZE := 0;
  x_LOG_LOADS_PER_TILE := 0;
  x_LOG_RAKING_THREADS := 5;
  x_QUEUE_READ_MODIFIER := ld_cg;
  x_COLUMN_READ_MODIFIER := ld_NONE;
  x_ROW_OFFSET_ALIGNED_READ_MODIFIER := ld_cg;
  x_ROW_OFFSET_UNALIGNED_READ_MODIFIER := ld_NONE;
  x_QUEUE_WRITE_MODIFIER := st_cg;
  x_WORK_STEALING := true;
  x_WARP_GATHER_THRESHOLD := 32;
  x_CTA_GATHER_THRESHOLD := 128 * 4;
  x_LOG_SCHEDULE_GRANULARITY := 6
|}.

(** The contraction configuration chosen by [EnactIterativeSearch]. *)
Definition ContractPolicy200 (INSTRUMENT : bool) : ContractPolicy := {|
  c_CUDA_ARCH := 200;
  c_INSTRUMENT := INSTRUMENT;
  c_DEQUEUE_PROBLEM_SIZE := true;
  c_CTA_OCCUPANCY := 8;
  c_LOG_THREADS := 7;
  c_LOG_LOAD_VEC_SIZE := 0;
  c_LOG_LOADS_PER_TILE := 2;
  c_LOG_RAKING_THREADS := 5;
  c_QUEUE_READ_MODIFIER := ld_NONE;
  c_QUEUE_WRITE_MODIFIER := st_NONE;
  c_WORK_STEALING := false;
  c_LOG_SCHEDULE_GRANULARITY := 6
|}.

(** ** The graph problem, as far as the enactor reads it *)

(** Device arrays of a graph slice; the enactor only hands them to kernels. *)
Inductive DevArray :=
| d_keys (i : Z)            (* frontier_queues.d_keys[i] *)
| d_values (i : Z)          (* frontier_queues.d_values[i] *)
| d_column_indices
| d_row_offsets
| d_labels
| d_visited_mask.

Record GraphSlice := {
  nodes : Z;
  frontier_elements : Z -> Z      (* capacity of frontier queue [i] *)
}.

Record CsrProblem := {
  VertexId_bits : Z;              (* width of CsrProblem::VertexId *)
  SizeT_bytes : Z;                (* sizeof(CsrProblem::SizeT) *)
  graph_slice0 : GraphSlice       (* graph_slices[0] *)
}.

(** ** Interactions with the runtime and the device *)

(** The two pinned, mapped host words. *)
Inductive Cell := cell_done | cell_iteration.

(** The three lazily allocated helper objects of the enactor. *)
Inductive Lifetime := lt_global_barrier | lt_expand_kernel_stats | lt_contract_kernel_stats.

Inductive Texture := BitmaskTex | RowOffsetTex.

Record FusedArgs := {
  f_iteration : Z;
  f_queue_index : Z;
  f_steal_index : Z;
  f_src : Z;
  f_edge_frontier : DevArray;
  f_vertex_frontier : DevArray;
  f_predecessor : DevArray;
  f_column_indices : DevArray;
  f_row_offsets : DevArray;
  f_labels : DevArray;
  f_visited_mask : DevArray;
  f_max_edge_frontier : Z;
  f_max_vertex_frontier : Z;
  f_global_barrier : option Z;
  f_kernel_stats : option Z;
  f_d_iteration : option Cell
}.

Record ContractArgs := {
  k_src : Z;
  k_iteration : Z;
  k_num_elements : Z;
  k_queue_index : Z;
  k_steal_index : Z;
  k_num_gpus : Z;
  k_d_done : option Cell;
  k_edge_frontier_in : DevArray;
  k_vertex_frontier_out : DevArray;
  k_predecessor_in : DevArray;
  k_labels : DevArray;
  k_visited_mask : DevArray;
  k_max_vertex_frontier : Z;
  k_kernel_stats : option Z
}.

Record ExpandArgs := {
  e_queue_index : Z;
  e_steal_index : Z;
  e_num_gpus : Z;
  e_d_done : option Cell;
  e_vertex_frontier_in : DevArray;
  e_edge_frontier_out : DevArray;
  e_predecessor_out : DevArray;
  e_column_indices : DevArray;
  e_row_offsets : DevArray;
  e_max_edge_frontier : Z;
  e_kernel_stats : option Z
}.

(** A call of the host into its environment, indexed by the type of the
    answer.  A kernel launch [<<<grid, threads>>>] reports nothing to the
    host; the fused kernel is handed [d_iteration], and its answer is the
    level count the workers leave in that word (no host read of the word
    happens before the next full synchronisation).  [volatile_load_done] is
    the read of the mapped word [done[0]], which the traversal kernels write
    at a time of their own: the environment decides what the host sees, given
    the value the host last stored or saw.  [Accumulate] is handed the totals
    by reference and answers their new values.  The work-progress object
    that every kernel is handed lives in the base class and is left out of
    the launch arguments. *)
Inductive Call : Type -> Type :=
| printf (format : string) (args : list Z) : Call unit
| cudaHostAlloc (c : Cell) (bytes : Z) : Call (cudaError_t * Z)
| cudaHostGetDevicePointer (c : Cell) : Call cudaError_t
| cudaEventCreateWithFlags : Call cudaError_t
| Lifetime_allocate (l : Lifetime) (grid_size : Z) : Call cudaError_t
| cudaBindTexture (t : Texture) (array : DevArray) (bytes : Z) : Call cudaError_t
| launch_two_phase (grid_size : Z) (policy : ExpandPolicy) (a : FusedArgs) : Call Z
| launch_contract_atomic (grid_size : Z) (policy : ContractPolicy) (a : ContractArgs) : Call unit
| launch_expand_atomic (grid_size : Z) (policy : ExpandPolicy) (a : ExpandArgs) : Call unit
| cudaThreadSynchronize : Call cudaError_t
| GetQueueLength (index : Z) : Call (cudaError_t * Z)
| Accumulate (l : Lifetime) (grid_size : Z) (runtimes lifetimes : Z)
    : Call (cudaError_t * (Z * Z))
| Accumulate_aggregate (l : Lifetime) (grid_size : Z) (runtimes lifetimes queued : Z)
    : Call (cudaError_t * (Z * Z * Z))
| cudaEventRecord : Call cudaError_t
| cudaEventSynchronize : Call cudaError_t
| volatile_load_done (stored : Z) : Call Z.

(** A call together with the answer it got. *)
Inductive Event : Type :=
| Ev {R : Type} (c : Call R) (r : R).

(** An environment: a deterministic handler over a world of its own. *)
Definition Runtime (W : Type) : Type := forall R : Type, Call R -> W -> R * W.

(** ** The enactor object *)

(** The members of the base class [EnactorBase] that the two-phase enactor
    reads: the debug flag and the probed device properties. *)
Record EnactorBase := {
  DEBUG : bool;
  device_sm_version : Z;          (* cuda_props.device_sm_version *)
  multiProcessorCount : Z         (* cuda_props.device_props.multiProcessorCount *)
}.

(** Members of [EnactorTwoPhase<INSTRUMENT>].  A pointer member is [None]
    when it is NULL and holds the content of the word it points to
    otherwise.  The three helper objects hold the group count they were
    allocated for. *)
Record EnactorTwoPhase := {
  base : EnactorBase;
  INSTRUMENT : bool;
  expand_kernel_stats : option Z;
  contract_kernel_stats : option Z;
  total_runtimes : Z;             (* unsigned long long *)
  total_lifetimes : Z;            (* unsigned long long *)
  total_queued : Z;               (* unsigned long long *)
  done : option Z;                (* volatile int * *)
  d_done : option Cell;           (* int * *)
  throttle_event : bool;          (* the event has been created *)
  global_barrier : option Z;
  iteration : option Z;           (* volatile long long * *)
  d_iteration : option Cell       (* long long * *)
}.

Definition set_lifetime (l : Lifetime) (v : option Z) (e : EnactorTwoPhase) : EnactorTwoPhase :=
  {| base := base e; INSTRUMENT := INSTRUMENT e;
     expand_kernel_stats :=
       match l with lt_expand_kernel_stats => v | _ => expand_kernel_stats e end;
     contract_kernel_stats :=
       match l with lt_contract_kernel_stats => v | _ => contract_kernel_stats e end;
     total_runtimes := total_runtimes e; total_lifetimes := total_lifetimes e;
     total_queued := total_queued e;
     done := done e; d_done := d_done e; throttle_event := throttle_event e;
     global_barrier :=
       match l with lt_global_barrier => v | _ => global_barrier e end;
     iteration := iteration e; d_iteration := d_iteration e |}.

Definition get_lifetime (l : Lifetime) (e : EnactorTwoPhase) : option Z :=
  match l with
  | lt_global_barrier => global_barrier e
  | lt_expand_kernel_stats => expand_kernel_stats e
  | lt_contract_kernel_stats => contract_kernel_stats e
  end.

Definition set_totals (runtimes lifetimes queued : Z) (e : EnactorTwoPhase) : EnactorTwoPhase :=
  {| base := base e; INSTRUMENT := INSTRUMENT e;
     expand_kernel_stats := expand_kernel_stats e;
     contract_kernel_stats := contract_kernel_stats e;
     total_runtimes := runtimes; total_lifetimes := lifetimes;
     total_queued := queued;
     done := done e; d_done := d_done e; throttle_event := throttle_event e;
     global_barrier := global_barrier e;
     iteration := iteration e; d_iteration := d_iteration e |}.

Definition set_done (v : option Z) (e : EnactorTwoPhase) : EnactorTwoPhase :=
  {| base := base e; INSTRUMENT := INSTRUMENT e;
     expand_kernel_stats := expand_kernel_stats e;
     contract_kernel_stats := contract_kernel_stats e;
     total_runtimes := total_runtimes e; total_lifetimes := total_lifetimes e;
     total_queued := total_queued e;
     done := v; d_done := d_done e; throttle_event := throttle_event e;
     global_barrier := global_barrier e;
     iteration := iteration e; d_iteration := d_iteration e |}.

Definition set_d_done (v : option Cell) (e : EnactorTwoPhase) : EnactorTwoPhase :=
  {| base := base e; INSTRUMENT := INSTRUMENT e;
     expand_kernel_stats := expand_kernel_stats e;
     contract_kernel_stats := contract_kernel_stats e;
     total_runtimes := total_runtimes e; total_lifetimes := total_lifetimes e;
     total_queued := total_queued e;
     done := done e; d_done := v; throttle_event := throttle_event e;
     global_barrier := global_barrier e;
     iteration := iteration e; d_iteration := d_iteration e |}.

Definition set_throttle_event (v : bool) (e : EnactorTwoPhase) : EnactorTwoPhase :=
  {| base := base e; INSTRUMENT := INSTRUMENT e;
     expand_kernel_stats := expand_kernel_stats e;
     contract_kernel_stats := contract_kernel_stats e;
     total_runtimes := total_runtimes e; total_lifetimes := total_lifetimes e;
     total_queued := total_queued e;
     done := done e; d_done := d_done e; throttle_event := v;
     global_barrier := global_barrier e;
     iteration := iteration e; d_iteration := d_iteration e |}.

Definition set_iteration (v : option Z) (e : EnactorTwoPhase) : EnactorTwoPhase :=
  {| base := base e; INSTRUMENT := INSTRUMENT e;
     expand_kernel_stats := expand_kernel_stats e;
     contract_kernel_stats := contract_kernel_stats e;
     total_runtimes := total_runtimes e; total_lifetimes := total_lifetimes e;
     total_queued := total_queued e;
     done := done e; d_done := d_done e; throttle_event := throttle_event e;
     global_barrier := global_barrier e;
     iteration := v; d_iteration := d_iteration e |}.

Definition set_d_iteration (v : option Cell) (e : EnactorTwoPhase) : EnactorTwoPhase :=
  {| base := base e; INSTRUMENT := INSTRUMENT e;
     expand_kernel_stats := expand_kernel_stats e;
     contract_kernel_stats := contract_kernel_stats e;
     total_runtimes := total_runtimes e; total_lifetimes := total_lifetimes e;
     total_queued := total_queued e;
     done := done e; d_done := d_done e; throttle_event := throttle_event e;
     global_barrier := global_barrier e;
     iteration := iteration e; d_iteration := v |}.

(** The constructor [EnactorTwoPhase(bool DEBUG = false)].  Its initialiser
    list sets the four pointers to NULL and [total_queued] to 0; the members
    [total_runtimes] and [total_lifetimes] are left as they are found.  The
    helper objects start out empty and the event is not created. *)
Definition EnactorTwoPhase_new (INSTRUMENT : bool) (b : EnactorBase)
    (stale_runtimes stale_lifetimes : Z) : EnactorTwoPhase :=
  {| base := b; INSTRUMENT := INSTRUMENT;
     expand_kernel_stats := None;
     contract_kernel_stats := None;
     total_runtimes := u64 stale_runtimes; total_lifetimes := u64 stale_lifetimes;
     total_queued := 0;
     done := None; d_done := None; throttle_event := false;
     global_barrier := None;
     iteration := None; d_iteration := None |}.

(** ** Host programs *)

(** How a piece of host code ends: it returns, it runs into undefined
    behaviour (a read or write through a NULL pointer, a signed overflow), or
    the bound on the number of loop rounds is reached first. *)
Inductive outcome (S A : Type) : Type :=
| Returns (a : A) (s : S)
| Undefined (s : S)
| OutOfFuel (s : S).
Arguments Returns {S A} _ _.
Arguments Undefined {S A} _.
Arguments OutOfFuel {S A} _.

(** A program over a machine state [S]. *)
Definition Prog (S A : Type) : Type := S -> outcome S A.

Definition ret {S A} (a : A) : Prog S A := fun s => Returns a s.

Definition bind {S A B} (m : Prog S A) (k : A -> Prog S B) : Prog S B :=
  fun s =>
    match m s with
    | Returns a s' => k a s'
    | Undefined s' => Undefined s'
    | OutOfFuel s' => OutOfFuel s'
    end.

Definition undefined {S A} : Prog S A := fun s => Undefined s.

(** ** The host machine of the enactor: object, environment and trace *)

Record Host (W : Type) := mkHost {
  world : W;
  trace : list Event;
  this : EnactorTwoPhase
}.
Arguments mkHost {W} _ _ _.
Arguments world {W} _.
Arguments trace {W} _.
Arguments this {W} _.

Definition M (W A : Type) : Type := Prog (Host W) A.

Definition get_this {W} : M W EnactorTwoPhase := fun h => Returns (this h) h.

Definition update {W} (f : EnactorTwoPhase -> EnactorTwoPhase) : M W unit :=
  fun h => Returns tt (mkHost (world h) (trace h) (f (this h))).

(** Ask the environment, and log the call with its answer. *)
Definition call {W R} (rt : Runtime W) (c : Call R) : M W R :=
  fun h =>
    let (r, w') := rt R c (world h) in
    Returns r (mkHost w' (trace h ++ [Ev c r]) (this h)).

Declare Scope host_scope.
Delimit Scope host_scope with host.
Notation "x <- m ;; k" := (bind m (fun x => k))
  (at level 61, m at next level, right associativity) : host_scope.
Notation "' p <- m ;; k" := (bind m (fun x => match x with p => k end))
  (at level 61, p pattern, m at next level, right associativity) : host_scope.
Notation "m ;; k" := (bind m (fun _ => k))
  (at level 61, right associativity) : host_scope.
Open Scope host_scope.

(** [if (flag) stmt;] *)
Definition when {S} (flag : bool) (m : Prog S unit) : Prog S unit :=
  if flag then m else ret tt.

(** Modelled from the spec: [util::B40CPerror] (error_utils.cuh is not among
    the sources at hand).  It reports a failed status with the given message and hands the
    status back; section 7 has the first failure "returned immediately". *)
Definition B40CPerror {W} (m : M W cudaError_t) (message : string) : M W cudaError_t := m.

(** ** Leaving a block early *)

(** A statement inside [do { ... } while (0)] or [while (true) { ... }]
    either falls through to the next one or leaves the block by [break],
    with the value [retval] has at that moment. *)
Inductive step (A : Type) : Type :=
| Next (a : A)
| Break (retval : cudaError_t).
Arguments Next {A} _.
Arguments Break {A} _.

(** Sequencing that a [break] cuts short. *)
Notation "x <-- m ;; k" :=
  (bind m (fun r => match r with Next x => k | Break rv => ret (Break rv) end))
  (at level 61, m at next level, right associativity) : host_scope.

(** [if (retval = m) break;] *)
Notation "retval <~ m ;; k" :=
  (bind m (fun retval => if failed retval then ret (Break retval) else k))
  (at level 61, m at next level, right associativity) : host_scope.

(** [do { block } while (0); return retval;] *)
Definition do_while_0 {W} (block : M W (step cudaError_t)) : M W cudaError_t :=
  r <- block ;;
  match r with Next retval => ret retval | Break retval => ret retval end.

(** [while (true) { body }] over the locals [retval] and [queue_index], cut
    off after [fuel] rounds; the value is [retval] at the [break]. *)
Fixpoint while_true {W} (fuel : nat)
    (body : cudaError_t -> Z -> M W (step (cudaError_t * Z)))
    (retval : cudaError_t) (queue_index : Z) : M W cudaError_t :=
  match fuel with
  | O => fun h => OutOfFuel h
  | S fuel' =>
      r <- body retval queue_index ;;
      match r with
      | Break retval' => ret retval'
      | Next (retval', queue_index') => while_true fuel' body retval' queue_index'
      end
  end.

Section Enactor.

Context {W : Type}.
Variable rt : Runtime W.

(** [EnactorBase::MaxGridSize(cta_occupancy, max_grid_size)]; the base class
    is not part of the sources at hand, and the enactor is modelled for any
    such function. *)
Variable MaxGridSize : EnactorBase -> Z -> Z -> Z.

(** *** Accesses to the two mapped words *)

(** [cudaHostAlloc((void ** ) &p, bytes, cudaHostAllocMapped)]: on success
    the pointer is set, to a block of unspecified content. *)
Definition host_alloc (c : Cell) (bytes : Z) : M W cudaError_t :=
  '(status, content) <- call rt (cudaHostAlloc c bytes) ;;
  (if failed status then ret tt
   else update (match c with
                | cell_done => set_done (Some (to_int content))
                | cell_iteration => set_iteration (Some (to_signed 64 content))
                end)) ;;
  ret status.

(** [cudaHostGetDevicePointer((void ** ) &d_p, (void * ) p, 0)] *)
Definition host_get_device_pointer (c : Cell) : M W cudaError_t :=
  status <- call rt (cudaHostGetDevicePointer c) ;;
  (if failed status then ret tt
   else update (match c with
                | cell_done => set_d_done (Some c)
                | cell_iteration => set_d_iteration (Some c)
                end)) ;;
  ret status.

(** [cudaEventCreateWithFlags(&throttle_event, cudaEventDisableTiming)] *)
Definition event_create : M W cudaError_t :=
  status <- call rt cudaEventCreateWithFlags ;;
  (if failed status then ret tt else update (set_throttle_event true)) ;;
  ret status.

(** [iteration[0]] as an rvalue *)
Definition load_iteration : M W Z :=
  e <- get_this ;;
  match iteration e with
  | Some v => ret v
  | None => undefined
  end.

(** [iteration[0] = v] *)
Definition store_iteration (v : Z) : M W unit :=
  e <- get_this ;;
  match iteration e with
  | Some _ => update (set_iteration (Some v))
  | None => undefined
  end.

(** [done[0] = v] *)
Definition store_done (v : Z) : M W unit :=
  e <- get_this ;;
  match done e with
  | Some _ => update (set_done (Some v))
  | None => undefined
  end.

(** [done[0]] as an rvalue: a volatile read of a word the device writes. *)
Definition load_done : M W Z :=
  e <- get_this ;;
  match done e with
  | Some stored =>
      v <- call rt (volatile_load_done stored) ;;
      update (set_done (Some (to_int v))) ;;
      ret (to_int v)
  | None => undefined
  end.

(** [x++] on a signed integer of the given width.  An operand narrower than
    [int] is promoted to [int], incremented there and converted back, so at
    the maximum of its type it wraps to the minimum; at the width of [int]
    and above the increment overflows at the maximum, which is undefined. *)
Definition incr_signed (bits x : Z) : M W Z :=
  if narrow bits then ret (converted bits (x + 1))
  else if x + 1 <=? signed_max bits then ret (x + 1) else undefined.

(** Modelled from the spec: [util::GlobalBarrierLifetime::Setup] and
    [util::KernelRuntimeStatsLifetime::Setup] (global_barrier.cuh and
    kernel_runtime_stats.cuh are not among the sources at hand).  Section 4.1: the
    long-lived allocations are made by the first call, "later calls are
    no-ops for those"; section 6: [Setup(groupCount)] allocates state sized
    for the given concurrency. *)
Definition Lifetime_Setup (l : Lifetime) (grid_size : Z) : M W cudaError_t :=
  e <- get_this ;;
  match get_lifetime l e with
  | Some _ => ret cudaSuccess
  | None =>
      status <- call rt (Lifetime_allocate l grid_size) ;;
      (if failed status then ret tt
       else update (set_lifetime l (Some grid_size))) ;;
      ret status
  end.

(** *** [Setup] *)

(** [int bytes = (graph_slice->nodes + 8 - 1) / 8]: [nodes] is a [VertexId],
    so the sum is formed at the promoted width of [VertexId], where it wraps
    when it leaves the range (the compiled code wraps; the standard leaves
    the overflow undefined); the quotient, which rounds towards zero, is
    then converted to [int].  [cudaBindTexture] takes its size as a
    [size_t], so the call converts [bytes] once more. *)
Definition bitmask_bytes (csr_problem : CsrProblem) : Z :=
  let w := promoted (VertexId_bits csr_problem) in
  to_int (Z.quot (to_signed w (to_signed w (nodes (graph_slice0 csr_problem) + 8) - 1)) 8).

(** [(graph_slice->nodes + 1) * sizeof(SizeT)]: the sum is formed at the
    promoted width of [VertexId], wrapping as above, and the product in
    [size_t], 64 bits wide. *)
Definition row_offsets_bytes (csr_problem : CsrProblem) : Z :=
  let w := promoted (VertexId_bits csr_problem) in
  to_unsigned 64 (to_signed w (nodes (graph_slice0 csr_problem) + 1)
                  * SizeT_bytes csr_problem).

Definition Setup (csr_problem : CsrProblem)
    (expand_grid_size contract_grid_size : Z) : M W cudaError_t :=
  let retval := cudaSuccess in
  do_while_0 (
    (* Make sure host-mapped "done" is initialized *)
    e <- get_this ;;
    retval <-- match done e with
               | None =>
                   retval <~ B40CPerror (host_alloc cell_done (4 * 1))
                     "EnactorContractExpand cudaHostAlloc done failed" ;;
                   retval <~ B40CPerror (host_get_device_pointer cell_done)
                     "EnactorContractExpand cudaHostGetDevicePointer done failed" ;;
                   retval <~ B40CPerror event_create
                     "EnactorContractExpand cudaEventCreateWithFlags throttle_event failed" ;;
                   ret (Next retval)
               | Some _ => ret (Next retval)
               end ;;
    (* Make sure host-mapped "iteration" is initialized *)
    e <- get_this ;;
    retval <-- match iteration e with
               | None =>
                   retval <~ B40CPerror (host_alloc cell_iteration (8 * 1))
                     "EnactorContractExpand cudaHostAlloc iteration failed" ;;
                   retval <~ B40CPerror (host_get_device_pointer cell_iteration)
                     "EnactorContractExpand cudaHostGetDevicePointer iteration failed" ;;
                   ret (Next retval)
               | Some _ => ret (Next retval)
               end ;;
    (* Make sure software global barriers are initialized *)
    retval <~ Lifetime_Setup lt_global_barrier expand_grid_size ;;
    (* Make sure our runtime stats are initialized *)
    retval <~ Lifetime_Setup lt_expand_kernel_stats expand_grid_size ;;
    retval <~ Lifetime_Setup lt_contract_kernel_stats contract_grid_size ;;
    (* Reset statistics *)
    store_iteration 0 ;;
    update (fun e => set_totals 0 (total_lifetimes e) (total_queued e) e) ;;
    update (fun e => set_totals (total_runtimes e) 0 (total_queued e) e) ;;
    update (fun e => set_totals (total_runtimes e) (total_lifetimes e) 0 e) ;;
    store_done 0 ;;
    (* Single-gpu graph slice *)
    let graph_slice := graph_slice0 csr_problem in
    (* Bind bitmask texture *)
    let bytes := bitmask_bytes csr_problem in
    retval <~ B40CPerror (call rt (cudaBindTexture BitmaskTex d_visited_mask
                             (to_unsigned 64 bytes)))
      "EnactorTwoPhase cudaBindTexture bitmask_tex_ref failed" ;;
    (* Bind row-offsets texture *)
    retval <~ B40CPerror (call rt (cudaBindTexture RowOffsetTex d_row_offsets
                             (row_offsets_bytes csr_problem)))
      "EnactorTwoPhase cudaBindTexture row_offset_tex_ref failed" ;;
    ret (Next retval)).

(** *** [GetStatistics] *)

(** [GetStatistics<VertexId>(total_queued, search_depth, avg_duty)]; the
    three reference parameters are the components of the result. *)
Definition GetStatistics (VertexId_bits : Z) : M W (Z * Z * double) :=
  call rt cudaThreadSynchronize ;;
  e <- get_this ;;
  let total_queued_out := to_signed 64 (total_queued e) in
  it <- load_iteration ;;
  if it - 1 <? signed_min 64 then undefined else
  let search_depth := to_signed VertexId_bits (it - 1) in
  let avg_duty :=
    if 0 <? total_lifetimes e
    then double_div (double_of_Z (total_runtimes e)) (double_of_Z (total_lifetimes e))
    else double_zero in
  ret (total_queued_out, search_depth, avg_duty).

(** *** The fused search *)

(** The word [iteration[0]] after the fused kernel has written the level
    count [v] through [(VertexId * ) d_iteration]: the low [bits] bits of the
    64-bit word are replaced. *)
Definition store_through_VertexId (bits old v : Z) : Z :=
  to_signed 64
    (Z.lor (Z.shiftl (Z.shiftr (to_unsigned 64 old) bits) bits) (to_unsigned bits v)).

(** [EnactFusedSearch<KernelPolicy, CsrProblem>(csr_problem, src, max_grid_size)] *)
Definition EnactFusedSearch_with (KernelPolicy : ExpandPolicy)
    (csr_problem : CsrProblem) (src max_grid_size : Z) : M W cudaError_t :=
  let retval := cudaSuccess in
  do_while_0 (
    e <- get_this ;;
    (* Determine grid size *)
    let occupancy := x_CTA_OCCUPANCY KernelPolicy in
    let grid_size := MaxGridSize (base e) occupancy max_grid_size in
    when (DEBUG (base e))
      (call rt (printf "DEBUG: BFS occupancy %d, grid size %d\n" [occupancy; grid_size])) ;;
    (* Single-gpu graph slice *)
    let graph_slice := graph_slice0 csr_problem in
    (* Lazy initialization *)
    retval <~ Setup csr_problem grid_size 0 ;;
    (* Initiate single-grid kernel *)
    e <- get_this ;;
    levels <- call rt (launch_two_phase grid_size KernelPolicy
      {| f_iteration := 0;
         f_queue_index := 0;
         f_steal_index := 0;
         f_src := src;
         f_edge_frontier := d_keys 1;
         f_vertex_frontier := d_keys 0;
         f_predecessor := d_values 1;
         f_column_indices := d_column_indices;
         f_row_offsets := d_row_offsets;
         f_labels := d_labels;
         f_visited_mask := d_visited_mask;
         f_max_edge_frontier := frontier_elements graph_slice 1;
         f_max_vertex_frontier := frontier_elements graph_slice 0;
         f_global_barrier := global_barrier e;
         f_kernel_stats := expand_kernel_stats e;
         f_d_iteration := d_iteration e |}) ;;
    update (fun e =>
      match d_iteration e, iteration e with
      | Some _, Some old =>
          set_iteration (Some (store_through_VertexId (VertexId_bits csr_problem) old levels)) e
      | _, _ => e
      end) ;;
    retval <- (if DEBUG (base e)
               then B40CPerror (call rt cudaThreadSynchronize)
                      "EnactorFusedTwoPhase Kernel failed "
               else ret retval) ;;
    if DEBUG (base e) && failed retval then ret (Break retval) else
    retval <-- (if INSTRUMENT e then
                  (* Get stats *)
                  e <- get_this ;;
                  '(retval, (runtimes, lifetimes, queued)) <-
                    call rt (Accumulate_aggregate lt_expand_kernel_stats grid_size
                               (total_runtimes e) (total_lifetimes e) (total_queued e)) ;;
                  update (set_totals (u64 runtimes) (u64 lifetimes) (u64 queued)) ;;
                  if failed retval then ret (Break retval) else ret (Next retval)
                else ret (Next retval)) ;;
    ret (Next retval)).

(** [EnactFusedSearch<CsrProblem>(csr_problem, src, max_grid_size)] *)
Definition EnactFusedSearch (csr_problem : CsrProblem) (src max_grid_size : Z)
    : M W cudaError_t :=
  e <- get_this ;;
  if 200 <=? device_sm_version (base e) then
    (* Fused two-phase tuning configuration *)
    EnactFusedSearch_with (FusedPolicy200 (INSTRUMENT e)) csr_problem src max_grid_size
  else
    call rt (printf "Not yet tuned for this architecture\n" []) ;;
    ret cudaErrorInvalidConfiguration.

(** *** The iterative search *)

(** The body of the [while (true)] loop of [EnactIterativeSearch] in its
    three parts, over the locals [retval] and [queue_index]. *)

(** From [// Contraction] up to [// Throttle]. *)
Definition contraction (contract_policy : ContractPolicy)
    (csr_problem : CsrProblem) (src : Z) (contract_grid_size : Z)
    (retval : cudaError_t) (queue_index : Z) : M W (step (cudaError_t * Z)) :=
  e <- get_this ;;
  let graph_slice := graph_slice0 csr_problem in
  it <- load_iteration ;;
  call rt (launch_contract_atomic contract_grid_size contract_policy
    {| k_src := src;
       k_iteration := it;
       k_num_elements := 0;    (* unused: we obtain this from device-side counters instead *)
       k_queue_index := queue_index;
       k_steal_index := queue_index;      (* also serves as steal_index *)
       k_num_gpus := 1;
       k_d_done := d_done e;
       k_edge_frontier_in := d_keys 1;
       k_vertex_frontier_out := d_keys 0;
       k_predecessor_in := d_values 1;
       k_labels := d_labels;
       k_visited_mask := d_visited_mask;
       k_max_vertex_frontier := frontier_elements graph_slice 0;
       k_kernel_stats := contract_kernel_stats e |}) ;;
  retval <- (if DEBUG (base e)
             then B40CPerror (call rt cudaThreadSynchronize) "contract_atomic::Kernel failed "
             else ret retval) ;;
  if DEBUG (base e) && failed retval then ret (Break retval) else
  queue_index <- incr_signed (VertexId_bits csr_problem) queue_index ;;
  if INSTRUMENT e then
    (* Get contraction queue length *)
    '(retval, queue_length) <- call rt (GetQueueLength queue_index) ;;
    if failed retval then ret (Break retval) else
    when (DEBUG (base e)) (call rt (printf "%lld, " [queue_length])) ;;
    (* Get contract downsweep stats (i.e., duty %) *)
    e <- get_this ;;
    '(retval, (runtimes, lifetimes)) <-
      call rt (Accumulate lt_contract_kernel_stats contract_grid_size
                 (total_runtimes e) (total_lifetimes e)) ;;
    update (fun e => set_totals (u64 runtimes) (u64 lifetimes) (total_queued e) e) ;;
    if failed retval then ret (Break retval) else
    ret (Next (retval, queue_index))
  else ret (Next (retval, queue_index)).

(** From [// Throttle] up to [// Expansion]. *)
Definition throttle : M W (step cudaError_t) :=
  it <- load_iteration ;;
  retval <~ (if negb (Z.land it 1 =? 0)
             then B40CPerror (call rt cudaEventRecord)
                    "EnactorTwoPhase cudaEventRecord throttle_event failed"
             else B40CPerror (call rt cudaEventSynchronize)
                    "EnactorTwoPhase cudaEventSynchronize throttle_event failed") ;;
  flag <- load_done ;;
  if negb (flag =? 0) then ret (Break retval) else
  ret (Next retval).

(** From [// Expansion] to the end of the loop body. *)
Definition expansion (expand_policy : ExpandPolicy)
    (csr_problem : CsrProblem) (expand_grid_size : Z)
    (retval : cudaError_t) (queue_index : Z) : M W (step (cudaError_t * Z)) :=
  e <- get_this ;;
  let graph_slice := graph_slice0 csr_problem in
  call rt (launch_expand_atomic expand_grid_size expand_policy
    {| e_queue_index := queue_index;
       e_steal_index := queue_index;      (* also serves as steal_index *)
       e_num_gpus := 1;
       e_d_done := d_done e;
       e_vertex_frontier_in := d_keys 0;
       e_edge_frontier_out := d_keys 1;
       e_predecessor_out := d_values 1;
       e_column_indices := d_column_indices;
       e_row_offsets := d_row_offsets;
       e_max_edge_frontier := frontier_elements graph_slice 1;
       e_kernel_stats := expand_kernel_stats e |}) ;;
  retval <- (if DEBUG (base e)
             then B40CPerror (call rt cudaThreadSynchronize) "expand_atomic::Kernel failed "
             else ret retval) ;;
  if DEBUG (base e) && failed retval then ret (Break retval) else
  queue_index <- incr_signed (VertexId_bits csr_problem) queue_index ;;
  it <- load_iteration ;;
  it <- incr_signed 64 it ;;
  store_iteration it ;;
  if INSTRUMENT e then
    (* Get expansion queue length *)
    '(status, queue_length) <- call rt (GetQueueLength queue_index) ;;
    if failed status then ret (Break retval) else
    update (fun e => set_totals (total_runtimes e) (total_lifetimes e)
                       (u64 (total_queued e + queue_length)) e) ;;
    when (DEBUG (base e)) (call rt (printf "%lld\n" [queue_length])) ;;
    (* Get expand stats (i.e., duty %) *)
    e <- get_this ;;
    '(retval, (runtimes, lifetimes)) <-
      call rt (Accumulate lt_expand_kernel_stats expand_grid_size
                 (total_runtimes e) (total_lifetimes e)) ;;
    update (fun e => set_totals (u64 runtimes) (u64 lifetimes) (total_queued e) e) ;;
    if failed retval then ret (Break retval) else
    ret (Next (retval, queue_index))
  else ret (Next (retval, queue_index)).

(** One round of the loop. *)
Definition level (expand_policy : ExpandPolicy) (contract_policy : ContractPolicy)
    (csr_problem : CsrProblem) (src : Z) (expand_grid_size contract_grid_size : Z)
    (retval : cudaError_t) (queue_index : Z) : M W (step (cudaError_t * Z)) :=
  locals <-- contraction contract_policy csr_problem src contract_grid_size
               retval queue_index ;;
  retval <-- throttle ;;
  expansion expand_policy csr_problem expand_grid_size retval (snd locals).

(** [EnactIterativeSearch<ExpandPolicy, ContractPolicy, CsrProblem>(csr_problem,
    src, max_grid_size)], its loop cut off after [fuel] rounds. *)
Definition EnactIterativeSearch_with (fuel : nat)
    (expand_policy : ExpandPolicy) (contract_policy : ContractPolicy)
    (csr_problem : CsrProblem) (src max_grid_size : Z) : M W cudaError_t :=
  let retval := cudaSuccess in
  do_while_0 (
    e <- get_this ;;
    (* Determine grid size(s) *)
    let expand_occupancy := x_CTA_OCCUPANCY expand_policy in
    let expand_grid_size := MaxGridSize (base e) expand_occupancy max_grid_size in
    let contract_occupancy := c_CTA_OCCUPANCY contract_policy in
    let contract_grid_size := MaxGridSize (base e) contract_occupancy max_grid_size in
    when (DEBUG (base e))
      (call rt (printf "BFS expand occupancy %d, level-grid size %d\n"
                  [expand_occupancy; expand_grid_size]) ;;
       call rt (printf "BFS contract occupancy %d, level-grid size %d\n"
                  [contract_occupancy; contract_grid_size])) ;;
    (* Lazy initialization *)
    retval <~ Setup csr_problem expand_grid_size contract_grid_size ;;
    let queue_index := 0 in     (* Work stealing/queue index *)
    when (INSTRUMENT e && DEBUG (base e))
      (call rt (printf "Contraction queue, Expansion queue\n" []) ;;
       call rt (printf "1, " [])) ;;
    retval <- while_true fuel
                (level expand_policy contract_policy csr_problem src
                   expand_grid_size contract_grid_size)
                retval queue_index ;;
    if failed retval then ret (Break retval) else
    ret (Next retval)).

(** [EnactIterativeSearch<CsrProblem>(csr_problem, src, max_grid_size)] *)
Definition EnactIterativeSearch (fuel : nat)
    (csr_problem : CsrProblem) (src max_grid_size : Z) : M W cudaError_t :=
  e <- get_this ;;
  if 200 <=? device_sm_version (base e) then
    EnactIterativeSearch_with fuel
      (ExpandPolicy200 (INSTRUMENT e)) (ContractPolicy200 (INSTRUMENT e))
      csr_problem src max_grid_size
  else
    call rt (printf "Not yet tuned for this architecture\n" []) ;;
    ret cudaErrorInvalidConfiguration.

End Enactor.

(** ** Collaborators that are not part of the sources at hand *)

(** Modelled from the spec: [EnactorBase::MaxGridSize] (enactor_base.cuh is
    not among the sources at hand).  Section 6: the base enactor supplies "a default
    group-count computation given desired occupancy and an optional cap";
    the default fully populates the device, and section 9 records that a
    requested group count is not checked against what the hardware can keep
    resident. *)
Definition MaxGridSize_spec (b : EnactorBase) (cta_occupancy max_grid_size : Z) : Z :=
  if max_grid_size <=? 0
  then multiProcessorCount b * cta_occupancy
  else max_grid_size.


(** Modelled from the spec: the length of the edge frontier that
    [two_phase::contract_atomic::Kernel] works on (the kernel is not among
    the sources at hand).  Section 4.2: the kernel "consults the current device-side
    frontier length rather than a host-supplied count"; [counters] is the
    table of the work-progress service, keyed by queue index, and the policy
    flag [DEQUEUE_PROBLEM_SIZE] selects it. *)
Definition contract_frontier_length (policy : ContractPolicy) (a : ContractArgs)
    (counters : Z -> Z) : Z :=
  if c_DEQUEUE_PROBLEM_SIZE policy
  then counters (k_queue_index a)
  else k_num_elements a.

(** ** Reading traces *)

Definition is_dispatch (ev : Event) : bool :=
  match ev with
  | Ev (launch_two_phase _ _ _) _ => true
  | Ev (launch_contract_atomic _ _ _) _ => true
  | Ev (launch_expand_atomic _ _ _) _ => true
  | _ => false
  end.

Definition is_expand_dispatch (ev : Event) : bool :=
  match ev with
  | Ev (launch_expand_atomic _ _ _) _ => true
  | _ => false
  end.

(** A first-time allocation of one of the long-lived resources. *)
Definition is_allocation (ev : Event) : bool :=
  match ev with
  | Ev (cudaHostAlloc _ _) _ => true
  | Ev (cudaHostGetDevicePointer _) _ => true
  | Ev cudaEventCreateWithFlags _ => true
  | Ev (Lifetime_allocate _ _) _ => true
  | _ => false
  end.

(** The contraction launches of a trace, each with its policy. *)
Fixpoint contract_launches (t : list Event) : list (ContractPolicy * ContractArgs) :=
  match t with
  | [] => []
  | Ev (launch_contract_atomic _ policy a) _ :: t' => (policy, a) :: contract_launches t'
  | _ :: t' => contract_launches t'
  end.

(** ** A scripted environment, for running the model *)

(** Statuses, reads of [done[0]] and queue lengths are taken from the front
    of three lists; when a list is used up, calls succeed, the flag reads 1
    and queues are empty. *)
Record Script := {
  statuses : list cudaError_t;
  done_reads : list Z;
  queue_lengths : list (cudaError_t * Z)
}.

Definition next_status (w : Script) : cudaError_t * Script :=
  match statuses w with
  | [] => (cudaSuccess, w)
  | s :: rest =>
      (s, {| statuses := rest; done_reads := done_reads w; queue_lengths := queue_lengths w |})
  end.

Definition next_done (w : Script) : Z * Script :=
  match done_reads w with
  | [] => (1, w)
  | v :: rest =>
      (v, {| statuses := statuses w; done_reads := rest; queue_lengths := queue_lengths w |})
  end.

Definition next_queue_length (w : Script) : (cudaError_t * Z) * Script :=
  match queue_lengths w with
  | [] => ((cudaSuccess, 0), w)
  | q :: rest =>
      (q, {| statuses := statuses w; done_reads := done_reads w; queue_lengths := rest |})
  end.

Definition scripted : Runtime Script :=
  fun R c =>
    match c in Call R return Script -> R * Script with
    | printf _ _ => fun w => (tt, w)
    | cudaHostAlloc _ _ => fun w => let (s, w') := next_status w in ((s, 171), w')
    | cudaHostGetDevicePointer _ => next_status
    | cudaEventCreateWithFlags => next_status
    | Lifetime_allocate _ _ => next_status
    | cudaBindTexture _ _ _ => next_status
    | launch_two_phase _ _ _ => fun w => (4, w)
    | launch_contract_atomic _ _ _ => fun w => (tt, w)
    | launch_expand_atomic _ _ _ => fun w => (tt, w)
    | cudaThreadSynchronize => next_status
    | GetQueueLength _ => next_queue_length
    | Accumulate _ grid_size runtimes lifetimes =>
        fun w => let (s, w') := next_status w in
                 ((s, (runtimes + 3 * grid_size, lifetimes + 4 * grid_size)), w')
    | Accumulate_aggregate _ grid_size runtimes lifetimes queued =>
        fun w => let (s, w') := next_status w in
                 ((s, (runtimes + 3 * grid_size, lifetimes + 4 * grid_size, queued + 5)), w')
    | cudaEventRecord => next_status
    | cudaEventSynchronize => next_status
    | volatile_load_done _ => next_done
    end.

(** A device of compute capability 2.0 with 14 multiprocessors, one of
    compute capability 1.3, and a small graph problem with 32-bit vertex
    identifiers and sizes. *)
Definition fermi (debug : bool) : EnactorBase :=
  {| DEBUG := debug; device_sm_version := 200; multiProcessorCount := 14 |}.

Definition gt200 (debug : bool) : EnactorBase :=
  {| DEBUG := debug; device_sm_version := 130; multiProcessorCount := 30 |}.

Definition small_problem : CsrProblem :=
  {| VertexId_bits := 32;
     SizeT_bytes := 4;
     graph_slice0 := {| nodes := 5; frontier_elements := fun i => if i =? 0 then 6 else 12 |} |}.

Definition calm : Script := {| statuses := []; done_reads := []; queue_lengths := [] |}.

(** The answers of a device that searches the undirected graph on 5
    vertices with the edges 0-1, 0-2, 1-3, 2-3, 3-4 from vertex 0: the flag
    stays clear during four levels, and the frontiers hold 1, 2, 2, 4, 1, 3,
    1, 1 and 0 elements. *)
Definition five_vertex_run : Script :=
  {| statuses := [];
     done_reads := [0; 0; 0; 0];
     queue_lengths :=
       [(cudaSuccess, 1); (cudaSuccess, 2); (cudaSuccess, 2); (cudaSuccess, 4);
        (cudaSuccess, 1); (cudaSuccess, 3); (cudaSuccess, 1); (cudaSuccess, 1);
        (cudaSuccess, 0)] |}.

(** A host that has just constructed its enactor. *)
Definition fresh_host (w : Script) (instrument : bool) (b : EnactorBase) : Host Script :=
  mkHost w [] (EnactorTwoPhase_new instrument b 0 0).

(** ** Random graph construction *)

Module RandomGraph.

(** [CooEdgeTuple<IndexType, ValueType>] *)
Record CooEdgeTuple := { row : Z; col : Z; val : Z }.

(** [CsrGraph<IndexType, ValueType>]; an array that is not allocated is
    [None]. *)
Record CsrGraph := {
  nodes : Z;
  edges : Z;
  row_offsets : option (list Z);
  column_indices : option (list Z)
}.

(** Calls into the C library and the test utilities. *)
Inductive LibCall : Type -> Type :=
| time : LibCall Z
| RandomNode (num_nodes : Z) : LibCall Z
| print (to_stderr : bool) (format : string) (args : list Z) : LibCall unit.

Inductive LibEvent : Type :=
| Lib {R : Type} (c : LibCall R) (r : R).

Definition Library (W : Type) : Type := forall R : Type, LibCall R -> W -> R * W.

(** The caller's view: the environment, what was called so far, and the two
    objects passed by reference. *)
Record Frame (W : Type) := mkFrame {
  lib : W;
  log : list LibEvent;
  src : Z;
  csr_graph : CsrGraph
}.
Arguments mkFrame {W} _ _ _ _.
Arguments lib {W} _.
Arguments log {W} _.
Arguments src {W} _.
Arguments csr_graph {W} _.

(** Modelled from the spec: [CsrGraph::FromCoo(coo, coo_nodes, coo_edges)]
    (the graph class is not among the sources at hand).  Section 3: the CSR form is a
    "row-offset array (size = nodes+1) and column-index array (size =
    edges)"; the edges of a row keep the order they have in the list. *)
Definition FromCoo (coo : list CooEdgeTuple) (coo_nodes coo_edges : Z) : CsrGraph :=
  let rows := map Z.of_nat (seq 0 (Z.to_nat coo_nodes)) in
  let of_row r := filter (fun t => row t =? r) coo in
  {| nodes := coo_nodes;
     edges := coo_edges;
     row_offsets :=
       Some (map (fun r => Z.of_nat (List.length (filter (fun t => row t <? r) coo)))
                 (rows ++ [coo_nodes]));
     column_indices := Some (flat_map (fun r => map col (of_row r)) rows) |}.

(** Modelled from the spec: [CsrGraph::Free()] (not among the sources at hand) gives the
    arrays back and leaves an empty graph. *)
Definition Free (g : CsrGraph) : CsrGraph :=
  {| nodes := 0; edges := 0; row_offsets := None; column_indices := None |}.

(** [a[i] = v] on an array held as a list; the loop below stays in range. *)
Fixpoint store {A} (a : list A) (i : nat) (v : A) : list A :=
  match a, i with
  | [], _ => []
  | _ :: a', O => v :: a'
  | x :: a', S i' => x :: store a' i' v
  end.

Section Build.

Context {W : Type}.
Variable libc : Library W.

Definition lib_call {R} (c : LibCall R) : Prog (Frame W) R :=
  fun f =>
    let (r, w') := libc R c (lib f) in
    Returns r (mkFrame w' (log f ++ [Lib c r]) (src f) (csr_graph f)).

Definition get_frame : Prog (Frame W) (Frame W) := fun f => Returns f f.

Definition set_src (v : Z) : Prog (Frame W) unit :=
  fun f => Returns tt (mkFrame (lib f) (log f) v (csr_graph f)).

Definition set_csr_graph (g : CsrGraph) : Prog (Frame W) unit :=
  fun f => Returns tt (mkFrame (lib f) (log f) (src f) g).

(** The loop [for (int i = 0; i < edges; i++)] with [count] rounds to go. *)
Fixpoint select_edges (count : nat) (i : Z) (nodes edges : Z) (undirected : bool)
    (coo : list CooEdgeTuple) : Prog (Frame W) (list CooEdgeTuple) :=
  match count with
  | O => ret coo
  | S count' =>
      r <- lib_call (RandomNode nodes) ;;
      c <- lib_call (RandomNode nodes) ;;
      let coo := store coo (Z.to_nat i) {| row := r; col := c; val := 1 |} in
      let coo :=
        if undirected
        then (* Reverse edge *)
          store coo (Z.to_nat (edges + i)) {| row := c; col := r; val := 1 |}
        else coo in
      select_edges count' (i + 1) nodes edges undirected coo
  end.

(** [BuildRandomGraph<IndexType, ValueType>(nodes, edges, src, csr_graph,
    undirected)] with [IndexType = int]; [src] and [csr_graph] are the two
    reference parameters held in the frame.  The allocation is taken to
    succeed, and the block obtained from [malloc] starts out with the
    unspecified content [junk].  The argument of [%s] is logged as 1 for
    "undirected" and 0 for "directed". *)
Definition BuildRandomGraph (junk : CooEdgeTuple) (nodes edges : Z) (undirected : bool)
    : Prog (Frame W) Z :=
  if (nodes <? 0) || (edges <? 0) then
    lib_call (print true "Invalid graph size: nodes=%d, edges=%d" [nodes; edges]) ;;
    ret (-1)
  else
    mark0 <- lib_call time ;;
    lib_call (print false "  Selecting %llu %s random edges in COO format... "
                [to_unsigned 64 edges; if undirected then 1 else 0]) ;;
    (* Construct COO graph *)
    if undirected && negb (in_signed 32 (edges * 2)) then undefined else
    let directed_edges := if undirected then edges * 2 else edges in
    let coo := repeat junk (Z.to_nat directed_edges) in
    coo <- select_edges (Z.to_nat edges) 0 nodes edges undirected coo ;;
    mark1 <- lib_call time ;;
    lib_call (print false "Done selecting (%ds).\n" [to_int (mark1 - mark0)]) ;;
    (* Convert sorted COO to CSR *)
    set_csr_graph (FromCoo coo nodes directed_edges) ;;
    (* If unspecified, assign default source.  Otherwise verify source range. *)
    f <- get_frame ;;
    if src f =? -1 then
      (* Random source *)
      v <- lib_call (RandomNode (RandomGraph.nodes (csr_graph f))) ;;
      set_src v ;;
      ret 0
    else if (src f <? 0) || (RandomGraph.nodes (csr_graph f) <? src f) then
      lib_call (print true "Invalid src: %d" [src f]) ;;
      set_csr_graph (Free (csr_graph f)) ;;
      ret (-1)
    else
      ret 0.

End Build.

(** A library whose random numbers count upwards and whose clock stands
    still. *)
Definition counting : Library Z :=
  fun R c =>
    match c in LibCall R return Z -> R * Z with
    | time => fun w => (0, w)
    | RandomNode num_nodes => fun w => (w mod num_nodes, w + 1)
    | print _ _ _ => fun w => (tt, w)
    end.

Definition empty_graph : CsrGraph :=
  {| nodes := 0; edges := 0; row_offsets := None; column_indices := None |}.

Definition junk : CooEdgeTuple := {| row := -7; col := -7; val := -7 |}.

End RandomGraph.

(** ** Vocabulary of the statements *)

(** The host after the message "Not yet tuned for this architecture" has
    been printed: the only thing that happened is that one [printf]. *)
Definition after_not_yet_tuned {W} (rt : Runtime W) (h : Host W) : Host W :=
  mkHost (snd (rt unit (printf "Not yet tuned for this architecture\n" []) (world h)))
         (trace h ++ [Ev (printf "Not yet tuned for this architecture\n" []) tt])
         (this h).

(** However the program ends: if it returns, value and state satisfy [Q];
    if it stops otherwise, the state satisfies [I]. *)
Definition run {S A} (m : Prog S A) (s : S) (Q : A -> S -> Prop) (I : S -> Prop) : Prop :=
  match m s with
  | Returns a s' => Q a s'
  | Undefined s' => I s'
  | OutOfFuel s' => I s'
  end.

(** The program returns, in a state and with a value that satisfy [Q]. *)
Definition returns {S A} (m : Prog S A) (s : S) (Q : A -> S -> Prop) : Prop :=
  run m s Q (fun _ => False).

(** The state a program ends in, however it ends. *)
Definition final_state {S A} (o : outcome S A) : S :=
  match o with
  | Returns _ s => s
  | Undefined s => s
  | OutOfFuel s => s
  end.

(** The long-lived resources of an enactor. *)
Inductive Resource :=
| r_done | r_d_done | r_throttle_event
| r_iteration | r_d_iteration
| r_lifetime (l : Lifetime).

Definition allocation_of (ev : Event) : list Resource :=
  match ev with
  | Ev (cudaHostAlloc cell_done _) _ => [r_done]
  | Ev (cudaHostAlloc cell_iteration _) _ => [r_iteration]
  | Ev (cudaHostGetDevicePointer cell_done) _ => [r_d_done]
  | Ev (cudaHostGetDevicePointer cell_iteration) _ => [r_d_iteration]
  | Ev cudaEventCreateWithFlags _ => [r_throttle_event]
  | Ev (Lifetime_allocate l _) _ => [r_lifetime l]
  | _ => []
  end.

(** The resources a trace asks the runtime for, in order. *)
Definition allocations (t : list Event) : list Resource := flat_map allocation_of t.

Definition binding_of (ev : Event) : list (Texture * DevArray * Z) :=
  match ev with
  | Ev (cudaBindTexture t a bytes) _ => [(t, a, bytes)]
  | _ => []
  end.

(** The texture bindings a trace asks for, in order. *)
Definition bindings (t : list Event) : list (Texture * DevArray * Z) :=
  flat_map binding_of t.

Definition is_some {A} (o : option A) : bool :=
  match o with Some _ => true | None => false end.

(** What [Setup] looks at to decide that nothing is left to allocate. *)
Definition allocated (e : EnactorTwoPhase) : bool :=
  is_some (done e) && is_some (iteration e) && is_some (global_barrier e)
  && is_some (expand_kernel_stats e) && is_some (contract_kernel_stats e).

(** Nothing has been allocated yet, as after construction. *)
Definition unallocated (e : EnactorTwoPhase) : bool :=
  negb (is_some (done e)) && negb (is_some (iteration e))
  && negb (is_some (global_barrier e))
  && negb (is_some (expand_kernel_stats e)) && negb (is_some (contract_kernel_stats e)).

(** The per-search counters are at their start values. *)
Definition counters_reset (e : EnactorTwoPhase) : Prop :=
  iteration e = Some 0 /\ total_runtimes e = 0 /\ total_lifetimes e = 0
  /\ total_queued e = 0 /\ done e = Some 0.

(** The two bindings [Setup] makes for a problem. *)
Definition bitmask_binding (csr_problem : CsrProblem) : Texture * DevArray * Z :=
  (BitmaskTex, d_visited_mask, to_unsigned 64 (bitmask_bytes csr_problem)).

Definition row_offsets_binding (csr_problem : CsrProblem) : Texture * DevArray * Z :=
  (RowOffsetTex, d_row_offsets, row_offsets_bytes csr_problem).

(** The status a call reports to the host, for the calls that report one. *)
Definition status_of (ev : Event) : list cudaError_t :=
  match ev with
  | Ev (cudaHostAlloc _ _) r => [fst r]
  | Ev (cudaHostGetDevicePointer _) r => [r]
  | Ev cudaEventCreateWithFlags r => [r]
  | Ev (Lifetime_allocate _ _) r => [r]
  | Ev (cudaBindTexture _ _ _) r => [r]
  | Ev cudaThreadSynchronize r => [r]
  | Ev (GetQueueLength _) r => [fst r]
  | Ev (Accumulate _ _ _ _) r => [fst r]
  | Ev (Accumulate_aggregate _ _ _ _ _) r => [fst r]
  | Ev cudaEventRecord r => [r]
  | Ev cudaEventSynchronize r => [r]
  | _ => []
  end.

(** The statuses reported along a trace, in order. *)
Definition reported (t : list Event) : list cudaError_t := flat_map status_of t.

(** The queue indices of [n] successive levels, starting from
    [queue_index], for a [VertexId] of [bits] bits: two increments a
    level. *)
Fixpoint queue_indices (bits : Z) (n : nat) (queue_index : Z) : list Z :=
  match n with
  | O => []
  | S n' =>
      queue_index
        :: queue_indices bits n' (converted bits (converted bits (queue_index + 1) + 1))
  end.

(** What the host passes to a contraction launch about the frontier it
    works on. *)
Definition count_left_to_device (launch : ContractPolicy * ContractArgs) : Prop :=
  k_num_elements (snd launch) = 0
  /\ c_DEQUEUE_PROBLEM_SIZE (fst launch) = true
  /\ k_steal_index (snd launch) = k_queue_index (snd launch)
  /\ forall counters : Z -> Z,
       contract_frontier_length (fst launch) (snd launch) counters
       = counters (k_queue_index (snd launch)).


(** The host after a [cudaThreadSynchronize()] whose status is dropped. *)
Definition synchronized {W} (rt : Runtime W) (h : Host W) : Host W :=
  mkHost (snd (rt _ cudaThreadSynchronize (world h)))
         (trace h ++ [Ev cudaThreadSynchronize (fst (rt _ cudaThreadSynchronize (world h)))])
         (this h).

(** What the trace from [h] to [h'] shows of the contraction launches of a
    loop that starts with [queue_index]: they all come with the given
    policy, the count 0 and the steal index equal to the queue index, and
    their queue indices go up by two increments of a [VertexId] of [bits]
    bits. *)
Definition contraction_launches_from {W} (contract_policy : ContractPolicy)
    (bits queue_index : Z) (h h' : Host W) : Prop :=
  exists new, trace h' = trace h ++ new
  /\ Forall (fun launch => fst launch = contract_policy
                           /\ k_num_elements (snd launch) = 0
                           /\ k_steal_index (snd launch) = k_queue_index (snd launch))
            (contract_launches new)
  /\ exists n, map (fun launch => k_queue_index (snd launch)) (contract_launches new)
               = queue_indices bits n queue_index.


(** ** The destructor *)

(** The calls by which the enactor gives resources back. *)
Inductive Release :=
| cudaFreeHost (c : Cell)
| cudaEventDestroy.

Definition Releaser (W : Type) : Type := Release -> W -> cudaError_t * W.

(** [~EnactorTwoPhase()]: the releases it asks for, each with the status it
    got, which [B40CPerror] reports and the destructor drops.  The
    destructors of the member objects and of the base class run after it and
    are not part of it. *)
Definition EnactorTwoPhase_destroy {W} (rl : Releaser W) (e : EnactorTwoPhase) (w : W)
    : list (Release * cudaError_t) * W :=
  let '(freed_iteration, w) :=
    match iteration e with
    | Some _ =>
        let (status, w) := rl (cudaFreeHost cell_iteration) w in
        ([(cudaFreeHost cell_iteration, status)], w)
    | None => ([], w)
    end in
  let '(freed_done, w) :=
    match done e with
    | Some _ =>
        let (status, w) := rl (cudaFreeHost cell_done) w in
        let (status', w) := rl cudaEventDestroy w in
        ([(cudaFreeHost cell_done, status); (cudaEventDestroy, status')], w)
    | None => ([], w)
    end in
  (freed_iteration ++ freed_done, w).

(** ** More vocabulary for traces *)

(** The host words whose allocation a trace shows to have succeeded, and
    whether it shows the throttle event to have been created. *)
Definition host_alloc_succeeded (c : Cell) (ev : Event) : bool :=
  match ev with
  | Ev (cudaHostAlloc cell_done _) r =>
      match c with cell_done => negb (failed (fst r)) | cell_iteration => false end
  | Ev (cudaHostAlloc cell_iteration _) r =>
      match c with cell_iteration => negb (failed (fst r)) | cell_done => false end
  | _ => false
  end.

Definition event_creation_succeeded (ev : Event) : bool :=
  match ev with
  | Ev cudaEventCreateWithFlags r => negb (failed r)
  | _ => false
  end.

(** Reading a trace for the order of the level dispatches: [Some b] when
    contractions and expansions take turns, starting with a contraction when
    [contract_next] holds, and [b] tells whether a contraction is due next;
    [None] when two dispatches of a kind follow each other, or the fused
    kernel shows up. *)
Fixpoint phase_after (contract_next : bool) (t : list Event) : option bool :=
  match t with
  | [] => Some contract_next
  | Ev (launch_contract_atomic _ _ _) _ :: t' =>
      if contract_next then phase_after false t' else None
  | Ev (launch_expand_atomic _ _ _) _ :: t' =>
      if contract_next then None else phase_after true t'
  | Ev (launch_two_phase _ _ _) _ :: _ => None
  | _ :: t' => phase_after contract_next t'
  end.

(** The number of expansion dispatches in a trace. *)
Definition expansions (t : list Event) : Z :=
  Z.of_nat (List.length (filter is_expand_dispatch t)).

(** The iteration number and the queue index a contraction launch carries. *)
Definition stamp_of (launch : ContractPolicy * ContractArgs) : Z * Z :=
  (k_iteration (snd launch), k_queue_index (snd launch)).

(** The stamps of [n] successive levels for a [VertexId] of [bits] bits: the
    iteration number goes up by one a level, the queue index by two
    increments. *)
Fixpoint level_stamps (bits : Z) (n : nat) (it queue_index : Z) : list (Z * Z) :=
  match n with
  | O => []
  | S n' =>
      (it, queue_index)
        :: level_stamps bits n' (it + 1)
             (converted bits (converted bits (queue_index + 1) + 1))
  end.

(** The loop was left because the completion flag was read set. *)
Definition left_on_flag (new : list Event) : Prop :=
  exists stored v pre,
    new = pre ++ [Ev (volatile_load_done stored) v] /\ to_int v <> 0.

(** The loop was left because [GetQueueLength] failed. *)
Definition left_on_queue_length_failure (new : list Event) : Prop :=
  exists index status queue_length pre,
    new = pre ++ [Ev (GetQueueLength index) (status, queue_length)]
    /\ failed status = true.

(** The three running totals. *)
Definition totals (e : EnactorTwoPhase) : Z * Z * Z :=
  (total_runtimes e, total_lifetimes e, total_queued e).

(** What the trace [new] of a run of the loop from [h] with [queue_index]
    shows, however the run ends: contractions and expansions take turns,
    every contraction is handed the device alias of [done] that the enactor
    holds, and the contractions are stamped with successive iteration
    numbers and queue indices. *)
Definition loop_trace {W} (bits queue_index : Z) (h : Host W) (new : list Event) : Prop :=
  (phase_after true new = Some true \/ phase_after true new = Some false)
  /\ Forall (fun launch => k_d_done (snd launch) = d_done (this h)) (contract_launches new)
  /\ (contract_launches new = []
      \/ exists it n, iteration (this h) = Some it
                      /\ map stamp_of (contract_launches new)
                         = level_stamps bits n it queue_index).

(** What a run of the loop from [h] to [h'] that hands back a status other
    than a failure has done: the iteration counter went up by the number of
    expansions dispatched; the loop was left on the completion flag or,
    instrumented, on a failing [GetQueueLength]; without instrumentation the
    totals are untouched. *)
Definition loop_success {W} (h h' : Host W) (new : list Event) : Prop :=
  (exists it, iteration (this h) = Some it
              /\ iteration (this h') = Some (it + expansions new))
  /\ (left_on_flag new
      \/ (INSTRUMENT (this h) = true /\ left_on_queue_length_failure new))
  /\ (INSTRUMENT (this h) = false -> totals (this h') = totals (this h)).

(** What the trace [new] of an iterative search started from [h] shows,
    however the search ends: contractions and expansions take turns,
    starting with a contraction; the contractions are stamped with the
    iteration numbers 0, 1, 2, ... and the queue indices 0, 2, 4, ...; each
    is handed the device alias of [done]: the one the enactor came with when
    [done] was allocated before, the freshly mapped one when nothing was. *)
Definition search_trace {W} (bits : Z) (h : Host W) (new : list Event) : Prop :=
  (phase_after true new = Some true \/ phase_after true new = Some false)
  /\ (exists n, map stamp_of (contract_launches new) = level_stamps bits n 0 0)
  /\ (is_some (done (this h)) = true ->
      Forall (fun launch => k_d_done (snd launch) = d_done (this h))
        (contract_launches new))
  /\ (unallocated (this h) = true ->
      Forall (fun launch => k_d_done (snd launch) = Some cell_done)
        (contract_launches new)).

(** What an iterative search from [h] that returned [cudaSuccess] in [h']
    has done. *)
Definition search_success {W} (h h' : Host W) (new : list Event) : Prop :=
  iteration (this h') = Some (expansions new)
  /\ (left_on_flag new
      \/ (INSTRUMENT (this h) = true /\ left_on_queue_length_failure new))
  /\ (INSTRUMENT (this h) = false -> totals (this h') = (0, 0, 0)).

(** ** Reading the log of the graph builder *)

(** The random nodes a log shows to have been drawn, each with the bound it
    was drawn under. *)
Definition draw_of (ev : RandomGraph.LibEvent) : list (Z * Z) :=
  match ev with
  | RandomGraph.Lib (RandomGraph.RandomNode num_nodes) r => [(num_nodes, r)]
  | _ => []
  end.

Definition draws (l : list RandomGraph.LibEvent) : list (Z * Z) := flat_map draw_of l.

(** The edges that a sequence of drawn nodes makes, two nodes to an edge. *)
Fixpoint edges_of (drawn : list Z) : list RandomGraph.CooEdgeTuple :=
  match drawn with
  | r :: c :: rest =>
      {| RandomGraph.row := r; RandomGraph.col := c; RandomGraph.val := 1 |}
        :: edges_of rest
  | _ => []
  end.

Definition reverse_edge (t : RandomGraph.CooEdgeTuple) : RandomGraph.CooEdgeTuple :=
  {| RandomGraph.row := RandomGraph.col t;
     RandomGraph.col := RandomGraph.row t;
     RandomGraph.val := RandomGraph.val t |}.

(** The length of the queue an expansion filled, as the host got to know it:
    the answer of a [GetQueueLength] that succeeded for an even queue index
    (the contractions of a search fill the queues of odd index). *)
Definition expansion_queue_length (ev : Event) : Z :=
  match ev with
  | Ev (GetQueueLength index) r =>
      if Z.even index && negb (failed (fst r)) then snd r else 0
  | _ => 0
  end.

(** Their sum over a trace. *)
Definition queued (t : list Event) : Z :=
  fold_right Z.add 0 (map expansion_queue_length t).



(** [n] consecutive integers. *)
Fixpoint consecutive (n : nat) (from : Z) : list Z :=
  match n with
  | O => []
  | S n' => from :: consecutive n' (from + 1)
  end.

(** ** The completion flag and the throttle point *)



(** ** The host at the point where a search calls [Setup] *)

(** The host after a call whose answer is not used. *)
Definition after {W R} (rt : Runtime W) (c : Call R) (h : Host W) : Host W :=
  final_state (call rt c h).


Definition iterative_search_at_Setup {W} (rt : Runtime W)
    (expand_occupancy expand_grid_size contract_occupancy contract_grid_size : Z)
    (h : Host W) : Host W :=
  if DEBUG (base (this h))
  then after rt (printf "BFS contract occupancy %d, level-grid size %d\n"
                   [contract_occupancy; contract_grid_size])
         (after rt (printf "BFS expand occupancy %d, level-grid size %d\n"
                      [expand_occupancy; expand_grid_size]) h)
  else h.

(** A problem whose vertex identifiers are [signed char]. *)
Definition byte_problem : CsrProblem :=
  {| VertexId_bits := 8;
     SizeT_bytes := 4;
     graph_slice0 := {| nodes := 100; frontier_elements := fun i => if i =? 0 then 101 else 200 |} |}.

(** A device that leaves the completion flag clear for 64 levels: the
    frontier of a path of 100 vertices searched from one end. *)
Definition long_path_run : Script :=
  {| statuses := []; done_reads := repeat 0 64; queue_lengths := [] |}.

(** ** The shape of one level *)



(** * Properties of the enactor *)

(** ** Basic facts about host programs *)

Lemma call_eq {W R} (rt : Runtime W) (c : Call R) (h : Host W) :
  call rt c h =
  Returns (fst (rt R c (world h)))
          (mkHost (snd (rt R c (world h)))
                  (trace h ++ [Ev c (fst (rt R c (world h)))])
                  (this h)).
Proof. unfold call. destruct (rt R c (world h)); reflexivity. Qed.


Lemma failed_false (e : cudaError_t) : failed e = false -> e = cudaSuccess.
Proof. destruct e; simpl; intros E; discriminate || reflexivity. Qed.

Lemma to_signed_in_range (bits z : Z) :
  0 < bits -> in_signed bits z = true -> to_signed bits z = z.
Proof.
  intros Hb Hz. unfold in_signed, signed_min, signed_max in Hz.
  apply andb_prop in Hz. destruct Hz as [Hlo Hhi].
  apply Z.leb_le in Hlo. apply Z.leb_le in Hhi.
  unfold to_signed, to_unsigned.
  assert (P2 : 2 ^ bits = 2 * 2 ^ (bits - 1)).
  { replace bits with (Z.succ (bits - 1)) at 1 by lia. apply Z.pow_succ_r. lia. }
  assert (Ppos : 0 < 2 ^ (bits - 1)) by (apply Z.pow_pos_nonneg; lia).
  destruct (Z.le_gt_cases 0 z) as [Hz | Hz].
  - rewrite Z.mod_small by lia.
    destruct (Z.ltb_spec z (2 ^ (bits - 1))); lia.
  - assert (M : z mod 2 ^ bits = z + 2 ^ bits).
    { rewrite <- (Z_mod_plus_full z 1 (2 ^ bits)). rewrite Z.mod_small; lia. }
    rewrite M.
    destruct (Z.ltb_spec (z + 2 ^ bits) (2 ^ (bits - 1))); lia.
Qed.

(** A two's complement value differs from the number it holds by a
    multiple of the modulus. *)
Lemma to_signed_congruent (bits z : Z) :
  exists k, to_signed bits z = z + k * 2 ^ bits.
Proof.
  unfold to_signed, to_unsigned.
  destruct (Z.eq_dec (2 ^ bits) 0) as [Zero | Pos].
  - exists 0. rewrite Zero, Z.mod_0_r, Z.sub_0_r.
    destruct (z <? 2 ^ (bits - 1)); lia.
  - pose proof (Z.div_mod z (2 ^ bits) Pos) as D.
    destruct (z mod 2 ^ bits <? 2 ^ (bits - 1)).
    + exists (- (z / 2 ^ bits)). lia.
    + exists (- (z / 2 ^ bits) - 1). lia.
Qed.

Lemma to_signed_add (bits a b : Z) :
  to_signed bits (to_signed bits a + b) = to_signed bits (a + b).
Proof.
  destruct (to_signed_congruent bits a) as (k & E). rewrite E.
  unfold to_signed, to_unsigned.
  replace (a + k * 2 ^ bits + b) with (a + b + k * 2 ^ bits) by lia.
  rewrite Z_mod_plus_full. reflexivity.
Qed.

(** Storing back after each of two steps is storing back once. *)
Lemma converted_add (bits a b : Z) :
  converted bits (converted bits a + b) = converted bits (a + b).
Proof.
  unfold converted. destruct (narrow bits); [apply to_signed_add | reflexivity].
Qed.

Lemma narrow_width (bits : Z) : narrow bits = true -> 0 < bits < 32.
Proof.
  unfold narrow. intros N. apply andb_prop in N. destruct N as [L U].
  apply Z.ltb_lt in L. apply Z.ltb_lt in U. lia.
Qed.

(** Conversion keeps what is even even. *)
Lemma even_converted (bits z : Z) : Z.even (converted bits z) = Z.even z.
Proof.
  unfold converted. destruct (narrow bits) eqn:N; [|reflexivity].
  apply narrow_width in N.
  destruct (to_signed_congruent bits z) as (k & E). rewrite E.
  replace (2 ^ bits) with (2 * 2 ^ (bits - 1))
    by (rewrite <- Z.pow_succ_r by lia; f_equal; lia).
  replace (z + k * (2 * 2 ^ (bits - 1))) with (z + 2 * (k * 2 ^ (bits - 1))) by lia.
  rewrite Z.even_add_mul_2. reflexivity.
Qed.

Lemma converted_0 (bits : Z) : converted bits 0 = 0.
Proof.
  unfold converted. destruct (narrow bits) eqn:N; [|reflexivity].
  apply narrow_width in N.
  assert (P : 0 < 2 ^ (bits - 1)) by (apply Z.pow_pos_nonneg; lia).
  apply to_signed_in_range; [lia|].
  unfold in_signed, signed_min, signed_max. apply andb_true_iff.
  split; apply Z.leb_le; lia.
Qed.

Lemma converted_twice (bits a : Z) :
  converted bits (converted bits (converted bits a + 1) + 1) = converted bits (a + 2).
Proof.
  rewrite (converted_add bits (converted bits a + 1) 1).
  replace (converted bits a + 1 + 1) with (converted bits a + 2) by lia.
  apply converted_add.
Qed.


(** ** Unsupported hardware generations *)

Section Untuned.

Context {W : Type} (rt : Runtime W) (MaxGridSize : EnactorBase -> Z -> Z -> Z).

(** C2: on a device whose [device_sm_version] is below 200, both
    [EnactFusedSearch] and [EnactIterativeSearch] return
    [cudaErrorInvalidConfiguration]; all they do before is print one message:
    no resource is set up, no kernel is dispatched, the enactor object is
    unchanged, and no fallback configuration is tried. *)
Theorem untuned_generation_is_invalid_configuration
    (fuel : nat) (csr_problem : CsrProblem) (src max_grid_size : Z) (h : Host W) :
  device_sm_version (base (this h)) < 200 ->
  EnactFusedSearch rt MaxGridSize csr_problem src max_grid_size h
    = Returns cudaErrorInvalidConfiguration (after_not_yet_tuned rt h)
  /\ EnactIterativeSearch rt MaxGridSize fuel csr_problem src max_grid_size h
    = Returns cudaErrorInvalidConfiguration (after_not_yet_tuned rt h)
  /\ this (after_not_yet_tuned rt h) = this h
  /\ filter is_dispatch (trace (after_not_yet_tuned rt h)) = filter is_dispatch (trace h)
  /\ filter is_allocation (trace (after_not_yet_tuned rt h)) = filter is_allocation (trace h).
Proof.
  intros Hsm.
  assert (E : (200 <=? device_sm_version (base (this h))) = false) by (apply Z.leb_gt; lia).
  unfold EnactFusedSearch, EnactIterativeSearch, after_not_yet_tuned, get_this, bind.
  rewrite E. rewrite call_eq.
  destruct (rt unit _ (world h)) as [[] w']. simpl.
  rewrite !filter_app. simpl. rewrite !app_nil_r.
  repeat split; reflexivity.
Qed.

End Untuned.

(** C2 on a device of compute capability 1.3. *)
Lemma untuned_generation_witness :
  device_sm_version (base (this (fresh_host calm true (gt200 false)))) < 200
  /\ EnactFusedSearch scripted MaxGridSize_spec small_problem 0 0
       (fresh_host calm true (gt200 false))
     = Returns cudaErrorInvalidConfiguration
         (after_not_yet_tuned scripted (fresh_host calm true (gt200 false)))
  /\ EnactIterativeSearch scripted MaxGridSize_spec 10 small_problem 0 0
       (fresh_host calm true (gt200 false))
     = Returns cudaErrorInvalidConfiguration
         (after_not_yet_tuned scripted (fresh_host calm true (gt200 false))).
Proof.
  assert (H : device_sm_version (base (this (fresh_host calm true (gt200 false)))) < 200)
    by (simpl; lia).
  split; [exact H|].
  pose proof (untuned_generation_is_invalid_configuration scripted MaxGridSize_spec
                10 small_problem 0 0 _ H) as [E1 [E2 _]].
  split; [exact E1 | exact E2].
Defined.

(** ** Running host programs symbolically *)

Lemma returns_elim {S A} (m : Prog S A) (s : S) (Q : A -> S -> Prop) :
  returns m s Q -> exists a s', m s = Returns a s' /\ Q a s'.
Proof.
  unfold returns, run. destruct (m s) as [a s'| |]; intros H; try contradiction.
  exists a, s'. split; [reflexivity | exact H].
Qed.

Lemma run_elim {S A} (m : Prog S A) (s s' : S) (a : A) Q I :
  run m s Q I -> m s = Returns a s' -> Q a s'.
Proof. unfold run. intros H E. rewrite E in H. exact H. Qed.

Lemma run_final {S A} (m : Prog S A) (s : S) (P : S -> Prop) :
  run m s (fun _ s' => P s') P -> P (final_state (m s)).
Proof. unfold run. destruct (m s); trivial. Qed.

Section Rules.

Context {S : Type}.

Lemma run_ret {A} (a : A) (s : S) Q I : Q a s -> run (ret a) s Q I.
Proof. trivial. Qed.

Lemma run_bind {A B} (m : Prog S A) (k : A -> Prog S B) (s : S) Q I :
  run m s (fun a s' => run (k a) s' Q I) I -> run (bind m k) s Q I.
Proof. unfold run, bind. destruct (m s); trivial. Qed.

Lemma run_undefined {A} (s : S) (Q : A -> S -> Prop) (I : S -> Prop) :
  I s -> run undefined s Q I.
Proof. trivial. Qed.

Lemma run_conseq {A} (m : Prog S A) (s : S) (Q Q' : A -> S -> Prop) (I I' : S -> Prop) :
  run m s Q I ->
  (forall a s', Q a s' -> Q' a s') ->
  (forall s', I s' -> I' s') ->
  run m s Q' I'.
Proof. unfold run. destruct (m s); auto. Qed.

(** Sequencing after a program that is known to return, keeping hold of
    what it returned. *)
Lemma run_bind_returns {A B} (m : Prog S A) (k : A -> Prog S B) (s : S)
    (P : A -> S -> Prop) Q I :
  returns m s P ->
  (forall a s', m s = Returns a s' -> P a s' -> run (k a) s' Q I) ->
  run (bind m k) s Q I.
Proof.
  unfold returns, run, bind. intros R K.
  destruct (m s) as [a s'| |] eqn:E; try contradiction.
  exact (K a s' eq_refl R).
Qed.

Lemma returns_run {A} (m : Prog S A) (s : S) (Q Q' : A -> S -> Prop) (I' : S -> Prop) :
  returns m s Q ->
  (forall a s', Q a s' -> Q' a s') ->
  run m s Q' I'.
Proof. intros H HQ. apply (run_conseq _ _ _ _ _ _ H HQ). contradiction. Qed.

End Rules.

Section HostRules.

Context {W : Type} (rt : Runtime W).

Lemma run_call {R} (c : Call R) (h : Host W) (Q : R -> Host W -> Prop) I :
  (forall r w', Q r (mkHost w' (trace h ++ [Ev c r]) (this h))) ->
  run (call rt c) h Q I.
Proof. intros H. unfold run. rewrite call_eq. apply H. Qed.

Lemma after_this {R} (c : Call R) (h : Host W) : this (after rt c h) = this h.
Proof. unfold after. rewrite call_eq. reflexivity. Qed.

Lemma after_trace {R} (c : Call R) (h : Host W) :
  trace (after rt c h) = trace h ++ [Ev c (fst (rt R c (world h)))].
Proof. unfold after. rewrite call_eq. reflexivity. Qed.

(** A call whose answer is not used: the host afterwards is [after]. *)
Lemma run_call_after {R} (c : Call R) (h : Host W) (Q : R -> Host W -> Prop) I :
  (forall r, Q r (after rt c h)) -> run (call rt c) h Q I.
Proof.
  intros H. specialize (H (fst (rt R c (world h)))).
  unfold run. unfold after in H. rewrite call_eq in *. exact H.
Qed.

Lemma run_get_this (h : Host W) (Q : EnactorTwoPhase -> Host W -> Prop) I :
  Q (this h) h -> run get_this h Q I.
Proof. trivial. Qed.

Lemma run_update (f : EnactorTwoPhase -> EnactorTwoPhase) (h : Host W)
    (Q : unit -> Host W -> Prop) I :
  Q tt (mkHost (world h) (trace h) (f (this h))) -> run (update f) h Q I.
Proof. trivial. Qed.

End HostRules.

Ltac simpl_host :=
  cbn [world trace this
       base INSTRUMENT expand_kernel_stats contract_kernel_stats total_runtimes
       total_lifetimes total_queued done d_done throttle_event global_barrier
       iteration d_iteration
       set_lifetime get_lifetime set_totals set_done set_d_done set_throttle_event
       set_iteration set_d_iteration fst snd andb orb negb is_some failed].

(** One step of the program at the head of the goal. *)
Ltac run_step rt :=
  lazymatch goal with
  | |- returns _ _ _ => unfold returns
  | |- run (bind _ _) _ _ _ => apply run_bind
  | |- run (ret _) _ _ _ => apply run_ret
  | |- run (call rt _) _ _ _ =>
      let r := fresh "r" in
      let w := fresh "w" in
      apply run_call; intros r w
  | |- run get_this _ _ _ => apply run_get_this
  | |- run (update _) _ _ _ => apply run_update
  | |- run undefined _ _ _ => apply run_undefined
  | |- run (if ?b then _ else _) _ _ _ =>
      match goal with
      | H : b = _ |- _ => rewrite H
      | _ => let B := fresh "B" in destruct b eqn:B
      end
  | |- run (match ?o with Some _ => _ | None => _ end) _ _ _ =>
      match goal with
      | H : o = _ |- _ => rewrite H
      | _ => let E := fresh "E" in destruct o eqn:E
      end
  | |- run (match ?p with pair _ _ => _ end) _ _ _ => destruct p
  | |- run (do_while_0 _) _ _ _ => unfold do_while_0
  | |- run (when _ _) _ _ _ => unfold when
  | |- run (B40CPerror _ _) _ _ _ => unfold B40CPerror
  | |- run (host_alloc _ _ _) _ _ _ => unfold host_alloc
  | |- run (host_get_device_pointer _ _) _ _ _ => unfold host_get_device_pointer
  | |- run (event_create _) _ _ _ => unfold event_create
  | |- run (Lifetime_Setup _ _ _) _ _ _ => unfold Lifetime_Setup
  | |- run (load_iteration) _ _ _ => unfold load_iteration
  | |- run (store_iteration _) _ _ _ => unfold store_iteration
  | |- run (store_done _) _ _ _ => unfold store_done
  | |- run (load_done _) _ _ _ => unfold load_done
  | |- run (incr_signed _ _) _ _ _ => unfold incr_signed; try change (narrow 64) with false
  | |- run (contraction _ _ _ _ _ _ _) _ _ _ => unfold contraction
  | |- run (throttle _) _ _ _ => unfold throttle
  | |- run (expansion _ _ _ _ _ _) _ _ _ => unfold expansion
  | |- run (level _ _ _ _ _ _ _ _ _) _ _ _ => unfold level
  end.

Ltac run_all rt :=
  repeat (run_step rt; cbv beta iota zeta; simpl_host);
  repeat match goal with u : unit |- _ => destruct u end.

(** Bring a trace into the form [old ++ new]. *)
Ltac new_events :=
  rewrite <- ?app_assoc; cbn [app];
  eexists; split; [first [reflexivity | symmetry; apply app_nil_r]|].

(** Use what is known about the members of the object. *)
Ltac use_members :=
  repeat match goal with
         | E : ?o = _, H : context [?o] |- _ =>
             lazymatch type of H with
             | o = _ => fail
             | _ => rewrite E in H
             end
         end;
  repeat match goal with
         | E : ?o = _ |- context [?o] => rewrite E
         end.

Ltac finish :=
  repeat split; intros;
  unfold allocated, unallocated, counters_reset in *;
  simpl_host; use_members;
  cbn [is_some andb negb app allocations bindings contract_launches reported
       flat_map allocation_of binding_of status_of filter is_dispatch fst snd] in *;
  repeat split;
  try reflexivity; try discriminate; try congruence;
  try (left; reflexivity); try (right; reflexivity).

(** Settle the width of [VertexId] wherever a value is converted. *)
Ltac use_width :=
  unfold converted;
  repeat match goal with
         | N : narrow ?bits = _ |- context [narrow ?bits] => rewrite N
         end.

(** Every status that let the program go on was [cudaSuccess]. *)
Ltac all_passed :=
  repeat match goal with
         | H : failed ?x = false |- _ => apply failed_false in H; subst x
         end.

(** ** [Setup] *)

Section SetupFacts.

Context {W : Type} (rt : Runtime W).

(** What one call of [Setup] does, whatever the runtime answers. *)
Lemma Setup_spec (csr_problem : CsrProblem) (eg cg : Z) (h : Host W) :
  returns (Setup rt csr_problem eg cg) h (fun r h' =>
    exists new, trace h' = trace h ++ new
    /\ base (this h') = base (this h)
    /\ INSTRUMENT (this h') = INSTRUMENT (this h)
    /\ filter is_dispatch new = []
    /\ contract_launches new = []
    /\ (r = cudaSuccess ->
        allocated (this h') = true
        /\ counters_reset (this h')
        /\ bindings new = [bitmask_binding csr_problem; row_offsets_binding csr_problem])
    /\ (allocated (this h) = true ->
        allocations new = []
        /\ allocated (this h') = true
        /\ global_barrier (this h') = global_barrier (this h)
        /\ expand_kernel_stats (this h') = expand_kernel_stats (this h)
        /\ contract_kernel_stats (this h') = contract_kernel_stats (this h)
        /\ counters_reset (this h')
        /\ (bindings new = [bitmask_binding csr_problem]
            \/ bindings new = [bitmask_binding csr_problem; row_offsets_binding csr_problem]))
    /\ (unallocated (this h) = true -> r = cudaSuccess ->
        allocations new =
          [r_done; r_d_done; r_throttle_event; r_iteration; r_d_iteration;
           r_lifetime lt_global_barrier; r_lifetime lt_expand_kernel_stats;
           r_lifetime lt_contract_kernel_stats]
        /\ d_done (this h') = Some cell_done
        /\ throttle_event (this h') = true
        /\ d_iteration (this h') = Some cell_iteration
        /\ global_barrier (this h') = Some eg
        /\ expand_kernel_stats (this h') = Some eg
        /\ contract_kernel_stats (this h') = Some cg)
    /\ exists n, reported new = repeat cudaSuccess n ++ (if failed r then [r] else [])).
Proof.
  unfold Setup; run_all rt.
  all: new_events.
  all: all_passed.
  all: repeat (split; [solve [finish]|]).
  all: cbn [reported flat_map status_of app fst];
       repeat match goal with B : failed _ = _ |- _ => rewrite B end; cbn [failed].
  all: first [ exists 0%nat; reflexivity | exists 1%nat; reflexivity
             | exists 2%nat; reflexivity | exists 3%nat; reflexivity
             | exists 4%nat; reflexivity | exists 5%nat; reflexivity
             | exists 6%nat; reflexivity | exists 7%nat; reflexivity
             | exists 8%nat; reflexivity | exists 9%nat; reflexivity
             | exists 10%nat; reflexivity ].
Qed.

End SetupFacts.

Section SetupClaims.

Context {W : Type} (rt : Runtime W).

(** C6: [Setup] always returns.  Called on an enactor that has nothing
    allocated and succeeding, it allocates, in this order, the done flag with
    its device alias and the throttle event, the iteration counter with its
    device alias, the global-barrier state and the two kernel-stats
    lifetimes.  Called on an enactor that has them, it asks for no
    allocation at all and leaves the three helper objects as they are.  Every
    call that succeeds, and every later call, leaves [iteration],
    [total_runtimes], [total_lifetimes], [total_queued] and [done] at 0; a
    successful call has bound the visited mask and the row offsets, a later
    call has at least asked for the first binding.  The sizes bound are the
    ones the code computes, in [VertexId] arithmetic: [bitmask_bytes] and
    [row_offsets_bytes]. *)
Theorem Setup_allocates_once_and_always_resets
    (csr_problem : CsrProblem) (expand_grid_size contract_grid_size : Z) (h : Host W) :
  exists r h' new,
    Setup rt csr_problem expand_grid_size contract_grid_size h = Returns r h'
    /\ trace h' = trace h ++ new
    /\ (unallocated (this h) = true -> r = cudaSuccess ->
        allocations new =
          [r_done; r_d_done; r_throttle_event; r_iteration; r_d_iteration;
           r_lifetime lt_global_barrier; r_lifetime lt_expand_kernel_stats;
           r_lifetime lt_contract_kernel_stats]
        /\ allocated (this h') = true
        /\ d_done (this h') = Some cell_done
        /\ throttle_event (this h') = true
        /\ d_iteration (this h') = Some cell_iteration
        /\ global_barrier (this h') = Some expand_grid_size
        /\ expand_kernel_stats (this h') = Some expand_grid_size
        /\ contract_kernel_stats (this h') = Some contract_grid_size)
    /\ (allocated (this h) = true ->
        allocations new = []
        /\ allocated (this h') = true
        /\ global_barrier (this h') = global_barrier (this h)
        /\ expand_kernel_stats (this h') = expand_kernel_stats (this h)
        /\ contract_kernel_stats (this h') = contract_kernel_stats (this h)
        /\ counters_reset (this h')
        /\ (bindings new = [bitmask_binding csr_problem]
            \/ bindings new = [bitmask_binding csr_problem; row_offsets_binding csr_problem]))
    /\ (r = cudaSuccess ->
        counters_reset (this h')
        /\ bindings new = [bitmask_binding csr_problem; row_offsets_binding csr_problem]).
Proof.
  destruct (returns_elim _ _ _ (Setup_spec rt csr_problem expand_grid_size contract_grid_size h))
    as (r & h' & E & new & T & _ & _ & _ & _ & Ok & Later & First & _).
  exists r, h', new. split; [exact E|]. split; [exact T|].
  split; [|split].
  - intros U R. destruct (First U R) as (A & D & Th & Di & G & X & C).
    destruct (Ok R) as (Al & _). repeat split; assumption.
  - exact Later.
  - intros R. destruct (Ok R) as (_ & Z0 & Bd). auto.
Qed.

End SetupClaims.

(** C6 on a fresh enactor, and on the same enactor once more. *)
Lemma Setup_twice_witness :
  let h0 := fresh_host calm false (fermi false) in
  exists h1 h2 new1 new2,
    unallocated (this h0) = true
    /\ Setup scripted small_problem 112 112 h0 = Returns cudaSuccess h1
    /\ trace h1 = trace h0 ++ new1
    /\ List.length (allocations new1) = 8%nat
    /\ allocated (this h1) = true
    /\ Setup scripted small_problem 112 112 h1 = Returns cudaSuccess h2
    /\ trace h2 = trace h1 ++ new2
    /\ allocations new2 = []
    /\ counters_reset (this h2)
    /\ bindings new2 = [bitmask_binding small_problem; row_offsets_binding small_problem].
Proof.
  intros h0.
  destruct (Setup_allocates_once_and_always_resets scripted small_problem 112 112 h0)
    as (r1 & h1 & new1 & E1 & T1 & First & _ & _).
  assert (U : unallocated (this h0) = true) by reflexivity.
  assert (R1 : r1 = cudaSuccess) by (vm_compute in E1; congruence).
  destruct (First U R1) as (A1 & Al1 & _).
  destruct (Setup_allocates_once_and_always_resets scripted small_problem 112 112 h1)
    as (r2 & h2 & new2 & E2 & T2 & _ & Later & Ok).
  destruct (Later Al1) as (A2 & _).
  assert (R2 : r2 = cudaSuccess).
  { assert (S1 : h1 = final_state (Setup scripted small_problem 112 112 h0))
      by (rewrite E1; reflexivity).
    rewrite S1 in E2. vm_compute in E2. congruence. }
  destruct (Ok R2) as (Z2 & B2).
  exists h1, h2, new1, new2. subst r1 r2.
  repeat split; try assumption; try apply Z2.
  rewrite A1. reflexivity.
Defined.

(** ** The fused search *)

Section Fused.

Context {W : Type} (rt : Runtime W) (MaxGridSize : EnactorBase -> Z -> Z -> Z).




End Fused.





(** ** [GetStatistics] *)


Section Statistics.

Context {W : Type} (rt : Runtime W).

(** [GetStatistics] in closed form. *)
Lemma GetStatistics_eq (bits : Z) (h : Host W) :
  GetStatistics rt bits h =
  match iteration (this h) with
  | None => Undefined (synchronized rt h)
  | Some it =>
      if it - 1 <? signed_min 64 then Undefined (synchronized rt h)
      else Returns (to_signed 64 (total_queued (this h)),
                    to_signed bits (it - 1),
                    if 0 <? total_lifetimes (this h)
                    then double_div (double_of_Z (total_runtimes (this h)))
                                    (double_of_Z (total_lifetimes (this h)))
                    else double_zero)
                   (synchronized rt h)
  end.
Proof.
  cbv beta iota delta [GetStatistics synchronized bind load_iteration get_this ret undefined].
  rewrite call_eq. cbn [this].
  destruct (iteration (this h)) as [it|]; [|reflexivity].
  destruct (it - 1 <? signed_min 64); reflexivity.
Qed.

(** C3: on an enactor whose iteration counter holds [it] (above the least
    [long long]), [GetStatistics<VertexId>] returns and leaves the enactor as
    it is; [search_depth] is [it - 1] converted to [VertexId], which is
    [it - 1] itself whenever that is a [VertexId] value; [avg_duty] is the
    double quotient [double(total_runtimes) / total_lifetimes] when
    [total_lifetimes] is positive, and 0.0 when it is 0. *)
Theorem GetStatistics_depth_and_duty (VertexId_bits it : Z) (h : Host W) :
  iteration (this h) = Some it ->
  signed_min 64 < it ->
  exists total_queued_out search_depth avg_duty h',
    GetStatistics rt VertexId_bits h
      = Returns (total_queued_out, search_depth, avg_duty) h'
    /\ this h' = this h
    /\ search_depth = to_signed VertexId_bits (it - 1)
    /\ (0 < VertexId_bits -> in_signed VertexId_bits (it - 1) = true ->
        search_depth = it - 1)
    /\ (0 < total_lifetimes (this h) ->
        avg_duty = double_div (double_of_Z (total_runtimes (this h)))
                              (double_of_Z (total_lifetimes (this h))))
    /\ (total_lifetimes (this h) = 0 -> avg_duty = double_zero).
Proof.
  intros Hit Hmin.
  rewrite GetStatistics_eq, Hit.
  assert (E : (it - 1 <? signed_min 64) = false) by (apply Z.ltb_ge; lia).
  rewrite E.
  eexists. eexists. eexists. eexists.
  split; [reflexivity|].
  split; [reflexivity|].
  split; [reflexivity|].
  split; [intros Hb Hr; apply to_signed_in_range; assumption|].
  split.
  - intros Hpos. apply Z.ltb_lt in Hpos. rewrite Hpos. reflexivity.
  - intros Hz. rewrite Hz. reflexivity.
Qed.

(** C9: the constructor leaves [iteration] NULL, and [GetStatistics] on an
    enactor whose [iteration] is NULL reads through that pointer, which is
    undefined behaviour, whatever else the enactor holds; after a [Setup]
    that succeeded the counter is there, and [GetStatistics] returns, with
    [search_depth] the conversion of 0 - 1. *)
Theorem GetStatistics_reads_iteration_unconditionally (VertexId_bits : Z) :
  (forall (INSTRUMENT : bool) (b : EnactorBase) (stale_runtimes stale_lifetimes : Z)
          (w : W) (t : list Event),
     let h := mkHost w t (EnactorTwoPhase_new INSTRUMENT b stale_runtimes stale_lifetimes) in
     iteration (this h) = None
     /\ GetStatistics rt VertexId_bits h = Undefined (synchronized rt h))
  /\ (forall h : Host W,
        iteration (this h) = None ->
        GetStatistics rt VertexId_bits h = Undefined (synchronized rt h))
  /\ (forall (csr_problem : CsrProblem) (expand_grid_size contract_grid_size : Z)
             (h h1 : Host W),
        Setup rt csr_problem expand_grid_size contract_grid_size h
          = Returns cudaSuccess h1 ->
        exists total_queued_out avg_duty,
          GetStatistics rt VertexId_bits h1
            = Returns (total_queued_out, to_signed VertexId_bits (0 - 1), avg_duty)
                      (synchronized rt h1)).
Proof.
  split; [|split].
  - intros ins b sr sl w t h. split; [reflexivity|].
    rewrite GetStatistics_eq. reflexivity.
  - intros h Hnull. rewrite GetStatistics_eq, Hnull. reflexivity.
  - intros csr eg cg h h1 E.
    pose proof (Setup_spec rt csr eg cg h) as S.
    apply (fun S => run_elim _ _ _ _ _ _ S E) in S.
    destruct S as (new & _ & _ & _ & _ & _ & Ok & _).
    destruct (Ok eq_refl) as (_ & (Hit & _) & _).
    rewrite GetStatistics_eq, Hit.
    eexists. eexists. reflexivity.
Qed.

End Statistics.

(** C3 after an instrumented iterative search of the 5-vertex graph: the
    counter stands at 4, so the depth is 3; 10 edges were queued, and the
    workers were busy three quarters of the time. *)
Lemma GetStatistics_witness :
  let h := final_state
             (EnactIterativeSearch scripted MaxGridSize_spec 10 small_problem 0 0
                (fresh_host five_vertex_run true (fermi false))) in
  exists h',
    iteration (this h) = Some 4
    /\ signed_min 64 < 4
    /\ GetStatistics scripted 32 h
       = Returns (10, 3, S754_finite false 6755399441055744 (-53)) h'.
Proof.
  intros h.
  assert (Hit : iteration (this h) = Some 4) by (vm_compute; reflexivity).
  assert (Hmin : signed_min 64 < 4) by (vm_compute; reflexivity).
  destruct (GetStatistics_depth_and_duty scripted 32 4 h Hit Hmin)
    as (q & d & a & h' & E & _ & D & Din & Apos & _).
  exists h'. split; [exact Hit|]. split; [exact Hmin|].
  rewrite E.
  assert (Hd : d = 3).
  { rewrite (Din ltac:(lia) ltac:(vm_compute; reflexivity)). reflexivity. }
  assert (Ha : a = S754_finite false 6755399441055744 (-53)).
  { rewrite (Apos ltac:(vm_compute; reflexivity)). vm_compute. reflexivity. }
  assert (Hq : q = 10) by (vm_compute in E; congruence).
  rewrite Hd, Ha, Hq. reflexivity.
Defined.

(** C9 on a fresh enactor: undefined before [Setup], defined after it. *)
Lemma GetStatistics_after_Setup_witness :
  let h := fresh_host calm false (fermi false) in
  exists h1 total_queued_out avg_duty,
    GetStatistics scripted 32 h = Undefined (synchronized scripted h)
    /\ Setup scripted small_problem 112 112 h = Returns cudaSuccess h1
    /\ GetStatistics scripted 32 h1
       = Returns (total_queued_out, -1, avg_duty) (synchronized scripted h1).
Proof.
  intros h.
  destruct (GetStatistics_reads_iteration_unconditionally scripted 32) as (Fresh & _ & After).
  assert (E : Setup scripted small_problem 112 112 h
              = Returns cudaSuccess (final_state (Setup scripted small_problem 112 112 h)))
    by (vm_compute; reflexivity).
  destruct (After small_problem 112 112 h _ E) as (q & a & G).
  exists (final_state (Setup scripted small_problem 112 112 h)), q, a.
  split; [apply (Fresh false (fermi false) 0 0 calm [])|].
  split; [exact E|]. exact G.
Defined.

(** ** The iterative search: one level *)

Section Level.

Context {W : Type} (rt : Runtime W).


(** The contraction phase: one dispatch with the incoming queue index, then
    the index moves on by one. *)
Lemma contraction_spec (contract_policy : ContractPolicy) (csr_problem : CsrProblem)
    (src contract_grid_size : Z) (retval : cudaError_t) (queue_index : Z) (h : Host W) :
  run (contraction rt contract_policy csr_problem src contract_grid_size retval queue_index) h
    (fun r h' =>
       exists new, trace h' = trace h ++ new /\ exists a,
       iteration (this h') = iteration (this h)
       /\ done (this h') = done (this h)
       /\ filter is_dispatch new = [Ev (launch_contract_atomic contract_grid_size contract_policy a) tt]
       /\ filter is_expand_dispatch new = []
       /\ k_queue_index a = queue_index
       /\ match r with
          | Next (_, queue_index') =>
              queue_index' = converted (VertexId_bits csr_problem) (queue_index + 1)
          | Break retval' => failed retval' = true /\ In retval' (reported new)
          end)
    (fun _ => True).
Proof.
  run_all rt.
  all: try exact I.
  all: new_events.
  all: use_width.
  all: eexists; repeat split; try reflexivity; try assumption.
  all: try (apply andb_prop in B1; apply B1).
  all: cbn [reported flat_map status_of app fst In]; auto 10.
Qed.

(** The expansion phase: one dispatch with the incoming queue index, then
    the index and the iteration counter move on by one each. *)
Lemma expansion_spec (expand_policy : ExpandPolicy) (csr_problem : CsrProblem)
    (expand_grid_size : Z) (retval : cudaError_t) (queue_index : Z) (h : Host W) :
  run (expansion rt expand_policy csr_problem expand_grid_size retval queue_index) h
    (fun r h' =>
       exists new, trace h' = trace h ++ new /\ exists a,
       filter is_dispatch new = [Ev (launch_expand_atomic expand_grid_size expand_policy a) tt]
       /\ contract_launches new = []
       /\ e_queue_index a = queue_index
       /\ match r with
          | Next (retval', queue_index') =>
              queue_index' = converted (VertexId_bits csr_problem) (queue_index + 1)
              /\ (retval' = retval \/ retval' = cudaSuccess)
              /\ exists it, iteration (this h) = Some it
                            /\ iteration (this h') = Some (it + 1)
          | Break _ => True
          end)
    (fun _ => True).
Proof.
  run_all rt.
  all: try exact I.
  all: new_events.
  all: all_passed.
  all: use_width.
  all: eexists; repeat split; try reflexivity; try assumption; auto.
  all: eexists; split; reflexivity.
Qed.

(** A whole level, however it ends: at most one contraction dispatch went
    out, with count 0 and the incoming queue index; a level that runs to its
    end has made exactly the two dispatches and moved the queue index by two
    and the iteration counter by one. *)
Lemma level_spec (expand_policy : ExpandPolicy) (contract_policy : ContractPolicy)
    (csr_problem : CsrProblem) (src expand_grid_size contract_grid_size : Z)
    (retval : cudaError_t) (queue_index : Z) (h : Host W) :
  run (level rt expand_policy contract_policy csr_problem src
         expand_grid_size contract_grid_size retval queue_index) h
    (fun r h' =>
       exists new, trace h' = trace h ++ new /\ exists a,
       contract_launches new = [(contract_policy, a)]
       /\ k_num_elements a = 0
       /\ k_queue_index a = queue_index
       /\ k_steal_index a = queue_index
       /\ match r with
          | Next (retval', queue_index') =>
              retval' = cudaSuccess
              /\ queue_index'
                 = converted (VertexId_bits csr_problem)
                     (converted (VertexId_bits csr_problem) (queue_index + 1) + 1)
              /\ (exists it, iteration (this h) = Some it
                             /\ iteration (this h') = Some (it + 1))
              /\ exists a',
                   filter is_dispatch new =
                     [Ev (launch_contract_atomic contract_grid_size contract_policy a) tt;
                      Ev (launch_expand_atomic expand_grid_size expand_policy a') tt]
                   /\ e_queue_index a'
                      = converted (VertexId_bits csr_problem) (queue_index + 1)
          | Break _ => True
          end)
    (fun h' =>
       exists new, trace h' = trace h ++ new
       /\ (contract_launches new = []
           \/ exists a, contract_launches new = [(contract_policy, a)]
                        /\ k_num_elements a = 0
                        /\ k_queue_index a = queue_index
                        /\ k_steal_index a = queue_index)).
Proof.
  run_all rt.
  all: new_events.
  all: all_passed.
  all: use_width.
  all: cbn [contract_launches filter is_dispatch].
  all: try (left; reflexivity).
  all: try (right; eexists; repeat split; reflexivity).
  all: eexists; repeat split; try reflexivity.
  all: try lia.
  all: eexists; split; reflexivity.
Qed.

(** C4, as the code has it: a level of the iterative loop that runs to its
    end (contract phase, throttle, expand phase) has dispatched the
    contraction with the queue index it started from and the expansion with
    that index incremented, and hands on the index incremented twice; the
    iteration counter has grown by exactly one.  The two increments are
    increments of a [VertexId]: they add two whenever [VertexId] is at least
    as wide as [int], and whenever the index plus two is a [VertexId] value;
    a narrower [VertexId] at its maximum wraps. *)
Theorem level_advances_queue_index_by_two
    (expand_policy : ExpandPolicy) (contract_policy : ContractPolicy)
    (csr_problem : CsrProblem) (src expand_grid_size contract_grid_size : Z)
    (retval retval' : cudaError_t) (queue_index queue_index' : Z) (h h' : Host W) :
  level rt expand_policy contract_policy csr_problem src
    expand_grid_size contract_grid_size retval queue_index h
    = Returns (Next (retval', queue_index')) h' ->
  queue_index' = converted (VertexId_bits csr_problem) (queue_index + 2)
  /\ (narrow (VertexId_bits csr_problem) = false -> queue_index' = queue_index + 2)
  /\ (in_signed (VertexId_bits csr_problem) (queue_index + 2) = true ->
      queue_index' = queue_index + 2)
  /\ (exists it, iteration (this h) = Some it /\ iteration (this h') = Some (it + 1))
  /\ exists new a a',
       trace h' = trace h ++ new
       /\ filter is_dispatch new =
            [Ev (launch_contract_atomic contract_grid_size contract_policy a) tt;
             Ev (launch_expand_atomic expand_grid_size expand_policy a') tt]
       /\ k_queue_index a = queue_index
       /\ e_queue_index a' = converted (VertexId_bits csr_problem) (queue_index + 1).
Proof.
  intros E.
  pose proof (level_spec expand_policy contract_policy csr_problem src
                expand_grid_size contract_grid_size retval queue_index h) as S.
  apply (fun S => run_elim _ _ _ _ _ _ S E) in S.
  destruct S as (new & T & a & _ & _ & Ka & _ & _ & Q & It & a' & D & Ea).
  rewrite converted_add in Q.
  replace (queue_index + 1 + 1) with (queue_index + 2) in Q by lia.
  split; [exact Q|].
  split; [intros N; rewrite Q; unfold converted; rewrite N; reflexivity|].
  split.
  - intros R. rewrite Q. unfold converted.
    destruct (narrow (VertexId_bits csr_problem)) eqn:N; [|reflexivity].
    apply to_signed_in_range; [apply narrow_width in N; lia | exact R].
  - split; [exact It|]. exists new, a, a'. auto.
Qed.

(** The two phases on their own: each increments the queue index once,
    right after its dispatch. *)
Lemma each_phase_advances_queue_index_by_one
    (expand_policy : ExpandPolicy) (contract_policy : ContractPolicy)
    (csr_problem : CsrProblem) (src expand_grid_size contract_grid_size : Z)
    (retval retval' : cudaError_t) (queue_index queue_index' : Z) (h h' : Host W) :
  (contraction rt contract_policy csr_problem src contract_grid_size retval queue_index h
     = Returns (Next (retval', queue_index')) h' ->
   queue_index' = converted (VertexId_bits csr_problem) (queue_index + 1)
   /\ iteration (this h') = iteration (this h))
  /\ (expansion rt expand_policy csr_problem expand_grid_size retval queue_index h
        = Returns (Next (retval', queue_index')) h' ->
      queue_index' = converted (VertexId_bits csr_problem) (queue_index + 1)
      /\ exists it, iteration (this h) = Some it /\ iteration (this h') = Some (it + 1)).
Proof.
  split; intros E.
  - pose proof (contraction_spec contract_policy csr_problem src contract_grid_size
                  retval queue_index h) as S.
    apply (fun S => run_elim _ _ _ _ _ _ S E) in S.
    destruct S as (new & _ & a & It & _ & _ & _ & _ & Q). auto.
  - pose proof (expansion_spec expand_policy csr_problem expand_grid_size
                  retval queue_index h) as S.
    apply (fun S => run_elim _ _ _ _ _ _ S E) in S.
    destruct S as (new & _ & a & _ & _ & _ & Q & _ & It). auto.
Qed.





(** ** The iterative search: the loop *)

Lemma contract_launches_app (t1 t2 : list Event) :
  contract_launches (t1 ++ t2) = contract_launches t1 ++ contract_launches t2.
Proof.
  induction t1 as [|ev t1 IH]; [reflexivity|].
  destruct ev as [R c r]. destruct c; cbn [app contract_launches]; rewrite IH; reflexivity.
Qed.

Lemma contraction_launches_from_refl (contract_policy : ContractPolicy)
    (bits queue_index : Z) (h : Host W) :
  contraction_launches_from contract_policy bits queue_index h h.
Proof.
  exists []. split; [symmetry; apply app_nil_r|].
  split; [constructor|]. exists 0%nat. reflexivity.
Qed.

Lemma contraction_launches_from_one (contract_policy : ContractPolicy)
    (bits queue_index : Z) (h h' : Host W) (new : list Event) (a : ContractArgs) :
  trace h' = trace h ++ new ->
  contract_launches new = [(contract_policy, a)] ->
  k_num_elements a = 0 -> k_queue_index a = queue_index -> k_steal_index a = queue_index ->
  contraction_launches_from contract_policy bits queue_index h h'.
Proof.
  intros T CL Kn Kq Ks. exists new. split; [exact T|]. rewrite CL.
  split.
  - constructor; [|constructor]. cbn [fst snd]. repeat split; congruence.
  - exists 1%nat. cbn [map queue_indices snd]. rewrite Kq. reflexivity.
Qed.

Lemma contraction_launches_from_step (contract_policy : ContractPolicy)
    (bits queue_index : Z) (h h1 h2 : Host W) (new : list Event) (a : ContractArgs) :
  trace h1 = trace h ++ new ->
  contract_launches new = [(contract_policy, a)] ->
  k_num_elements a = 0 -> k_queue_index a = queue_index -> k_steal_index a = queue_index ->
  contraction_launches_from contract_policy bits
    (converted bits (converted bits (queue_index + 1) + 1)) h1 h2 ->
  contraction_launches_from contract_policy bits queue_index h h2.
Proof.
  intros T CL Kn Kq Ks (new2 & T2 & F2 & n & M2).
  exists (new ++ new2). split; [rewrite T2, T, app_assoc; reflexivity|].
  rewrite contract_launches_app, CL. cbn [app].
  split.
  - constructor; [|exact F2]. cbn [fst snd]. repeat split; congruence.
  - exists (S n). cbn [map queue_indices snd]. rewrite Kq, M2. reflexivity.
Qed.

Lemma while_true_spec (expand_policy : ExpandPolicy) (contract_policy : ContractPolicy)
    (csr_problem : CsrProblem) (src expand_grid_size contract_grid_size : Z) (fuel : nat) :
  forall (retval : cudaError_t) (queue_index : Z) (h : Host W),
    run (while_true fuel
           (level rt expand_policy contract_policy csr_problem src
              expand_grid_size contract_grid_size) retval queue_index) h
      (fun _ h' => contraction_launches_from contract_policy
                     (VertexId_bits csr_problem) queue_index h h')
      (fun h' => contraction_launches_from contract_policy
                   (VertexId_bits csr_problem) queue_index h h').
Proof.
  induction fuel as [|fuel IH]; intros retval queue_index h.
  - apply contraction_launches_from_refl.
  - cbn [while_true]. apply run_bind.
    eapply run_conseq; [apply level_spec | |].
    + intros r h1 (new & T & a & CL & Kn & Kq & Ks & M).
      destruct r as [[retval' queue_index'] | retval'].
      * destruct M as (_ & Q & _). subst queue_index'.
        eapply run_conseq; [apply IH | |];
          intros; eapply contraction_launches_from_step; eassumption.
      * apply run_ret. eapply contraction_launches_from_one; eassumption.
    + intros h1 (new & T & [CL | (a & CL & Kn & Kq & Ks)]).
      * exists new. split; [exact T|]. rewrite CL. split; [constructor|].
        exists 0%nat. reflexivity.
      * eapply contraction_launches_from_one; eassumption.
Qed.

End Level.


Section IterativeSearch.

Context {W : Type} (rt : Runtime W) (MaxGridSize : EnactorBase -> Z -> Z -> Z).

Lemma contraction_launches_from_prefix (contract_policy : ContractPolicy)
    (bits queue_index : Z) (h h1 h2 : Host W) (pre : list Event) :
  trace h1 = trace h ++ pre ->
  contract_launches pre = [] ->
  contraction_launches_from contract_policy bits queue_index h1 h2 ->
  contraction_launches_from contract_policy bits queue_index h h2.
Proof.
  intros T CL (new & T2 & F & M).
  exists (pre ++ new). split; [rewrite T2, T, app_assoc; reflexivity|].
  rewrite contract_launches_app, CL. auto.
Qed.

Lemma contraction_launches_from_none (contract_policy : ContractPolicy)
    (bits queue_index : Z) (h h1 : Host W) (pre : list Event) :
  trace h1 = trace h ++ pre ->
  contract_launches pre = [] ->
  contraction_launches_from contract_policy bits queue_index h h1.
Proof.
  intros T CL. eapply contraction_launches_from_prefix; [exact T | exact CL |].
  apply contraction_launches_from_refl.
Qed.

Lemma EnactIterativeSearch_launches (fuel : nat) (csr_problem : CsrProblem)
    (src max_grid_size : Z) (h : Host W) :
  run (EnactIterativeSearch rt MaxGridSize fuel csr_problem src max_grid_size) h
    (fun _ h' =>
       contraction_launches_from (ContractPolicy200 (INSTRUMENT (this h)))
         (VertexId_bits csr_problem) 0 h h')
    (fun h' =>
       contraction_launches_from (ContractPolicy200 (INSTRUMENT (this h)))
         (VertexId_bits csr_problem) 0 h h').
Proof.
  unfold EnactIterativeSearch. run_all rt.
  - unfold EnactIterativeSearch_with. run_all rt.
    all: eapply returns_run; [apply Setup_spec|];
      intros r1 h1 (new1 & T1 & Hb & Hi & Hd & Hc & _);
      cbv beta; cbn [world trace this] in *.
    all: repeat (run_step rt; cbv beta iota zeta; simpl_host; rewrite ?Hb, ?Hi).
    all: repeat match goal with u : unit |- _ => destruct u end.
    all: try (eapply run_conseq;
              [ apply while_true_spec
              | intros a h2 L; cbv beta in L; destruct (failed a); apply run_ret;
                cbv beta iota; apply run_ret
              | intros h2 L; cbv beta in L ]).
    all: (first [ eapply contraction_launches_from_prefix; [ | | eassumption]
                | eapply contraction_launches_from_none ]);
         [ cbn [trace]; rewrite ?T1, <- ?app_assoc; reflexivity
         | cbn [app contract_launches]; rewrite ?contract_launches_app, ?Hc;
           reflexivity ].
  - eapply contraction_launches_from_none; [cbn [trace]; reflexivity | reflexivity].
Qed.

(** A level starts with the dispatch of its contraction. *)
Lemma level_first (expand_policy : ExpandPolicy) (contract_policy : ContractPolicy)
    (csr_problem : CsrProblem) (src expand_grid_size contract_grid_size : Z)
    (retval : cudaError_t) (queue_index it : Z) (h : Host W) :
  iteration (this h) = Some it ->
  run (level rt expand_policy contract_policy csr_problem src
         expand_grid_size contract_grid_size retval queue_index) h
    (fun _ h' =>
       exists a rest,
         trace h' = trace h ++ Ev (launch_contract_atomic contract_grid_size
                                     contract_policy a) tt :: rest
         /\ k_queue_index a = queue_index /\ k_iteration a = it /\ k_num_elements a = 0)
    (fun h' =>
       exists a rest,
         trace h' = trace h ++ Ev (launch_contract_atomic contract_grid_size
                                     contract_policy a) tt :: rest
         /\ k_queue_index a = queue_index /\ k_iteration a = it /\ k_num_elements a = 0).
Proof.
  intros Hit. run_all rt.
  all: rewrite <- ?app_assoc; cbn [app].
  all: eexists; eexists; split; [reflexivity|].
  all: cbn [k_queue_index k_iteration k_num_elements]; auto.
Qed.

Lemma while_true_first (expand_policy : ExpandPolicy) (contract_policy : ContractPolicy)
    (csr_problem : CsrProblem) (src expand_grid_size contract_grid_size : Z) (fuel : nat)
    (retval : cudaError_t) (queue_index it : Z) (h : Host W) :
  iteration (this h) = Some it ->
  run (while_true (S fuel)
         (level rt expand_policy contract_policy csr_problem src
            expand_grid_size contract_grid_size) retval queue_index) h
    (fun _ h' =>
       exists a rest,
         trace h' = trace h ++ Ev (launch_contract_atomic contract_grid_size
                                     contract_policy a) tt :: rest
         /\ k_queue_index a = queue_index /\ k_iteration a = it /\ k_num_elements a = 0)
    (fun h' =>
       exists a rest,
         trace h' = trace h ++ Ev (launch_contract_atomic contract_grid_size
                                     contract_policy a) tt :: rest
         /\ k_queue_index a = queue_index /\ k_iteration a = it /\ k_num_elements a = 0).
Proof.
  intros Hit. cbn [while_true]. apply run_bind.
  eapply run_conseq; [apply (level_first _ _ _ _ _ _ _ _ it); exact Hit | | trivial].
  intros r h1 (a & rest & T1 & Facts).
  assert (Step : forall h2 : Host W,
            (exists new, trace h2 = trace h1 ++ new) ->
            exists a rest,
              trace h2 = trace h ++ Ev (launch_contract_atomic contract_grid_size
                                          contract_policy a) tt :: rest
              /\ k_queue_index a = queue_index /\ k_iteration a = it
              /\ k_num_elements a = 0).
  { intros h2 (new2 & T2). exists a, (rest ++ new2).
    split; [rewrite T2, T1, <- app_assoc; reflexivity | exact Facts]. }
  destruct r as [[retval' queue_index'] | retval'].
  - eapply run_conseq; [apply while_true_spec | |].
    + intros r h2 (new2 & T2 & _). apply Step. exists new2. exact T2.
    + intros h2 (new2 & T2 & _). apply Step. exists new2. exact T2.
  - apply run_ret. apply Step. exists []. symmetry. apply app_nil_r.
Qed.

(** The iterative search around its call of [Setup]. *)
Lemma EnactIterativeSearch_after_Setup (fuel : nat) (csr_problem : CsrProblem)
    (src max_grid_size : Z) (h : Host W) :
  200 <= device_sm_version (base (this h)) ->
  let grid_size := MaxGridSize (base (this h)) 8 max_grid_size in
  let found h' :=
    exists new, trace h' = trace h ++ new /\
    exists r1 h1,
      Setup rt csr_problem grid_size grid_size
        (iterative_search_at_Setup rt 8 grid_size 8 grid_size h) = Returns r1 h1
      /\ (failed r1 = true -> contract_launches new = [])
      /\ (r1 = cudaSuccess -> fuel <> 0%nat ->
          exists a rest,
            contract_launches new
            = (ContractPolicy200 (INSTRUMENT (this h)), a) :: rest
            /\ k_queue_index a = 0 /\ k_iteration a = 0 /\ k_num_elements a = 0) in
  run (EnactIterativeSearch rt MaxGridSize fuel csr_problem src max_grid_size) h
    (fun _ h' => found h') found.
Proof.
  intros Hsm grid_size found. subst found.
  assert (E : (200 <=? device_sm_version (base (this h))) = true) by (apply Z.leb_le; lia).
  unfold EnactIterativeSearch. apply run_bind, run_get_this. rewrite E.
  unfold EnactIterativeSearch_with, do_while_0.
  apply run_bind. apply run_bind, run_get_this. cbv beta zeta.
  cbn [x_CTA_OCCUPANCY c_CTA_OCCUPANCY ExpandPolicy200 ContractPolicy200].
  fold grid_size.
  apply run_bind. unfold when at 1. unfold iterative_search_at_Setup.
  destruct (DEBUG (base (this h))) eqn:B0;
    [apply run_bind, run_call_after; intros u; apply run_call_after; intros u'
    | apply run_ret]; cbv beta.
  all: (eapply run_bind_returns; [apply Setup_spec|]);
       intros r1 h1 E1 (new1 & T1 & Hb & Hi & _ & Hc & Hs & _); cbv beta;
       rewrite ?after_this in Hb, Hi;
       destruct (failed r1) eqn:F1.
  all: try (apply run_ret; cbv beta iota; apply run_ret;
            eexists;
            (split; [rewrite T1, ?after_trace, <- ?app_assoc; cbn [app]; reflexivity|]);
            exists r1, h1; split; [exact E1|]; split;
            [ intros _; cbn [contract_launches]; auto
            | intros ->; discriminate F1 ]).
  all: apply failed_false in F1; subst r1.
  all: destruct (Hs eq_refl) as (_ & (I0 & _) & _).
  all: apply run_bind; unfold when;
       destruct (INSTRUMENT (this h)) eqn:Bi; cbn [andb];
       repeat (run_step rt; cbv beta iota zeta; simpl_host).
  all: repeat match goal with u : unit |- _ => destruct u end.
  all: destruct fuel as [|fuel];
       [ cbn [while_true]; unfold run; cbn [trace]
       | eapply run_conseq;
         [ apply (while_true_first _ _ _ _ _ _ _ _ _ 0); exact I0
         | intros r2 h2 (a & rest & T2 & Kq & Ki & Kn); cbn [trace] in T2;
           destruct (failed r2); apply run_ret; cbv beta iota; apply run_ret
         | intros h2 (a & rest & T2 & Kq & Ki & Kn); cbn [trace] in T2 ] ].
  all: eexists;
       (split; [rewrite ?T2, T1, ?after_trace, <- ?app_assoc; cbn [app]; reflexivity|]);
       exists cudaSuccess, h1; (split; [exact E1|]); (split; [discriminate|]);
       intros _ Fuel; try contradiction.
  all: exists a;
       cbn [contract_launches]; rewrite contract_launches_app, Hc;
       cbn [app contract_launches]; eexists; split; [reflexivity | auto].
Qed.

Lemma queue_indices_closed (bits : Z) (n : nat) :
  forall level,
    queue_indices bits n (converted bits (2 * level))
    = map (fun i => converted bits (2 * i)) (consecutive n level).
Proof.
  induction n as [|n IH]; intros level; cbn [queue_indices consecutive map]; [reflexivity|].
  f_equal. rewrite converted_twice.
  replace (2 * level + 2) with (2 * (level + 1)) by lia. apply IH.
Qed.

(** C8: however an iterative search ends, and however many levels it ran,
    every contraction it dispatched was handed the element count 0, the
    policy with [DEQUEUE_PROBLEM_SIZE] set and the same value as queue index
    and steal index; the frontier length the kernel works on is therefore the
    device-side counter of that queue index.  The queue index of the
    contraction of level [k] is [2 * k] stored in a [VertexId].  On a device
    of generation 200 or later, a search whose [Setup] succeeds dispatches
    at least one contraction (the loop being entered), the first one with
    queue index 0; a search whose [Setup] fails dispatches none, and neither
    does a search on an older device. *)
Theorem contract_dispatch_leaves_the_count_to_the_device
    (fuel : nat) (csr_problem : CsrProblem) (src max_grid_size : Z) (h : Host W) :
  let grid_size := MaxGridSize (base (this h)) 8 max_grid_size in
  exists new,
    trace (final_state
             (EnactIterativeSearch rt MaxGridSize fuel csr_problem src max_grid_size h))
      = trace h ++ new
    /\ Forall count_left_to_device (contract_launches new)
    /\ (exists n,
          map (fun launch => k_queue_index (snd launch)) (contract_launches new)
          = map (fun level => converted (VertexId_bits csr_problem) (2 * level))
              (consecutive n 0))
    /\ (200 <= device_sm_version (base (this h)) ->
        exists r1 h1,
          Setup rt csr_problem grid_size grid_size
            (iterative_search_at_Setup rt 8 grid_size 8 grid_size h) = Returns r1 h1
          /\ (failed r1 = true -> contract_launches new = [])
          /\ (r1 = cudaSuccess -> fuel <> 0%nat ->
              exists a rest,
                contract_launches new
                = (ContractPolicy200 (INSTRUMENT (this h)), a) :: rest
                /\ k_queue_index a = 0 /\ k_iteration a = 0 /\ k_num_elements a = 0))
    /\ (device_sm_version (base (this h)) < 200 -> contract_launches new = []).
Proof.
  intros grid_size.
  pose proof (run_final _ _ _ (EnactIterativeSearch_launches fuel csr_problem
                                 src max_grid_size h)) as (new & T & F & n & M).
  exists new. split; [exact T|]. split; [|split; [|split]].
  - eapply Forall_impl; [|exact F].
    intros [policy a] (P & Kn & Ks). cbn [fst snd] in *. subst policy.
    unfold count_left_to_device, contract_frontier_length. cbn [fst snd].
    repeat split; try assumption; reflexivity.
  - exists n. rewrite M.
    pose proof (queue_indices_closed (VertexId_bits csr_problem) n 0) as C.
    change (2 * 0) with 0 in C. rewrite converted_0 in C. exact C.
  - intros Hsm.
    pose proof (run_final _ _ _ (EnactIterativeSearch_after_Setup fuel csr_problem src
                                   max_grid_size h Hsm)) as (new' & T' & Tie).
    rewrite T in T'. apply app_inv_head in T'. subst new'. exact Tie.
  - intros Old.
    assert (E : (200 <=? device_sm_version (base (this h))) = false)
      by (apply Z.leb_gt; exact Old).
    revert T. unfold EnactIterativeSearch, bind, get_this. rewrite E.
    rewrite call_eq. cbn [final_state ret trace].
    intros T. apply app_inv_head in T. subst new. reflexivity.
Qed.

End IterativeSearch.

(** C8 on the instrumented search of the 5-vertex graph: five contractions
    went out, each with the count 0, with the queue indices 0, 2, 4, 6 and
    8. *)
Lemma contract_dispatch_witness :
  let h := fresh_host five_vertex_run true (fermi false) in
  200 <= device_sm_version (base (this h))
  /\ exists new a rest,
       trace (final_state
                (EnactIterativeSearch scripted MaxGridSize_spec 8 small_problem 0 0 h))
         = trace h ++ new
       /\ Forall count_left_to_device (contract_launches new)
       /\ contract_launches new = (ContractPolicy200 true, a) :: rest
       /\ map (fun launch => k_queue_index (snd launch)) (contract_launches new)
          = [0; 2; 4; 6; 8].
Proof.
  intros h.
  assert (Hsm : 200 <= device_sm_version (base (this h))) by (vm_compute; discriminate).
  split; [exact Hsm|].
  destruct (contract_dispatch_leaves_the_count_to_the_device scripted MaxGridSize_spec
              8 small_problem 0 0 h) as (new & T & F & _ & Tie & _).
  destruct (Tie Hsm) as (r1 & h1 & E1 & _ & Ok).
  assert (R1 : r1 = cudaSuccess) by (vm_compute in E1; congruence).
  destruct (Ok R1 ltac:(discriminate)) as (a & rest & CL & _).
  exists new, a, rest.
  split; [exact T|]. split; [exact F|]. split; [exact CL|].
  assert (N : new = trace (final_state
                             (EnactIterativeSearch scripted MaxGridSize_spec 8
                                small_problem 0 0 h)))
    by (rewrite T; reflexivity).
  rewrite N. vm_compute. reflexivity.
Defined.

(** C4 as the specification states it fails for a [VertexId] narrower than
    [int]: on a problem whose vertex identifiers are [signed char], a search
    whose flag stays clear for 64 levels returns [cudaSuccess], and its
    contractions of iteration 63 and 64 were dispatched with the queue
    indices 126 and -128; the level in between ran to its end and moved the
    queue index from 126 down to -128. *)
Lemma narrow_queue_index_wraps :
  exists h',
    EnactIterativeSearch scripted MaxGridSize_spec 70 byte_problem 0 0
      (fresh_host long_path_run false (fermi false))
    = Returns cudaSuccess h'
    /\ nth 63 (map (fun launch => k_queue_index (snd launch))
                 (contract_launches (trace h'))) 0 = 126
    /\ nth 64 (map (fun launch => k_queue_index (snd launch))
                 (contract_launches (trace h'))) 0 = -128
    /\ -128 < 126.
Proof.
  eexists. split; [vm_compute; reflexivity|].
  split; [vm_compute; reflexivity|].
  split; [vm_compute; reflexivity | lia].
Qed.

(** The amended C4 on the first level of a search on the small problem, with
    the completion flag still clear, and on the level of a [signed char]
    problem that starts from the queue index 126. *)
Lemma level_witness :
  let w := {| statuses := []; done_reads := [0]; queue_lengths := [] |} in
  let h := final_state (Setup scripted small_problem 112 112
                          (fresh_host w false (fermi false))) in
  let hb := final_state (Setup scripted byte_problem 112 112
                           (fresh_host w false (fermi false))) in
  (exists h',
     level scripted (ExpandPolicy200 false) (ContractPolicy200 false) small_problem 0
       112 112 cudaSuccess 0 h = Returns (Next (cudaSuccess, 2)) h'
     /\ 2 = 0 + 2
     /\ exists it, iteration (this h) = Some it /\ iteration (this h') = Some (it + 1))
  /\ (exists h',
        level scripted (ExpandPolicy200 false) (ContractPolicy200 false) byte_problem 0
          112 112 cudaSuccess 126 hb = Returns (Next (cudaSuccess, -128)) h'
        /\ -128 = converted (VertexId_bits byte_problem) (126 + 2)).
Proof.
  intros w h hb. split.
  - assert (E : level scripted (ExpandPolicy200 false) (ContractPolicy200 false)
                  small_problem 0 112 112 cudaSuccess 0 h
                = Returns (Next (cudaSuccess, 2))
                    (final_state
                       (level scripted (ExpandPolicy200 false) (ContractPolicy200 false)
                          small_problem 0 112 112 cudaSuccess 0 h)))
      by (vm_compute; reflexivity).
    destruct (level_advances_queue_index_by_two scripted _ _ _ _ _ _ _ _ _ _ _ _ E)
      as (_ & Wide & _ & It & _).
    eexists. split; [exact E|]. split; [apply Wide; reflexivity | exact It].
  - assert (E : level scripted (ExpandPolicy200 false) (ContractPolicy200 false)
                  byte_problem 0 112 112 cudaSuccess 126 hb
                = Returns (Next (cudaSuccess, -128))
                    (final_state
                       (level scripted (ExpandPolicy200 false) (ContractPolicy200 false)
                          byte_problem 0 112 112 cudaSuccess 126 hb)))
      by (vm_compute; reflexivity).
    destruct (level_advances_queue_index_by_two scripted _ _ _ _ _ _ _ _ _ _ _ _ E)
      as (Q & _).
    eexists. split; [exact E | exact Q].
Defined.


(** ** Failures of runtime calls *)

Section Failures.

Context {W : Type} (rt : Runtime W).

(** X16: in [Setup], every status before the one returned was
    [cudaSuccess]; a failure that is returned is the last status the runtime
    reported, so nothing was called after it. *)
Lemma Setup_returns_the_first_failure
    (csr_problem : CsrProblem) (expand_grid_size contract_grid_size : Z) (h : Host W) :
  exists r h' new n,
    Setup rt csr_problem expand_grid_size contract_grid_size h = Returns r h'
    /\ trace h' = trace h ++ new
    /\ reported new = repeat cudaSuccess n ++ (if failed r then [r] else []).
Proof.
  destruct (returns_elim _ _ _ (Setup_spec rt csr_problem expand_grid_size contract_grid_size h))
    as (r & h' & E & new & T & _ & _ & _ & _ & _ & _ & _ & n & R).
  exists r, h', new, n. auto.
Qed.

End Failures.

(** C7 fails in the expansion phase of an instrumented search.  The first
    run has [GetQueueLength] fail after the contraction of level 0, and the
    search returns that failure.  The second run has it succeed there and
    fail after the expansion of level 0: the loop is left, the last call of
    the trace is the failed one, and the search returns [cudaSuccess]. *)
Theorem expansion_queue_length_failure_is_reported_as_success :
  let after_contraction :=
    {| statuses := []; done_reads := [0]; queue_lengths := [(cudaErrorUnknown, 0)] |} in
  let after_expansion :=
    {| statuses := []; done_reads := [0];
       queue_lengths := [(cudaSuccess, 1); (cudaErrorUnknown, 0)] |} in
  (exists h',
     EnactIterativeSearch scripted MaxGridSize_spec 5 small_problem 0 0
       (fresh_host after_contraction true (fermi false))
     = Returns cudaErrorUnknown h'
     /\ last (trace h') (Ev cudaEventRecord cudaSuccess)
        = Ev (GetQueueLength 1) (cudaErrorUnknown, 0))
  /\ (exists h',
        EnactIterativeSearch scripted MaxGridSize_spec 5 small_problem 0 0
          (fresh_host after_expansion true (fermi false))
        = Returns cudaSuccess h'
        /\ last (trace h') (Ev cudaEventRecord cudaSuccess)
           = Ev (GetQueueLength 2) (cudaErrorUnknown, 0)
        /\ In cudaErrorUnknown (reported (trace h'))).
Proof.
  intros w1 w2. split.
  - eexists. split; vm_compute; reflexivity.
  - eexists. split; [vm_compute; reflexivity|].
    split; [vm_compute; reflexivity|].
    vm_compute. auto 20.
Qed.

(** * Properties of the random graph builder *)

Section BuildRandomGraphFacts.

Import RandomGraph.

Context {W : Type} (libc : Library W).

Lemma run_lib_call {R} (c : LibCall R) (f : Frame W) (Q : R -> Frame W -> Prop) I :
  (forall r w', Q r (mkFrame w' (log f ++ [Lib c r]) (src f) (csr_graph f))) ->
  run (lib_call libc c) f Q I.
Proof.
  intros H. unfold run, lib_call. destruct (libc R c (lib f)) as [r w']. apply H.
Qed.

Lemma run_get_frame (f : Frame W) (Q : Frame W -> Frame W -> Prop) I :
  Q f f -> run get_frame f Q I.
Proof. trivial. Qed.

Lemma run_set_src (v : Z) (f : Frame W) (Q : unit -> Frame W -> Prop) I :
  Q tt (mkFrame (lib f) (log f) v (csr_graph f)) -> run (set_src v) f Q I.
Proof. trivial. Qed.

Lemma run_set_csr_graph (g : CsrGraph) (f : Frame W) (Q : unit -> Frame W -> Prop) I :
  Q tt (mkFrame (lib f) (log f) (src f) g) -> run (set_csr_graph g) f Q I.
Proof. trivial. Qed.

(** Selecting the edges always comes back, and touches neither [src] nor
    the graph. *)
Lemma select_edges_spec (count : nat) :
  forall (i nodes edges : Z) (undirected : bool) (coo : list CooEdgeTuple) (f : Frame W),
    returns (select_edges libc count i nodes edges undirected coo) f
      (fun _ f' => src f' = src f /\ csr_graph f' = csr_graph f).
Proof.
  induction count as [|count IH]; intros i nodes edges undirected coo f.
  - split; reflexivity.
  - cbn [select_edges]. unfold returns.
    apply run_bind. apply run_lib_call. intros r w1.
    apply run_bind. apply run_lib_call. intros c w2.
    apply (IH (i + 1) nodes edges undirected _
             (mkFrame w2 ((log f ++ [Lib (RandomNode nodes) r]) ++ [Lib (RandomNode nodes) c])
                (src f) (csr_graph f))).
Qed.

Ltac frame_step :=
  lazymatch goal with
  | |- run (bind _ _) _ _ _ => apply run_bind
  | |- run (ret _) _ _ _ => apply run_ret
  | |- run (lib_call _ _) _ _ _ =>
      let r := fresh "r" in
      let w := fresh "w" in
      apply run_lib_call; intros r w
  | |- run get_frame _ _ _ => apply run_get_frame
  | |- run (set_src _) _ _ _ => apply run_set_src
  | |- run (set_csr_graph _) _ _ _ => apply run_set_csr_graph
  end.

Ltac frame_run := repeat (frame_step; cbv beta; cbn [lib log src csr_graph]).

(** What [BuildRandomGraph] returns and leaves behind, by cases on its
    arguments; it runs into undefined behaviour only when doubling the edge
    count overflows. *)
Lemma BuildRandomGraph_spec (junk : CooEdgeTuple) (nodes edges : Z) (undirected : bool)
    (f : Frame W) :
  run (BuildRandomGraph libc junk nodes edges undirected) f
    (fun r f' =>
       if (nodes <? 0) || (edges <? 0)
       then r = -1 /\ src f' = src f /\ csr_graph f' = csr_graph f
       else if src f =? -1
       then r = 0 /\ RandomGraph.nodes (csr_graph f') = nodes
       else if (src f <? 0) || (nodes <? src f)
       then r = -1 /\ src f' = src f
            /\ exists built, RandomGraph.nodes built = nodes /\ csr_graph f' = Free built
       else r = 0 /\ src f' = src f /\ RandomGraph.nodes (csr_graph f') = nodes)
    (fun _ => (nodes <? 0) || (edges <? 0) = false
              /\ undirected = true /\ in_signed 32 (edges * 2) = false).
Proof.
  unfold BuildRandomGraph.
  destruct ((nodes <? 0) || (edges <? 0)) eqn:Sizes.
  - frame_run. auto.
  - frame_run.
    destruct (undirected && negb (in_signed 32 (edges * 2))) eqn:Overflow.
    + apply run_undefined. apply andb_prop in Overflow. destruct Overflow as [U O].
      apply negb_true_iff in O. auto.
    + apply run_bind.
      eapply returns_run; [apply select_edges_spec|].
      intros coo f1 (S1 & G1). cbv beta. cbn [src csr_graph] in S1, G1.
      frame_run. rewrite S1.
      destruct (src f =? -1) eqn:Unspecified.
      * frame_run. auto.
      * cbn [RandomGraph.nodes FromCoo].
        destruct ((src f <? 0) || (nodes <? src f)) eqn:Range.
        -- frame_run. split; [reflexivity|]. split; [reflexivity|].
           eexists. split; [|reflexivity]. reflexivity.
        -- frame_run. auto.
Qed.

(** C10: [BuildRandomGraph] rejects a negative node or edge count with -1
    before it builds anything.  Otherwise (and unless doubling the edge
    count for an undirected graph overflows [int]) it builds the graph and
    returns: with a source given explicitly (not -1), -1 after freeing the
    graph when the source is negative or greater than [nodes], and 0 when it
    lies between 0 and [nodes], the value [nodes] itself included; with
    source -1, 0.  Whenever it returns, the value is 0 or -1. *)
Theorem BuildRandomGraph_returns_zero_or_minus_one
    (junk : CooEdgeTuple) (nodes edges : Z) (undirected : bool) (f : Frame W) :
  let outcome := BuildRandomGraph libc junk nodes edges undirected f in
  (nodes < 0 \/ edges < 0 ->
   exists f', outcome = Returns (-1) f'
              /\ src f' = src f /\ csr_graph f' = csr_graph f)
  /\ (0 <= nodes -> 0 <= edges ->
      (undirected = true -> edges * 2 <= signed_max 32) ->
      exists r f',
        outcome = Returns r f'
        /\ (src f <> -1 -> src f < 0 \/ nodes < src f ->
            r = -1 /\ src f' = src f
            /\ exists built, RandomGraph.nodes built = nodes /\ csr_graph f' = Free built)
        /\ (src f <> -1 -> 0 <= src f <= nodes ->
            r = 0 /\ src f' = src f /\ RandomGraph.nodes (csr_graph f') = nodes)
        /\ (src f = nodes -> r = 0)
        /\ (src f = -1 -> r = 0))
  /\ (forall r f', outcome = Returns r f' -> r = 0 \/ r = -1).
Proof.
  intros outcome.
  pose proof (BuildRandomGraph_spec junk nodes edges undirected f) as S.
  unfold run in S. fold outcome in S.
  split; [|split].
  - intros Neg.
    assert (Sizes : (nodes <? 0) || (edges <? 0) = true).
    { apply orb_true_iff. destruct Neg; [left | right]; apply Z.ltb_lt; assumption. }
    rewrite Sizes in S.
    destruct outcome as [r f' | f' | f']; try (destruct S as (X & _); discriminate X).
    destruct S as (R & Sf & Gf). subst r. exists f'. auto.
  - intros Hn He Hu.
    assert (Sizes : (nodes <? 0) || (edges <? 0) = false).
    { apply orb_false_iff. split; apply Z.ltb_ge; assumption. }
    rewrite Sizes in S.
    destruct outcome as [r f' | f' | f'].
    + exists r, f'. split; [reflexivity|].
      destruct (src f =? -1) eqn:Unspecified.
      * apply Z.eqb_eq in Unspecified. destruct S as (R & _).
        repeat split; intros; try congruence; try lia.
      * apply Z.eqb_neq in Unspecified.
        destruct ((src f <? 0) || (nodes <? src f)) eqn:Range.
        -- apply orb_true_iff in Range.
           assert (Out : src f < 0 \/ nodes < src f)
             by (destruct Range as [R | R]; apply Z.ltb_lt in R; auto).
           destruct S as (R & Sf & B).
           repeat split; intros; try assumption; try lia; try congruence.
        -- apply orb_false_iff in Range. destruct Range as [R1 R2].
           apply Z.ltb_ge in R1. apply Z.ltb_ge in R2.
           destruct S as (R & Sf & Nf).
           repeat split; intros; try assumption; try lia; try congruence.
    + exfalso. destruct S as (_ & U & O). specialize (Hu U).
      unfold in_signed, signed_min, signed_max in *.
      apply andb_false_iff in O. destruct O as [O | O].
      * apply Z.leb_gt in O. cbn in O. lia.
      * apply Z.leb_gt in O. lia.
    + exfalso. destruct S as (_ & U & O). specialize (Hu U).
      unfold in_signed, signed_min, signed_max in *.
      apply andb_false_iff in O. destruct O as [O | O].
      * apply Z.leb_gt in O. cbn in O. lia.
      * apply Z.leb_gt in O. lia.
  - intros r f' E. rewrite E in S.
    destruct ((nodes <? 0) || (edges <? 0)); [destruct S as (R & _); auto|].
    destruct (src f =? -1); [destruct S as (R & _); auto|].
    destruct ((src f <? 0) || (nodes <? src f)); destruct S as (R & _); auto.
Qed.

End BuildRandomGraphFacts.

(** C10 on a graph of 3 nodes and 4 undirected edges: the source 3, one past
    the last vertex, is accepted; the source 4 is rejected and the graph
    freed; a negative edge count is rejected at once. *)
Lemma BuildRandomGraph_witness :
  let accepted := RandomGraph.mkFrame 0 [] 3 RandomGraph.empty_graph in
  let rejected := RandomGraph.mkFrame 0 [] 4 RandomGraph.empty_graph in
  (exists f', RandomGraph.BuildRandomGraph RandomGraph.counting RandomGraph.junk 3 4 true accepted
              = Returns 0 f'
              /\ RandomGraph.src f' = 3
              /\ RandomGraph.nodes (RandomGraph.csr_graph f') = 3)
  /\ (exists f', RandomGraph.BuildRandomGraph RandomGraph.counting RandomGraph.junk 3 4 true rejected
                 = Returns (-1) f'
                 /\ RandomGraph.row_offsets (RandomGraph.csr_graph f') = None)
  /\ (exists f', RandomGraph.BuildRandomGraph RandomGraph.counting RandomGraph.junk 3 (-4) true accepted
                 = Returns (-1) f'
                 /\ RandomGraph.csr_graph f' = RandomGraph.empty_graph).
Proof.
  intros accepted rejected.
  assert (Hn : 0 <= 3) by lia.
  assert (He : 0 <= 4) by lia.
  assert (Hu : true = true -> 4 * 2 <= signed_max 32) by (intros _; vm_compute; discriminate).
  split; [|split].
  - destruct (BuildRandomGraph_returns_zero_or_minus_one RandomGraph.counting
                RandomGraph.junk 3 4 true accepted) as (_ & Built & _).
    destruct (Built Hn He Hu) as (r & f' & E & _ & In & _).
    assert (Given : RandomGraph.src accepted <> -1) by (cbn; lia).
    assert (Range : 0 <= RandomGraph.src accepted <= 3) by (cbn; lia).
    destruct (In Given Range) as (R & Sf & Nf). subst r.
    exists f'. split; [exact E|]. split; [exact Sf | exact Nf].
  - destruct (BuildRandomGraph_returns_zero_or_minus_one RandomGraph.counting
                RandomGraph.junk 3 4 true rejected) as (_ & Built & _).
    destruct (Built Hn He Hu) as (r & f' & E & Out & _).
    assert (Given : RandomGraph.src rejected <> -1) by (cbn; lia).
    assert (Range : RandomGraph.src rejected < 0 \/ 3 < RandomGraph.src rejected)
      by (right; cbn; lia).
    destruct (Out Given Range) as (R & _ & built & _ & G). subst r.
    exists f'. split; [exact E|]. rewrite G. reflexivity.
  - destruct (BuildRandomGraph_returns_zero_or_minus_one RandomGraph.counting
                RandomGraph.junk 3 (-4) true accepted) as (Sizes & _).
    assert (Neg : 3 < 0 \/ -4 < 0) by (right; lia).
    destruct (Sizes Neg) as (f' & E & _ & G).
    exists f'. split; [exact E | exact G].
Defined.


(** * Further properties *)

(** Close a goal that symbolic execution has brought down to facts about a
    concrete trace and a concrete object. *)
Ltac settle :=
  lazymatch goal with
  | |- exists _, _ => eexists; settle
  | |- _ /\ _ => split; settle
  | |- _ \/ _ => first [solve [left; settle] | solve [right; settle]]
  | |- left_on_flag ?l =>
      unfold left_on_flag; eexists; eexists; exists (removelast l);
      split; [reflexivity|];
      match goal with
      | Hn : negb (?x =? 0) = true |- _ =>
          apply negb_true_iff in Hn; apply Z.eqb_neq in Hn; exact Hn
      end
  | |- left_on_queue_length_failure ?l =>
      unfold left_on_queue_length_failure; eexists; eexists; eexists;
      exists (removelast l); split; [reflexivity | assumption]
  | |- _ -> _ =>
      let X := fresh "X" in
      intros X; first [congruence | simpl_host; reflexivity | settle]
  | |- _ =>
      first [reflexivity | assumption | lia | congruence
            | rewrite Z.add_0_r; assumption]
  end.

Section MoreOnLevels.

Context {W : Type} (rt : Runtime W).

Lemma level_facts (expand_policy : ExpandPolicy) (contract_policy : ContractPolicy)
    (csr_problem : CsrProblem) (src expand_grid_size contract_grid_size : Z)
    (retval : cudaError_t) (queue_index : Z) (h : Host W) :
  run (level rt expand_policy contract_policy csr_problem src
         expand_grid_size contract_grid_size retval queue_index) h
    (fun r h' =>
       exists new, trace h' = trace h ++ new /\ exists it a,
       iteration (this h) = Some it
       /\ base (this h') = base (this h)
       /\ INSTRUMENT (this h') = INSTRUMENT (this h)
       /\ d_done (this h') = d_done (this h)
       /\ (INSTRUMENT (this h) = false -> totals (this h') = totals (this h))
       /\ contract_launches new = [(contract_policy, a)]
       /\ stamp_of (contract_policy, a) = (it, queue_index)
       /\ k_d_done a = d_done (this h)
       /\ match r with
          | Next (retval', queue_index') =>
              retval' = cudaSuccess
              /\ queue_index'
                 = converted (VertexId_bits csr_problem)
                     (converted (VertexId_bits csr_problem) (queue_index + 1) + 1)
              /\ iteration (this h') = Some (it + 1)
              /\ phase_after true new = Some true
              /\ expansions new = 1
          | Break retval' =>
              (phase_after true new = Some true \/ phase_after true new = Some false)
              /\ (failed retval' = true
                  \/ (retval' = cudaSuccess
                      /\ iteration (this h') = Some (it + expansions new)
                      /\ (left_on_flag new
                          \/ (INSTRUMENT (this h) = true
                              /\ left_on_queue_length_failure new))))
          end)
    (fun h' =>
       exists new, trace h' = trace h ++ new
       /\ (phase_after true new = Some true \/ phase_after true new = Some false)
       /\ (contract_launches new = []
           \/ exists it a, iteration (this h) = Some it
                           /\ contract_launches new = [(contract_policy, a)]
                           /\ stamp_of (contract_policy, a) = (it, queue_index)
                           /\ k_d_done a = d_done (this h))).
Proof.
  run_all rt.
  all: new_events.
  all: all_passed.
  all: unfold expansions, totals, stamp_of;
       cbn [contract_launches phase_after filter is_expand_dispatch List.length
            fst snd k_iteration k_queue_index k_d_done];
       change (Z.of_nat 1) with 1; change (Z.of_nat 0) with 0; rewrite ?Z.add_0_r.
  all: use_width.
  all: settle.
Qed.

Lemma phase_after_app (t1 t2 : list Event) :
  forall b,
    phase_after b (t1 ++ t2)
    = match phase_after b t1 with
      | Some b' => phase_after b' t2
      | None => None
      end.
Proof.
  induction t1 as [|ev t1 IH]; intros b; [reflexivity|].
  destruct ev as [R c r].
  destruct c; cbn [app phase_after]; try apply IH; destruct b; try reflexivity; apply IH.
Qed.

Lemma phase_after_no_dispatch (t : list Event) :
  filter is_dispatch t = [] -> forall b, phase_after b t = Some b.
Proof.
  induction t as [|ev t IH]; intros F b; [reflexivity|].
  destruct ev as [R c r].
  destruct c; cbn [filter is_dispatch phase_after] in *; try discriminate F; apply IH; exact F.
Qed.

Lemma no_dispatch_no_expansion (t : list Event) :
  filter is_dispatch t = [] -> expansions t = 0.
Proof.
  unfold expansions.
  induction t as [|ev t IH]; intros F; [reflexivity|].
  destruct ev as [R c r].
  destruct c; cbn [filter is_dispatch is_expand_dispatch] in *; try discriminate F;
    apply IH; exact F.
Qed.

Lemma expansions_app (t1 t2 : list Event) :
  expansions (t1 ++ t2) = expansions t1 + expansions t2.
Proof.
  unfold expansions. rewrite filter_app, length_app, Nat2Z.inj_add. reflexivity.
Qed.

Lemma left_on_flag_app (t1 t2 : list Event) :
  left_on_flag t2 -> left_on_flag (t1 ++ t2).
Proof.
  intros (stored & v & pre & E & N). exists stored, v, (t1 ++ pre).
  split; [rewrite E, app_assoc; reflexivity | exact N].
Qed.

Lemma left_on_queue_length_failure_app (t1 t2 : list Event) :
  left_on_queue_length_failure t2 -> left_on_queue_length_failure (t1 ++ t2).
Proof.
  intros (i & s & q & pre & E & F). exists i, s, q, (t1 ++ pre).
  split; [rewrite E, app_assoc; reflexivity | exact F].
Qed.

(** A stretch of trace without dispatches in front changes nothing. *)
Lemma loop_trace_prefix (bits queue_index : Z) (h0 h : Host W) (pre new : list Event) :
  filter is_dispatch pre = [] ->
  contract_launches pre = [] ->
  d_done (this h) = d_done (this h0) ->
  (forall it, iteration (this h) = Some it -> iteration (this h0) = Some it) ->
  loop_trace bits queue_index h new ->
  loop_trace bits queue_index h0 (pre ++ new).
Proof.
  intros Fd Fc Hd Hit (P & D & S).
  unfold loop_trace.
  rewrite phase_after_app, (phase_after_no_dispatch pre Fd), contract_launches_app, Fc.
  cbn [app]. rewrite <- Hd.
  split; [exact P|]. split; [exact D|].
  destruct S as [S | (it & n & I & S)]; [left; exact S|].
  right. exists it, n. auto.
Qed.

Lemma loop_trace_nothing (bits queue_index : Z) (h : Host W) (pre : list Event) :
  filter is_dispatch pre = [] ->
  contract_launches pre = [] ->
  loop_trace bits queue_index h pre.
Proof.
  intros Fd Fc. unfold loop_trace.
  rewrite (phase_after_no_dispatch pre Fd), Fc.
  split; [left; reflexivity|]. split; [constructor | left; reflexivity].
Qed.

(** One more level in front of a run of the loop. *)
Lemma loop_trace_level (contract_policy : ContractPolicy) (bits queue_index it : Z)
    (h h1 : Host W) (new1 new2 : list Event) (a : ContractArgs) :
  iteration (this h) = Some it ->
  iteration (this h1) = Some (it + 1) ->
  d_done (this h1) = d_done (this h) ->
  contract_launches new1 = [(contract_policy, a)] ->
  stamp_of (contract_policy, a) = (it, queue_index) ->
  k_d_done a = d_done (this h) ->
  phase_after true new1 = Some true ->
  loop_trace bits (converted bits (converted bits (queue_index + 1) + 1)) h1 new2 ->
  loop_trace bits queue_index h (new1 ++ new2).
Proof.
  intros I I1 Hd CL St Kd P1 (P & D & Ss).
  unfold loop_trace.
  rewrite phase_after_app, P1, contract_launches_app, CL. cbn [app].
  split; [exact P|]. split.
  - constructor; [exact Kd | rewrite <- Hd; exact D].
  - right. exists it. destruct Ss as [E | (it' & n & I' & E)].
    + exists 1%nat. rewrite E. cbn [map level_stamps]. rewrite St. auto.
    + exists (S n). cbn [map level_stamps]. rewrite St, E.
      assert (it' = it + 1) by congruence. subst it'. auto.
Qed.

Lemma loop_trace_one (contract_policy : ContractPolicy) (bits queue_index it : Z)
    (h : Host W) (new : list Event) (a : ContractArgs) :
  iteration (this h) = Some it ->
  contract_launches new = [(contract_policy, a)] ->
  stamp_of (contract_policy, a) = (it, queue_index) ->
  k_d_done a = d_done (this h) ->
  (phase_after true new = Some true \/ phase_after true new = Some false) ->
  loop_trace bits queue_index h new.
Proof.
  intros I CL St Kd P. unfold loop_trace. rewrite CL.
  split; [exact P|]. split.
  - constructor; [exact Kd | constructor].
  - right. exists it, 1%nat. cbn [map level_stamps]. rewrite St. auto.
Qed.

(** The loop, however it ends and whatever the runtime answers. *)
Lemma while_true_facts (expand_policy : ExpandPolicy) (contract_policy : ContractPolicy)
    (csr_problem : CsrProblem) (src expand_grid_size contract_grid_size : Z) (fuel : nat) :
  forall (retval : cudaError_t) (queue_index : Z) (h : Host W),
    run (while_true fuel
           (level rt expand_policy contract_policy csr_problem src
              expand_grid_size contract_grid_size) retval queue_index) h
      (fun r h' =>
         exists new, trace h' = trace h ++ new
         /\ loop_trace (VertexId_bits csr_problem) queue_index h new
         /\ base (this h') = base (this h)
         /\ INSTRUMENT (this h') = INSTRUMENT (this h)
         /\ (failed r = false -> loop_success h h' new))
      (fun h' =>
         exists new, trace h' = trace h ++ new
                     /\ loop_trace (VertexId_bits csr_problem) queue_index h new).
Proof.
  induction fuel as [|fuel IH]; intros retval queue_index h.
  - exists []. split; [symmetry; apply app_nil_r|].
    apply loop_trace_nothing; reflexivity.
  - cbn [while_true]. apply run_bind.
    eapply run_conseq; [apply level_facts | |].
    + intros r h1 (new1 & T1 & it & a & I & Hb & Hi & Hd & Ht & CL & St & Kd & M).
      destruct r as [[retval' queue_index'] | retval'].
      * destruct M as (_ & Q & I1 & P1 & X1). subst queue_index'.
        eapply run_conseq; [apply IH | |].
        -- intros r h2 (new2 & T2 & L2 & Hb2 & Hi2 & S2).
           exists (new1 ++ new2).
           split; [rewrite T2, T1, app_assoc; reflexivity|].
           split; [eapply loop_trace_level; eassumption|].
           split; [congruence|]. split; [congruence|].
           intros F. destruct (S2 F) as ((it' & I' & I2) & Exit & Tot).
           assert (it' = it + 1) by congruence. subst it'.
           split; [|split].
           ++ exists it. split; [exact I|]. rewrite expansions_app, X1, I2.
              f_equal. lia.
           ++ rewrite <- Hi. destruct Exit as [Fl | (Ins & Ql)].
              ** left. apply left_on_flag_app. exact Fl.
              ** right. split; [exact Ins|].
                 apply left_on_queue_length_failure_app. exact Ql.
           ++ intros Ins. rewrite Tot by congruence. apply Ht. exact Ins.
        -- intros h2 (new2 & T2 & L2).
           exists (new1 ++ new2).
           split; [rewrite T2, T1, app_assoc; reflexivity|].
           eapply loop_trace_level; eassumption.
      * apply run_ret. destruct M as (P & Exit).
        exists new1. split; [exact T1|].
        split; [eapply loop_trace_one; eassumption|].
        split; [exact Hb|]. split; [exact Hi|].
        intros F. destruct Exit as [Fail | (_ & I1 & Exit)]; [congruence|].
        split; [exists it; auto|]. split; [exact Exit | exact Ht].
    + intros h1 (new1 & T1 & P & [CL | (it & a & I & CL & St & Kd)]).
      * exists new1. split; [exact T1|]. unfold loop_trace. rewrite CL.
        split; [exact P|]. split; [constructor | left; reflexivity].
      * exists new1. split; [exact T1|]. eapply loop_trace_one; eassumption.
Qed.

End MoreOnLevels.

(** ** [Setup] and the handles of the host words *)

Section SetupHandles.

Context {W : Type} (rt : Runtime W).

Lemma Setup_handles (csr_problem : CsrProblem) (eg cg : Z) (h : Host W) :
  returns (Setup rt csr_problem eg cg) h (fun r h' =>
    exists new, trace h' = trace h ++ new
    /\ (is_some (done (this h)) = true ->
        d_done (this h') = d_done (this h)
        /\ throttle_event (this h') = throttle_event (this h)
        /\ ~ In r_done (allocations new)
        /\ ~ In r_d_done (allocations new)
        /\ ~ In r_throttle_event (allocations new))
    /\ (is_some (iteration (this h)) = true ->
        d_iteration (this h') = d_iteration (this h)
        /\ ~ In r_iteration (allocations new)
        /\ ~ In r_d_iteration (allocations new))
    /\ is_some (done (this h'))
       = is_some (done (this h)) || existsb (host_alloc_succeeded cell_done) new
    /\ is_some (iteration (this h'))
       = is_some (iteration (this h)) || existsb (host_alloc_succeeded cell_iteration) new
    /\ throttle_event (this h')
       = throttle_event (this h) || existsb event_creation_succeeded new
    /\ (existsb event_creation_succeeded new = true ->
        existsb (host_alloc_succeeded cell_done) new = true)
    /\ queued new = 0).
Proof.
  unfold Setup; run_all rt.
  all: new_events.
  all: use_members.
  all: cbn [allocations flat_map allocation_of app existsb host_alloc_succeeded
            event_creation_succeeded fst snd is_some orb
            queued map expansion_queue_length fold_right Z.add];
       repeat match goal with B : failed _ = _ |- _ => rewrite B end;
       cbn [negb orb]; rewrite ?orb_false_r, ?orb_true_r.
  all: repeat split; intros; try reflexivity; try discriminate; try assumption;
       try (cbn [In]; intuition discriminate).
Qed.

End SetupHandles.

(** ** The iterative search as a whole *)

Section MoreOnIterativeSearch.

Context {W : Type} (rt : Runtime W) (MaxGridSize : EnactorBase -> Z -> Z -> Z).

Lemma returns_and {S A} (m : Prog S A) (s : S) (Q1 Q2 : A -> S -> Prop) :
  returns m s Q1 -> returns m s Q2 -> returns m s (fun a s' => Q1 a s' /\ Q2 a s').
Proof. unfold returns, run. destruct (m s); tauto. Qed.

Lemma no_dispatch_no_contraction (t : list Event) :
  filter is_dispatch t = [] -> contract_launches t = [].
Proof.
  induction t as [|ev t IH]; intros F; [reflexivity|].
  destruct ev as [R c r].
  destruct c; cbn [filter is_dispatch contract_launches] in *; try discriminate F;
    apply IH; exact F.
Qed.

Lemma search_trace_app (bits : Z) (h : Host W) (pre new : list Event) :
  filter is_dispatch pre = [] ->
  search_trace bits h new -> search_trace bits h (pre ++ new).
Proof.
  intros F (P & St & D & D').
  unfold search_trace.
  rewrite phase_after_app, (phase_after_no_dispatch pre F), contract_launches_app,
    (no_dispatch_no_contraction pre F).
  cbn [app]. auto.
Qed.

Lemma search_trace_nil (bits : Z) (h : Host W) : search_trace bits h [].
Proof.
  unfold search_trace. cbn [phase_after contract_launches map].
  split; [left; reflexivity|]. split; [exists 0%nat; reflexivity|].
  split; intros _; constructor.
Qed.

Lemma search_trace_loop (bits : Z) (h h1 : Host W) (new : list Event) :
  iteration (this h1) = Some 0 ->
  (is_some (done (this h)) = true -> d_done (this h1) = d_done (this h)) ->
  (unallocated (this h) = true -> d_done (this h1) = Some cell_done) ->
  loop_trace bits 0 h1 new -> search_trace bits h new.
Proof.
  intros I Hd Hu (P & D & St).
  split; [exact P|]. split.
  - destruct St as [E | (it & n & I' & E)].
    + exists 0%nat. rewrite E. reflexivity.
    + exists n. rewrite E. congruence.
  - split; intros A; [rewrite <- (Hd A) | rewrite <- (Hu A)]; exact D.
Qed.

Lemma search_success_app (h h' : Host W) (pre new : list Event) :
  filter is_dispatch pre = [] ->
  search_success h h' new -> search_success h h' (pre ++ new).
Proof.
  intros F (I & Exit & Tot).
  unfold search_success.
  rewrite expansions_app, (no_dispatch_no_expansion pre F), Z.add_0_l.
  split; [exact I|]. split; [|exact Tot].
  destruct Exit as [Fl | (Ins & Ql)].
  - left. apply left_on_flag_app. exact Fl.
  - right. split; [exact Ins|]. apply left_on_queue_length_failure_app. exact Ql.
Qed.

Lemma search_success_loop (h h1 h' : Host W) (new : list Event) :
  counters_reset (this h1) ->
  INSTRUMENT (this h1) = INSTRUMENT (this h) ->
  loop_success h1 h' new -> search_success h h' new.
Proof.
  intros (I & Tr & Tl & Tq & _) Hi ((it & I' & I2) & Exit & Tot).
  assert (it = 0) by congruence. subst it.
  rewrite Hi in *.
  split; [rewrite I2; reflexivity|]. split; [exact Exit|].
  intros Ins. rewrite (Tot Ins). unfold totals. congruence.
Qed.

(** Peel the events in front of the loop's own off a trace. *)
Ltac peel :=
  repeat lazymatch goal with
         | |- search_trace _ _ (_ :: _) =>
             apply (search_trace_app _ _ [_]); [reflexivity|]
         | |- search_trace _ _ (_ ++ _) =>
             apply search_trace_app; [assumption|]
         | |- search_success _ _ (_ :: _) =>
             apply (search_success_app _ _ [_]); [reflexivity|]
         | |- search_success _ _ (_ ++ _) =>
             apply search_success_app; [assumption|]
         end.

Lemma EnactIterativeSearch_facts (fuel : nat) (csr_problem : CsrProblem)
    (src max_grid_size : Z) (h : Host W) :
  run (EnactIterativeSearch rt MaxGridSize fuel csr_problem src max_grid_size) h
    (fun r h' =>
       exists new, trace h' = trace h ++ new
       /\ search_trace (VertexId_bits csr_problem) h new
       /\ (r = cudaSuccess -> search_success h h' new))
    (fun h' =>
       exists new, trace h' = trace h ++ new
                   /\ search_trace (VertexId_bits csr_problem) h new).
Proof.
  unfold EnactIterativeSearch. run_all rt.
  - unfold EnactIterativeSearch_with. run_all rt.
    all: eapply returns_run;
      [apply returns_and; [apply Setup_spec | apply Setup_handles]|];
      intros r1 h1 ((new1 & T1 & Hb & Hi & Hd & Hc & Hs & _ & Hu & _)
                    & (new1' & T1' & Hdd & _));
      cbv beta; cbn [world trace this] in *;
      rewrite T1 in T1'; apply app_inv_head in T1'; subst new1'.
    all: repeat (run_step rt; cbv beta iota zeta; simpl_host; rewrite ?Hb, ?Hi).
    all: repeat match goal with u : unit |- _ => destruct u end.
    all: all_passed.
    all: try (eapply run_conseq;
              [ apply while_true_facts
              | intros a h2 (new2 & T2 & L & _ & _ & Ls);
                cbn [world trace this] in *;
                destruct (failed a) eqn:Fa; apply run_ret;
                cbv beta iota; apply run_ret
              | intros h2 (new2 & T2 & L); cbn [world trace this] in * ]).
    all: rewrite ?T2, ?T1; cbn [trace]; rewrite ?T1; new_events.
    all: try match goal with
             | Hs : cudaSuccess = cudaSuccess -> _ |- _ =>
                 destruct (Hs eq_refl) as (_ & CR & _)
             end.
    all: try (split; [|intros Ok; subst; try discriminate;
                       match goal with
                       | Ls : _ = false -> loop_success _ _ _ |- _ =>
                           specialize (Ls eq_refl)
                       end]).
    all: peel.
    all: try apply search_trace_nil.
    all: try (rewrite <- (app_nil_r new1);
              apply search_trace_app; [assumption | apply search_trace_nil]).
    all: try (eapply search_trace_loop; [ | | | eassumption]; simpl_host;
              [ apply CR
              | intros A; apply (Hdd A)
              | intros A; apply (Hu A eq_refl) ]).
    all: try (eapply search_success_loop; [ | | eassumption]; simpl_host;
              [ exact CR | exact Hi ]).
  - new_events. split; [peel; apply search_trace_nil | discriminate].
Qed.

Lemma level_stamps_closed (bits : Z) (n : nat) :
  forall it,
    level_stamps bits n it (converted bits (2 * it))
    = map (fun i => (i, converted bits (2 * i))) (consecutive n it).
Proof.
  induction n as [|n IH]; intros it; cbn [level_stamps consecutive map]; [reflexivity|].
  f_equal. rewrite converted_twice.
  replace (2 * it + 2) with (2 * (it + 1)) by lia. apply IH.
Qed.

Lemma phase_after_counts (t : list Event) :
  forall b b',
    phase_after b t = Some b' ->
    Z.of_nat (List.length (contract_launches t)) + (if b then 0 else 1)
    = expansions t + (if b' then 0 else 1).
Proof.
  unfold expansions.
  induction t as [|ev t IH]; intros b b' P.
  - cbn in *. injection P as <-. reflexivity.
  - destruct ev as [R c r].
    destruct c; cbn [phase_after contract_launches filter is_expand_dispatch] in *;
      try (apply IH; exact P); try discriminate P;
      destruct b; try discriminate P; apply IH in P;
      cbn [List.length] in *; lia.
Qed.

(** X1: however an iterative search ends, and however many levels it ran,
    its contraction kernels were launched with the iteration numbers 0, 1,
    2, ... in this order, and each with the queue index that is twice its
    iteration number stored in a [VertexId]: twice the iteration number for
    a [VertexId] at least as wide as [int], and that number wrapped for a
    narrower one. *)
Theorem contractions_are_stamped_with_successive_levels
    (fuel : nat) (csr_problem : CsrProblem) (src max_grid_size : Z) (h : Host W) :
  exists new,
    trace (final_state
             (EnactIterativeSearch rt MaxGridSize fuel csr_problem src max_grid_size h))
      = trace h ++ new
    /\ (exists n,
          map stamp_of (contract_launches new)
          = map (fun it => (it, converted (VertexId_bits csr_problem) (2 * it)))
              (consecutive n 0))
    /\ Forall (fun launch =>
                 k_queue_index (snd launch)
                 = converted (VertexId_bits csr_problem) (2 * k_iteration (snd launch)))
         (contract_launches new)
    /\ (narrow (VertexId_bits csr_problem) = false ->
        Forall (fun launch => k_queue_index (snd launch) = 2 * k_iteration (snd launch))
          (contract_launches new)).
Proof.
  assert (F : run (EnactIterativeSearch rt MaxGridSize fuel csr_problem src max_grid_size) h
                (fun _ h' => exists new, trace h' = trace h ++ new
                               /\ search_trace (VertexId_bits csr_problem) h new)
                (fun h' => exists new, trace h' = trace h ++ new
                             /\ search_trace (VertexId_bits csr_problem) h new)).
  { eapply run_conseq; [apply EnactIterativeSearch_facts | | trivial].
    intros r h' (new & T & S & _). exists new. auto. }
  destruct (run_final _ _ _ F) as (new & T & _ & (n & St) & _).
  assert (St' : map stamp_of (contract_launches new)
                = map (fun it => (it, converted (VertexId_bits csr_problem) (2 * it)))
                    (consecutive n 0)).
  { rewrite St.
    pose proof (level_stamps_closed (VertexId_bits csr_problem) n 0) as C.
    change (2 * 0) with 0 in C. rewrite converted_0 in C. exact C. }
  assert (Q : Forall (fun launch =>
                        k_queue_index (snd launch)
                        = converted (VertexId_bits csr_problem)
                            (2 * k_iteration (snd launch)))
                (contract_launches new)).
  { apply (Forall_map stamp_of
             (fun s => snd s = converted (VertexId_bits csr_problem) (2 * fst s))).
    rewrite St'. apply Forall_map. apply Forall_forall. intros it _. reflexivity. }
  exists new. split; [exact T|]. split; [exists n; exact St'|]. split; [exact Q|].
  intros N. eapply Forall_impl; [|exact Q].
  intros launch E. cbv beta in E. unfold converted in E. rewrite N in E. exact E.
Qed.

(** X2: however an iterative search ends, its dispatches alternate between
    the contraction kernel and the expansion kernel, starting with a
    contraction; the fused kernel is never dispatched, and the number of
    contractions is the number of expansions or one more. *)
Theorem contractions_and_expansions_take_turns
    (fuel : nat) (csr_problem : CsrProblem) (src max_grid_size : Z) (h : Host W) :
  exists new,
    trace (final_state
             (EnactIterativeSearch rt MaxGridSize fuel csr_problem src max_grid_size h))
      = trace h ++ new
    /\ (phase_after true new = Some true \/ phase_after true new = Some false)
    /\ expansions new <= Z.of_nat (List.length (contract_launches new)) <= expansions new + 1.
Proof.
  assert (F : run (EnactIterativeSearch rt MaxGridSize fuel csr_problem src max_grid_size) h
                (fun _ h' => exists new, trace h' = trace h ++ new
                               /\ search_trace (VertexId_bits csr_problem) h new)
                (fun h' => exists new, trace h' = trace h ++ new
                             /\ search_trace (VertexId_bits csr_problem) h new)).
  { eapply run_conseq; [apply EnactIterativeSearch_facts | | trivial].
    intros r h' (new & T & S & _). exists new. auto. }
  destruct (run_final _ _ _ F) as (new & T & P & _).
  exists new. split; [exact T|]. split; [exact P|].
  destruct P as [P | P]; apply phase_after_counts in P; lia.
Qed.

(** X3: the contraction kernels of an iterative search are handed the device
    alias of the completion flag that the enactor holds.  On an enactor
    whose [done] was allocated before the call this is the alias it came
    with, whatever that is; on an enactor with nothing allocated it is the
    alias that [Setup] has just mapped. *)
Theorem contractions_carry_the_done_alias_of_the_enactor
    (fuel : nat) (csr_problem : CsrProblem) (src max_grid_size : Z) (h : Host W) :
  exists new,
    trace (final_state
             (EnactIterativeSearch rt MaxGridSize fuel csr_problem src max_grid_size h))
      = trace h ++ new
    /\ (is_some (done (this h)) = true ->
        Forall (fun launch => k_d_done (snd launch) = d_done (this h))
          (contract_launches new))
    /\ (unallocated (this h) = true ->
        Forall (fun launch => k_d_done (snd launch) = Some cell_done)
          (contract_launches new)).
Proof.
  assert (F : run (EnactIterativeSearch rt MaxGridSize fuel csr_problem src max_grid_size) h
                (fun _ h' => exists new, trace h' = trace h ++ new
                               /\ search_trace (VertexId_bits csr_problem) h new)
                (fun h' => exists new, trace h' = trace h ++ new
                             /\ search_trace (VertexId_bits csr_problem) h new)).
  { eapply run_conseq; [apply EnactIterativeSearch_facts | | trivial].
    intros r h' (new & T & S & _). exists new. auto. }
  destruct (run_final _ _ _ F) as (new & T & _ & _ & D & D').
  exists new. auto.
Qed.

(** X4: an iterative search that returns [cudaSuccess] left its loop either
    on reading the completion flag set, which is then the last thing it did,
    or, when instrumented, on a [GetQueueLength] that failed; without
    instrumentation only the flag ends a search that succeeds. *)
Theorem successful_search_ended_on_the_flag_or_a_failed_queue_length
    (fuel : nat) (csr_problem : CsrProblem) (src max_grid_size : Z) (h h' : Host W) :
  EnactIterativeSearch rt MaxGridSize fuel csr_problem src max_grid_size h
    = Returns cudaSuccess h' ->
  exists new,
    trace h' = trace h ++ new
    /\ (left_on_flag new
        \/ (INSTRUMENT (this h) = true /\ left_on_queue_length_failure new))
    /\ (INSTRUMENT (this h) = false -> left_on_flag new).
Proof.
  intros E.
  destruct (run_elim _ _ _ _ _ _ (EnactIterativeSearch_facts fuel csr_problem src
                                    max_grid_size h) E)
    as (new & T & _ & Ok).
  destruct (Ok eq_refl) as (_ & Exit & _).
  exists new. split; [exact T|]. split; [exact Exit|].
  intros Off. destruct Exit as [Fl | (On & _)]; [exact Fl | congruence].
Qed.

(** X5: after an iterative search that returned [cudaSuccess], the iteration
    counter holds the number of expansion kernels the search dispatched, and
    [GetStatistics] returns, with that number less one, converted to
    [VertexId], as the search depth. *)
Theorem search_depth_counts_the_expansions
    (fuel : nat) (csr_problem : CsrProblem) (src max_grid_size VertexId_bits : Z)
    (h h' : Host W) :
  EnactIterativeSearch rt MaxGridSize fuel csr_problem src max_grid_size h
    = Returns cudaSuccess h' ->
  exists new total_queued_out avg_duty,
    trace h' = trace h ++ new
    /\ iteration (this h') = Some (expansions new)
    /\ GetStatistics rt VertexId_bits h'
       = Returns (total_queued_out, to_signed VertexId_bits (expansions new - 1), avg_duty)
           (synchronized rt h').
Proof.
  intros E.
  destruct (run_elim _ _ _ _ _ _ (EnactIterativeSearch_facts fuel csr_problem src
                                    max_grid_size h) E)
    as (new & T & _ & Ok).
  destruct (Ok eq_refl) as (I & _).
  exists new. rewrite GetStatistics_eq, I.
  assert (N : (expansions new - 1 <? signed_min 64) = false).
  { apply Z.ltb_ge. unfold expansions.
    assert (signed_min 64 < 0) by (vm_compute; reflexivity). lia. }
  rewrite N. eexists. eexists.
  split; [exact T|]. split; reflexivity.
Qed.

(** X6: an iterative search without instrumentation that returned
    [cudaSuccess] leaves the three totals at 0, and [GetStatistics] then
    reports 0 elements queued and an average duty of 0.0. *)
Theorem uninstrumented_search_reports_no_work
    (fuel : nat) (csr_problem : CsrProblem) (src max_grid_size VertexId_bits : Z)
    (h h' : Host W) :
  INSTRUMENT (this h) = false ->
  EnactIterativeSearch rt MaxGridSize fuel csr_problem src max_grid_size h
    = Returns cudaSuccess h' ->
  totals (this h') = (0, 0, 0)
  /\ exists search_depth,
       GetStatistics rt VertexId_bits h'
       = Returns (0, search_depth, double_zero) (synchronized rt h').
Proof.
  intros Off E.
  destruct (run_elim _ _ _ _ _ _ (EnactIterativeSearch_facts fuel csr_problem src
                                    max_grid_size h) E)
    as (new & T & _ & Ok).
  destruct (Ok eq_refl) as (I & _ & Tot).
  specialize (Tot Off). split; [exact Tot|].
  unfold totals in Tot. injection Tot as Tr Tl Tq.
  rewrite GetStatistics_eq, I, Tr, Tl, Tq.
  assert (N : (expansions new - 1 <? signed_min 64) = false).
  { apply Z.ltb_ge. unfold expansions.
    assert (signed_min 64 < 0) by (vm_compute; reflexivity). lia. }
  rewrite N. eexists. reflexivity.
Qed.

End MoreOnIterativeSearch.

(** ** What an instrumented search counts *)

Section Queued.

Context {W : Type} (rt : Runtime W) (MaxGridSize : EnactorBase -> Z -> Z -> Z).

Lemma queued_app (t1 t2 : list Event) : queued (t1 ++ t2) = queued t1 + queued t2.
Proof.
  unfold queued. induction t1 as [|ev t1 IH]; cbn [app map fold_right]; [reflexivity|].
  rewrite IH. lia.
Qed.

Lemma u64_add_u64 (a b : Z) : u64 (u64 a + b) = u64 (a + b).
Proof. unfold u64, to_unsigned. apply Zplus_mod_idemp_l. Qed.

Lemma u64_u64 (a : Z) : u64 (u64 a) = u64 a.
Proof. unfold u64, to_unsigned. apply Zmod_mod. Qed.

Lemma level_queued (expand_policy : ExpandPolicy) (contract_policy : ContractPolicy)
    (csr_problem : CsrProblem) (src expand_grid_size contract_grid_size : Z)
    (retval : cudaError_t) (queue_index : Z) (h : Host W) :
  Z.even queue_index = true ->
  run (level rt expand_policy contract_policy csr_problem src
         expand_grid_size contract_grid_size retval queue_index) h
    (fun r h' =>
       exists new, trace h' = trace h ++ new
       /\ u64 (total_queued (this h')) = u64 (total_queued (this h) + queued new)
       /\ (total_queued (this h) = u64 (total_queued (this h)) ->
           total_queued (this h') = u64 (total_queued (this h')))
       /\ match r with
          | Next (_, queue_index') => Z.even queue_index' = true
          | Break _ => True
          end)
    (fun _ => True).
Proof.
  intros Even.
  assert (E1 : Z.even (queue_index + 1) = false)
    by (rewrite Z.even_add, Even; reflexivity).
  assert (E2 : Z.even (queue_index + 1 + 1) = true)
    by (rewrite !Z.even_add, Even; reflexivity).
  assert (E1c : Z.even (converted (VertexId_bits csr_problem) (queue_index + 1)) = false)
    by (rewrite even_converted; exact E1).
  assert (E2c : Z.even (converted (VertexId_bits csr_problem)
                          (converted (VertexId_bits csr_problem) (queue_index + 1) + 1))
                = true)
    by (rewrite even_converted, Z.even_add, E1c; reflexivity).
  run_all rt.
  all: try exact I.
  all: new_events.
  all: cbn [queued map expansion_queue_length fold_right fst snd];
       rewrite ?E1, ?E2, ?E1c, ?E2c;
       repeat match goal with B : failed _ = _ |- _ => rewrite B end;
       cbn [andb negb]; rewrite ?Z.add_0_l, ?Z.add_0_r, ?u64_u64.
  all: repeat split; intros; try reflexivity; try assumption; try lia;
       try (symmetry; apply u64_u64).
Qed.

Lemma while_true_queued (expand_policy : ExpandPolicy) (contract_policy : ContractPolicy)
    (csr_problem : CsrProblem) (src expand_grid_size contract_grid_size : Z) (fuel : nat) :
  forall (retval : cudaError_t) (queue_index : Z) (h : Host W),
    Z.even queue_index = true ->
    run (while_true fuel
           (level rt expand_policy contract_policy csr_problem src
              expand_grid_size contract_grid_size) retval queue_index) h
      (fun _ h' =>
         exists new, trace h' = trace h ++ new
         /\ u64 (total_queued (this h')) = u64 (total_queued (this h) + queued new)
         /\ (total_queued (this h) = u64 (total_queued (this h)) ->
             total_queued (this h') = u64 (total_queued (this h'))))
      (fun _ => True).
Proof.
  induction fuel as [|fuel IH]; intros retval queue_index h Even; [exact I|].
  cbn [while_true]. apply run_bind.
  eapply run_conseq; [apply level_queued; exact Even | | trivial].
  intros r h1 (new1 & T1 & Q1 & R1 & N).
  destruct r as [[retval' queue_index'] | retval'].
  - eapply run_conseq; [apply IH; exact N | | trivial].
    intros r h2 (new2 & T2 & Q2 & R2).
    exists (new1 ++ new2).
    split; [rewrite T2, T1, app_assoc; reflexivity|].
    split; [|auto].
    rewrite Q2, <- u64_add_u64, Q1, u64_add_u64, queued_app. f_equal. lia.
  - apply run_ret. exists new1. auto.
Qed.

Lemma queued_cons (ev : Event) (t : list Event) :
  queued (ev :: t) = expansion_queue_length ev + queued t.
Proof. reflexivity. Qed.

Lemma EnactIterativeSearch_queued (fuel : nat) (csr_problem : CsrProblem)
    (src max_grid_size : Z) (h : Host W) :
  run (EnactIterativeSearch rt MaxGridSize fuel csr_problem src max_grid_size) h
    (fun r h' =>
       r = cudaSuccess ->
       exists new, trace h' = trace h ++ new
                   /\ total_queued (this h') = u64 (queued new))
    (fun _ => True).
Proof.
  unfold EnactIterativeSearch. run_all rt.
  - unfold EnactIterativeSearch_with. run_all rt.
    all: eapply returns_run;
      [apply returns_and; [apply Setup_spec | apply Setup_handles]|];
      intros r1 h1 ((new1 & T1 & Hb & Hi & _ & _ & Hs & _)
                    & (new1' & T1' & _ & _ & _ & _ & _ & _ & Hq));
      cbv beta; cbn [world trace this] in *;
      rewrite T1 in T1'; apply app_inv_head in T1'; subst new1'.
    all: repeat (run_step rt; cbv beta iota zeta; simpl_host; rewrite ?Hb, ?Hi).
    all: repeat match goal with u : unit |- _ => destruct u end.
    all: all_passed.
    all: try (eapply run_conseq;
              [ apply while_true_queued; reflexivity
              | intros a h2 (new2 & T2 & Q2 & R2);
                cbn [world trace this] in *;
                destruct (failed a) eqn:Fa; apply run_ret;
                cbv beta iota; apply run_ret
              | trivial ]).
    all: intros Ok; subst; try discriminate.
    all: destruct (Hs eq_refl) as (_ & (_ & _ & _ & Tq & _) & _).
    all: rewrite Tq in *; cbn [Z.add] in Q2.
    all: rewrite ?T2, ?T1; cbn [trace]; rewrite ?T1; new_events.
    all: rewrite ?queued_cons, ?queued_app, ?Hq; cbn [expansion_queue_length];
         rewrite ?queued_cons, ?queued_app; cbn [expansion_queue_length];
         rewrite ?Z.add_0_l.
    all: rewrite <- Q2; apply R2; reflexivity.
  - discriminate.
Qed.

(** X14: after an iterative search that returned [cudaSuccess], the total
    of queued elements is the sum, wrapped to 64 bits, of the lengths that
    [GetQueueLength] reported with success for the queues the expansions
    filled; the lengths of the queues the contractions filled are read and
    not counted.  [GetStatistics] hands this total back. *)
Theorem total_queued_counts_the_expansion_queues
    (fuel : nat) (csr_problem : CsrProblem) (src max_grid_size VertexId_bits : Z)
    (h h' : Host W) :
  EnactIterativeSearch rt MaxGridSize fuel csr_problem src max_grid_size h
    = Returns cudaSuccess h' ->
  exists new search_depth avg_duty,
    trace h' = trace h ++ new
    /\ total_queued (this h') = u64 (queued new)
    /\ GetStatistics rt VertexId_bits h'
       = Returns (to_signed 64 (u64 (queued new)), search_depth, avg_duty)
           (synchronized rt h').
Proof.
  intros E.
  destruct (run_elim _ _ _ _ _ _ (EnactIterativeSearch_queued fuel csr_problem src
                                    max_grid_size h) E eq_refl)
    as (new & T & Q).
  destruct (run_elim _ _ _ _ _ _ (EnactIterativeSearch_facts rt MaxGridSize fuel csr_problem
                                    src max_grid_size h) E)
    as (new' & T' & _ & Ok).
  destruct (Ok eq_refl) as (I & _).
  exists new. rewrite GetStatistics_eq, I, Q.
  assert (N : (expansions new' - 1 <? signed_min 64) = false).
  { apply Z.ltb_ge. unfold expansions.
    assert (signed_min 64 < 0) by (vm_compute; reflexivity). lia. }
  rewrite N. eexists. eexists.
  split; [exact T|]. split; reflexivity.
Qed.

End Queued.

(** ** The queue indices of successive dispatches *)

Section QueueIndices.

Context {W : Type} (rt : Runtime W) (MaxGridSize : EnactorBase -> Z -> Z -> Z).










End QueueIndices.

(** ** The fused search as a whole *)

Section MoreOnFusedSearch.

Context {W : Type} (rt : Runtime W) (MaxGridSize : EnactorBase -> Z -> Z -> Z).

Lemma EnactFusedSearch_facts (csr_problem : CsrProblem) (src max_grid_size : Z) (h : Host W) :
  returns (EnactFusedSearch rt MaxGridSize csr_problem src max_grid_size) h (fun r h' =>
    exists new, trace h' = trace h ++ new
    /\ (r = cudaSuccess ->
        exists pre a levels post,
          new = pre ++ Ev (launch_two_phase (MaxGridSize (base (this h)) 8 max_grid_size)
                             (FusedPolicy200 (INSTRUMENT (this h))) a) levels :: post
          /\ filter is_dispatch pre = []
          /\ filter is_dispatch post = []
          /\ (DEBUG (base (this h)) = false -> INSTRUMENT (this h) = false ->
              post = [] /\ totals (this h') = (0, 0, 0))
          /\ f_d_iteration a = d_iteration (this h')
          /\ (is_some (d_iteration (this h')) = true ->
              iteration (this h')
              = Some (store_through_VertexId (VertexId_bits csr_problem) 0 levels))
          /\ (d_iteration (this h') = None -> iteration (this h') = Some 0))
    /\ (failed r = true ->
        DEBUG (base (this h)) = false -> INSTRUMENT (this h) = false ->
        filter is_dispatch new = [])).
Proof.
  unfold EnactFusedSearch. run_all rt.
  - unfold EnactFusedSearch_with. run_all rt.
    all: eapply returns_run; [apply Setup_spec|];
      intros r1 h1 (new1 & T1 & Hb & Hi & Hd & Hc & Hs & _);
      cbv beta; cbn [world trace this] in *.
    all: repeat (run_step rt; cbv beta iota zeta; simpl_host; rewrite ?Hb, ?Hi).
    all: repeat match goal with u : unit |- _ => destruct u end.
    all: all_passed.
    all: try match goal with
             | Hs : cudaSuccess = cudaSuccess -> _ |- _ =>
                 destruct (Hs eq_refl) as (_ & (I0 & Tr & Tl & Tq & _) & _)
             end.
    all: rewrite ?T1; new_events.
    all: (split;
          [ intros Ok; subst; try discriminate
          | intros Fl Hdb Hin; try congruence; try discriminate Fl;
            cbn [filter is_dispatch]; try exact Hd ]).
    all: try match goal with
             | Hs : cudaSuccess = cudaSuccess -> _ |- _ =>
                 destruct (Hs eq_refl) as (_ & (I0 & Tr & Tl & Tq & _) & _)
             end.
    all: lazymatch goal with
         | |- exists _ _ _ _, ?x :: ?l ++ _ = _ /\ _ => exists (x :: l)
         | |- exists _ _ _ _, ?l ++ _ = _ /\ _ => exists l
         end.
    all: eexists; eexists; eexists; (split; [reflexivity|]).
    all: cbn [filter is_dispatch]; (split; [exact Hd|]); (split; [reflexivity|]).
    all: rewrite ?I0; unfold totals;
         destruct (d_iteration (this h1)) eqn:Di; simpl_host; rewrite ?Tr, ?Tl, ?Tq, ?Di;
         cbn [f_d_iteration is_some].
    all: repeat split; intros; try reflexivity; try congruence; try discriminate;
         try assumption.
  - new_events. split; [discriminate | reflexivity].
Qed.

(** The level count that the fused kernel writes through
    [(VertexId * ) d_iteration] into the zeroed 64-bit counter comes back
    from [iteration[0] - 1], converted to [VertexId], as the count less
    one. *)
Lemma store_through_VertexId_depth (bits v : Z) :
  0 < bits < 64 ->
  signed_min 64 <= store_through_VertexId bits 0 v - 1
  /\ to_signed bits (store_through_VertexId bits 0 v - 1) = to_signed bits (v - 1).
Proof.
  intros Hb.
  assert (P : 0 < 2 ^ bits) by (apply Z.pow_pos_nonneg; lia).
  assert (L : 2 ^ bits <= 2 ^ 63) by (apply Z.pow_le_mono_r; lia).
  assert (U : 0 <= v mod 2 ^ bits < 2 ^ bits) by (apply Z.mod_pos_bound; exact P).
  assert (E : store_through_VertexId bits 0 v = v mod 2 ^ bits).
  { unfold store_through_VertexId, to_signed, to_unsigned.
    change (0 mod 2 ^ 64) with 0.
    rewrite Z.shiftr_0_l, Z.shiftl_0_l, Z.lor_0_l.
    change (64 - 1) with 63.
    assert (M : (v mod 2 ^ bits) mod 2 ^ 64 = v mod 2 ^ bits).
    { apply Z.mod_small. change (2 ^ 64) with (2 * 2 ^ 63). lia. }
    rewrite M.
    assert (S : (v mod 2 ^ bits <? 2 ^ 63) = true) by (apply Z.ltb_lt; lia).
    rewrite S. reflexivity. }
  rewrite E. split.
  - assert (signed_min 64 < -1) by (vm_compute; reflexivity). lia.
  - unfold to_signed, to_unsigned. rewrite Zminus_mod_idemp_l. reflexivity.
Qed.

(** X7: after a fused search that returned [cudaSuccess] on an enactor that
    holds a device alias of its iteration counter, [GetStatistics] returns,
    and its search depth is the level count the fused kernel wrote through
    [(VertexId * ) d_iteration], less one; on an enactor without the alias
    the depth is -1 whatever the kernel counted. *)
Theorem fused_search_depth_is_the_level_count_less_one
    (csr_problem : CsrProblem) (src max_grid_size : Z) (h h' : Host W) :
  0 < VertexId_bits csr_problem < 64 ->
  EnactFusedSearch rt MaxGridSize csr_problem src max_grid_size h
    = Returns cudaSuccess h' ->
  exists new a levels total_queued_out search_depth avg_duty,
    trace h' = trace h ++ new
    /\ filter is_dispatch new
       = [Ev (launch_two_phase (MaxGridSize (base (this h)) 8 max_grid_size)
                (FusedPolicy200 (INSTRUMENT (this h))) a) levels]
    /\ f_d_iteration a = d_iteration (this h')
    /\ GetStatistics rt (VertexId_bits csr_problem) h'
       = Returns (total_queued_out, search_depth, avg_duty) (synchronized rt h')
    /\ (is_some (d_iteration (this h')) = true ->
        search_depth = to_signed (VertexId_bits csr_problem) (levels - 1))
    /\ (d_iteration (this h') = None -> search_depth = -1).
Proof.
  intros Hbits E.
  destruct (run_elim _ _ _ _ _ _ (EnactFusedSearch_facts csr_problem src max_grid_size h) E)
    as (new & T & Ok & _).
  destruct (Ok eq_refl) as (pre & a & levels & post & N & Fpre & Fpost & _ & Fd & Mapped & Not).
  exists new, a, levels.
  rewrite GetStatistics_eq.
  destruct (d_iteration (this h')) as [c|] eqn:Di.
  - rewrite (Mapped eq_refl).
    destruct (store_through_VertexId_depth (VertexId_bits csr_problem) levels Hbits)
      as (Min & Depth).
    assert (M : (store_through_VertexId (VertexId_bits csr_problem) 0 levels - 1
                 <? signed_min 64) = false) by (apply Z.ltb_ge; exact Min).
    rewrite M. eexists. eexists. eexists.
    split; [exact T|].
    split; [rewrite N, filter_app, Fpre; cbn [filter is_dispatch app]; rewrite Fpost;
            reflexivity|].
    split; [exact Fd|]. split; [reflexivity|].
    split; [intros _; exact Depth | discriminate].
  - rewrite (Not eq_refl).
    assert (M : (0 - 1 <? signed_min 64) = false) by (vm_compute; reflexivity).
    rewrite M. eexists. eexists. eexists.
    split; [exact T|].
    split; [rewrite N, filter_app, Fpre; cbn [filter is_dispatch app]; rewrite Fpost;
            reflexivity|].
    split; [exact Fd|]. split; [reflexivity|].
    split; [discriminate|]. intros _.
    unfold to_signed, to_unsigned.
    assert (P : 0 < 2 ^ VertexId_bits csr_problem) by (apply Z.pow_pos_nonneg; lia).
    assert (Q : 2 ^ VertexId_bits csr_problem
                = 2 * 2 ^ (VertexId_bits csr_problem - 1)).
    { rewrite <- Z.pow_succ_r by lia. f_equal. lia. }
    assert (P' : 0 < 2 ^ (VertexId_bits csr_problem - 1)) by (apply Z.pow_pos_nonneg; lia).
    assert (R : (0 - 1) mod 2 ^ VertexId_bits csr_problem
                = 2 ^ VertexId_bits csr_problem - 1).
    { symmetry. apply (Z.mod_unique _ _ (-1)); lia. }
    rewrite R.
    assert (S : (2 ^ VertexId_bits csr_problem - 1 <? 2 ^ (VertexId_bits csr_problem - 1))
                = false) by (apply Z.ltb_ge; lia).
    rewrite S. lia.
Qed.

(** X8: without [DEBUG] and without instrumentation the fused search always
    returns, and it returns right after the launch: the launch is the last
    thing it did, nothing was asked of the device afterwards, and the totals
    stay 0.  It reports a failure only when nothing was dispatched. *)
Theorem release_fused_search_returns_right_after_the_launch
    (csr_problem : CsrProblem) (src max_grid_size : Z) (h : Host W) :
  DEBUG (base (this h)) = false ->
  INSTRUMENT (this h) = false ->
  exists r h' new,
    EnactFusedSearch rt MaxGridSize csr_problem src max_grid_size h = Returns r h'
    /\ trace h' = trace h ++ new
    /\ ((failed r = true /\ filter is_dispatch new = [])
        \/ (r = cudaSuccess
            /\ totals (this h') = (0, 0, 0)
            /\ exists pre a levels,
                 new = pre ++ [Ev (launch_two_phase
                                     (MaxGridSize (base (this h)) 8 max_grid_size)
                                     (FusedPolicy200 false) a) levels]
                 /\ filter is_dispatch pre = [])).
Proof.
  intros Hdb Hin.
  destruct (returns_elim _ _ _ (EnactFusedSearch_facts csr_problem src max_grid_size h))
    as (r & h' & E & new & T & Ok & Fail).
  exists r, h', new. split; [exact E|]. split; [exact T|].
  destruct (failed r) eqn:F.
  - left. split; [reflexivity|]. apply Fail; [reflexivity | exact Hdb | exact Hin].
  - right. apply failed_false in F. subst r.
    destruct (Ok eq_refl) as (pre & a & levels & post & N & Fpre & _ & Rel & _).
    destruct (Rel Hdb Hin) as (Post & Tot). subst post.
    split; [reflexivity|]. split; [exact Tot|].
    exists pre, a, levels. rewrite <- Hin. auto.
Qed.

End MoreOnFusedSearch.

(** ** [Setup], the host words and the destructor *)

Section MoreOnSetup.

Context {W : Type} (rt : Runtime W).

(** X9: [Setup] always returns, and it maps a host word into device space
    only in the call that allocates it.  Called on an enactor whose [done]
    is allocated, it asks neither for the word, nor for its device alias,
    nor for the throttle event, and leaves [d_done] and [throttle_event] as
    they are, whatever they are; likewise for [iteration] and
    [d_iteration]. *)
Theorem Setup_maps_a_host_word_only_with_its_allocation
    (csr_problem : CsrProblem) (expand_grid_size contract_grid_size : Z) (h : Host W) :
  exists r h' new,
    Setup rt csr_problem expand_grid_size contract_grid_size h = Returns r h'
    /\ trace h' = trace h ++ new
    /\ (is_some (done (this h)) = true ->
        d_done (this h') = d_done (this h)
        /\ throttle_event (this h') = throttle_event (this h)
        /\ ~ In r_done (allocations new)
        /\ ~ In r_d_done (allocations new)
        /\ ~ In r_throttle_event (allocations new))
    /\ (is_some (iteration (this h)) = true ->
        d_iteration (this h') = d_iteration (this h)
        /\ ~ In r_iteration (allocations new)
        /\ ~ In r_d_iteration (allocations new)).
Proof.
  destruct (returns_elim _ _ _ (Setup_handles rt csr_problem expand_grid_size
                                  contract_grid_size h))
    as (r & h' & E & new & T & D & I & _).
  exists r, h', new. auto.
Qed.

Lemma EnactorTwoPhase_destroy_releases {V} (rl : Releaser V) (e : EnactorTwoPhase) (v : V) :
  map fst (fst (EnactorTwoPhase_destroy rl e v))
  = (if is_some (iteration e) then [cudaFreeHost cell_iteration] else [])
    ++ (if is_some (done e) then [cudaFreeHost cell_done; cudaEventDestroy] else []).
Proof.
  unfold EnactorTwoPhase_destroy.
  destruct (iteration e), (done e); cbn [is_some];
    repeat match goal with
           | |- context [rl ?c ?w] => destruct (rl c w)
           end;
    reflexivity.
Qed.

(** X10: what the destructor gives back after a [Setup], whatever the
    runtime answered in either: the iteration counter is freed exactly when
    it was there before or its allocation succeeded, the completion flag
    likewise, and the throttle event is destroyed exactly when the flag is
    freed, after it; a failing release stops nothing.  An event that was
    created is destroyed; the event is also destroyed when the flag was
    allocated and the event never created. *)
Theorem destructor_releases_what_Setup_allocated {V}
    (rl : Releaser V) (csr_problem : CsrProblem)
    (expand_grid_size contract_grid_size : Z) (h : Host W) (v : V) :
  exists r h' new,
    Setup rt csr_problem expand_grid_size contract_grid_size h = Returns r h'
    /\ trace h' = trace h ++ new
    /\ map fst (fst (EnactorTwoPhase_destroy rl (this h') v))
       = (if is_some (iteration (this h))
             || existsb (host_alloc_succeeded cell_iteration) new
          then [cudaFreeHost cell_iteration] else [])
         ++ (if is_some (done (this h)) || existsb (host_alloc_succeeded cell_done) new
             then [cudaFreeHost cell_done; cudaEventDestroy] else [])
    /\ throttle_event (this h')
       = throttle_event (this h) || existsb event_creation_succeeded new
    /\ (existsb event_creation_succeeded new = true ->
        In cudaEventDestroy (map fst (fst (EnactorTwoPhase_destroy rl (this h') v)))).
Proof.
  destruct (returns_elim _ _ _ (Setup_handles rt csr_problem expand_grid_size
                                  contract_grid_size h))
    as (r & h' & E & new & T & _ & _ & D & I & Te & Created & _).
  exists r, h', new. split; [exact E|]. split; [exact T|].
  rewrite EnactorTwoPhase_destroy_releases, D, I.
  split; [reflexivity|]. split; [exact Te|].
  intros C. rewrite (Created C), orb_true_r.
  apply in_or_app. right. cbn [In]. auto.
Qed.

(** X11: a [Setup] that succeeded has bound the visited-bitmask texture over
    enough bytes for one bit per vertex, with less than a byte to spare, and
    the row-offsets texture over [nodes + 1] offsets. *)
Theorem Setup_binds_a_bit_per_vertex_and_an_offset_per_row
    (csr_problem : CsrProblem) (expand_grid_size contract_grid_size : Z) (h h' : Host W) :
  0 <= nodes (graph_slice0 csr_problem) <= signed_max 32 - 7 ->
  0 < SizeT_bytes csr_problem <= 8 ->
  Setup rt csr_problem expand_grid_size contract_grid_size h = Returns cudaSuccess h' ->
  exists new mask_bytes,
    trace h' = trace h ++ new
    /\ bindings new
       = [(BitmaskTex, d_visited_mask, mask_bytes);
          (RowOffsetTex, d_row_offsets,
           (nodes (graph_slice0 csr_problem) + 1) * SizeT_bytes csr_problem)]
    /\ nodes (graph_slice0 csr_problem) <= 8 * mask_bytes
       < nodes (graph_slice0 csr_problem) + 8.
Proof.
  intros Hn Hs E.
  destruct (run_elim _ _ _ _ _ _ (Setup_spec rt csr_problem expand_grid_size
                                    contract_grid_size h) E)
    as (new & T & _ & _ & _ & _ & Ok & _).
  destruct (Ok eq_refl) as (_ & _ & B).
  set (n := nodes (graph_slice0 csr_problem)) in *.
  assert (Max : signed_max 32 = 2147483647) by reflexivity.
  rewrite Max in Hn.
  set (w := promoted (VertexId_bits csr_problem)).
  assert (Wide : 32 <= w) by (unfold w, promoted; apply Z.le_max_r).
  assert (Range : forall z, 0 <= z <= 2147483647 -> to_signed w z = z).
  { intros z Hz.
    assert (P : 2 ^ 31 <= 2 ^ (w - 1)) by (apply Z.pow_le_mono_r; lia).
    change (2 ^ 31) with 2147483648 in P.
    apply to_signed_in_range; [lia|].
    unfold in_signed, signed_min, signed_max. apply andb_true_iff.
    split; apply Z.leb_le; lia. }
  assert (Q : n + 8 - 1 = 8 * Z.quot (n + 8 - 1) 8 + Z.rem (n + 8 - 1) 8)
    by (apply Z.quot_rem'; lia).
  assert (R : 0 <= Z.rem (n + 8 - 1) 8 < 8) by (apply Z.rem_bound_pos; lia).
  assert (I : to_int (Z.quot (n + 8 - 1) 8) = Z.quot (n + 8 - 1) 8).
  { apply to_signed_in_range; [lia|].
    unfold in_signed. apply andb_true_iff.
    change (signed_min 32) with (-2147483648). rewrite Max.
    split; apply Z.leb_le; lia. }
  assert (Bm : bitmask_bytes csr_problem = Z.quot (n + 8 - 1) 8).
  { unfold bitmask_bytes. fold n. fold w.
    replace (to_signed w (n + 8) - 1) with (to_signed w (n + 8) + -1) by lia.
    rewrite to_signed_add.
    replace (n + 8 + -1) with (n + 8 - 1) by lia.
    rewrite (Range (n + 8 - 1)) by lia. exact I. }
  assert (Ro : row_offsets_bytes csr_problem = (n + 1) * SizeT_bytes csr_problem).
  { unfold row_offsets_bytes. fold n. fold w.
    rewrite (Range (n + 1)) by lia.
    unfold to_unsigned. apply Z.mod_small.
    change (2 ^ 64) with 18446744073709551616. nia. }
  exists new, (Z.quot (n + 8 - 1) 8).
  split; [exact T|]. split; [|lia].
  assert (Sz : to_unsigned 64 (Z.quot (n + 8 - 1) 8) = Z.quot (n + 8 - 1) 8).
  { unfold to_unsigned. apply Z.mod_small.
    change (2 ^ 64) with 18446744073709551616. lia. }
  rewrite B. unfold bitmask_binding, row_offsets_binding.
  rewrite Bm, Ro, Sz. reflexivity.
Qed.

(** Outside that range the sizes wrap: for [INT_MAX] vertices with a 32-bit
    [VertexId] and a 4-byte [SizeT], [bytes] is negative and both sizes
    arrive as huge [size_t] values. *)
Lemma Setup_binding_sizes_wrap :
  let csr_problem :=
    {| VertexId_bits := 32; SizeT_bytes := 4;
       graph_slice0 := {| nodes := 2147483647; frontier_elements := fun _ => 0 |} |} in
  bitmask_bytes csr_problem = -268435455
  /\ bitmask_binding csr_problem = (BitmaskTex, d_visited_mask, 18446744073441116161)
  /\ row_offsets_binding csr_problem
     = (RowOffsetTex, d_row_offsets, 18446744065119617024).
Proof. intros csr_problem. repeat split; vm_compute; reflexivity. Qed.

End MoreOnSetup.

(** ** The edges and the source of a random graph *)

Section MoreOnBuildRandomGraph.

Import RandomGraph.

Context {W : Type} (libc : Library W).

Lemma store_app {A} (l1 : list A) (x : A) (l2 : list A) (v : A) :
  store (l1 ++ x :: l2) (List.length l1) v = l1 ++ v :: l2.
Proof.
  induction l1 as [|y l1 IH]; [reflexivity|].
  cbn [app List.length store]. rewrite IH. reflexivity.
Qed.

Lemma draws_app (l1 l2 : list LibEvent) : draws (l1 ++ l2) = draws l1 ++ draws l2.
Proof. apply flat_map_app. Qed.

(** The loop after [i] rounds, with [count] rounds to go: the slots written
    so far are [written] and, for an undirected graph, [mirrored]. *)
Lemma select_edges_closed (junk : CooEdgeTuple) (nodes : Z) (undirected : bool)
    (count : nat) :
  forall (i edges : Z) (written mirrored : list CooEdgeTuple) (f : Frame W),
    0 <= i ->
    List.length written = Z.to_nat i ->
    List.length mirrored = Z.to_nat i ->
    edges = i + Z.of_nat count ->
    returns (select_edges libc count i nodes edges undirected
               (written ++ repeat junk count
                ++ (if undirected then mirrored ++ repeat junk count else []))) f
      (fun coo f' =>
         exists new,
           log f' = log f ++ new
           /\ src f' = src f /\ csr_graph f' = csr_graph f
           /\ map fst (draws new) = repeat nodes (2 * count)
           /\ let selected := edges_of (map snd (draws new)) in
              List.length selected = count
              /\ coo = written ++ selected
                       ++ (if undirected then mirrored ++ map reverse_edge selected
                           else [])).
Proof.
  induction count as [|count IH]; intros i edges written mirrored f Hi Lw Lm He.
  - exists []. cbn [repeat app]. split; [symmetry; apply app_nil_r|].
    split; [reflexivity|]. split; [reflexivity|]. split; [reflexivity|].
    cbn. split; [reflexivity|]. destruct undirected; reflexivity.
  - cbn [select_edges]. unfold returns.
    apply run_bind. apply run_lib_call. intros r w1.
    apply run_bind. apply run_lib_call. intros c w2.
    cbv zeta. cbn [repeat app].
    rewrite <- Lw, store_app.
    set (v := {| row := r; col := c; val := 1 |}).
    set (v' := {| row := c; col := r; val := 1 |}).
    assert (Store :
      (if undirected
       then store (written ++ v :: repeat junk count
                   ++ (if undirected then mirrored ++ junk :: repeat junk count else []))
              (Z.to_nat (edges + i)) v'
       else written ++ v :: repeat junk count
            ++ (if undirected then mirrored ++ junk :: repeat junk count else []))
      = (written ++ [v]) ++ repeat junk count
        ++ (if undirected then (mirrored ++ [v']) ++ repeat junk count else [])).
    { destruct undirected.
      - replace (written ++ v :: repeat junk count ++ mirrored ++ junk :: repeat junk count)
          with (((written ++ [v]) ++ repeat junk count ++ mirrored)
                ++ junk :: repeat junk count)
          by (rewrite <- !app_assoc; reflexivity).
        replace (Z.to_nat (edges + i))
          with (List.length ((written ++ [v]) ++ repeat junk count ++ mirrored)).
        + rewrite store_app, <- !app_assoc. reflexivity.
        + rewrite !length_app, repeat_length, Lw, Lm. cbn [List.length]. lia.
      - rewrite <- app_assoc. reflexivity. }
    rewrite Store.
    eapply run_conseq;
      [ apply (IH (i + 1) edges (written ++ [v]) (mirrored ++ [v']));
        [ lia
        | rewrite length_app, Lw; cbn [List.length]; lia
        | rewrite length_app, Lm; cbn [List.length]; lia
        | lia ]
      | | intros ? [] ].
    intros coo f' (new & T & Sf & G & D & L & C).
    cbn [log src csr_graph] in T, Sf, G.
    exists (Lib (RandomNode nodes) r :: Lib (RandomNode nodes) c :: new).
    split; [rewrite T, <- !app_assoc; reflexivity|].
    split; [exact Sf|]. split; [exact G|].
    change (draws (Lib (RandomNode nodes) r :: Lib (RandomNode nodes) c :: new))
      with ((nodes, r) :: (nodes, c) :: draws new).
    cbn [map fst snd edges_of]. fold v.
    split.
    + rewrite D. replace (2 * S count)%nat with (S (S (2 * count))) by lia. reflexivity.
    + cbv zeta. cbn [List.length]. split; [f_equal; exact L|].
      rewrite C. destruct undirected; cbn [map];
        rewrite <- !app_assoc; reflexivity.
Qed.

(** The loop as [BuildRandomGraph] enters it. *)
Lemma select_edges_from_start
    (junk : CooEdgeTuple) (nodes edges : Z) (undirected : bool) (f : Frame W) :
  0 <= edges ->
  returns (select_edges libc (Z.to_nat edges) 0 nodes edges undirected
             (repeat junk (Z.to_nat (if undirected then edges * 2 else edges)))) f
    (fun coo f' =>
       exists new,
         log f' = log f ++ new
         /\ src f' = src f /\ csr_graph f' = csr_graph f
         /\ map fst (draws new) = repeat nodes (2 * Z.to_nat edges)
         /\ let selected := edges_of (map snd (draws new)) in
            List.length selected = Z.to_nat edges
            /\ coo = selected ++ (if undirected then map reverse_edge selected else [])).
Proof.
  intros He.
  assert (R : repeat junk (Z.to_nat (if undirected then edges * 2 else edges))
              = [] ++ repeat junk (Z.to_nat edges)
                ++ (if undirected then [] ++ repeat junk (Z.to_nat edges) else [])).
  { destruct undirected; cbn [app].
    - rewrite <- repeat_app. f_equal. lia.
    - rewrite app_nil_r. reflexivity. }
  rewrite R.
  apply (select_edges_closed junk nodes undirected (Z.to_nat edges) 0 edges [] [] f);
    [lia | reflexivity | reflexivity | lia].
Qed.

(** X12: entered as [BuildRandomGraph] enters it, with a non-negative edge
    count whose double, for an undirected graph, is an [int], the loop of
    [BuildRandomGraph] comes back, having drawn two nodes for every edge,
    all under the bound [nodes], and having written every slot of the array
    it was given: slot [i] holds the [i]-th pair drawn with the value 1,
    and, for an undirected graph, slot [edges + i] holds that edge reversed.
    Nothing of the unspecified content that [malloc] handed out is left. *)
Theorem select_edges_fills_every_slot
    (junk : CooEdgeTuple) (nodes edges : Z) (undirected : bool) (f : Frame W) :
  0 <= edges ->
  (undirected = true -> edges * 2 <= signed_max 32) ->
  exists coo f' new,
    select_edges libc (Z.to_nat edges) 0 nodes edges undirected
      (repeat junk (Z.to_nat (if undirected then edges * 2 else edges))) f
    = Returns coo f'
    /\ log f' = log f ++ new
    /\ map fst (draws new) = repeat nodes (2 * Z.to_nat edges)
    /\ let selected := edges_of (map snd (draws new)) in
       List.length selected = Z.to_nat edges
       /\ coo = selected ++ (if undirected then map reverse_edge selected else [])
       /\ List.length coo = Z.to_nat (if undirected then edges * 2 else edges).
Proof.
  intros He _.
  destruct (returns_elim _ _ _ (select_edges_from_start junk nodes edges undirected f He))
    as (coo & f' & E & new & T & _ & _ & D & L & C).
  exists coo, f', new. split; [exact E|]. split; [exact T|]. split; [exact D|].
  cbv zeta in *. split; [exact L|]. split; [exact C|].
  rewrite C. destruct undirected.
  - rewrite length_app, length_map, L. lia.
  - rewrite app_nil_r. exact L.
Qed.

Ltac frame_step' :=
  lazymatch goal with
  | |- run (bind _ _) _ _ _ => apply run_bind
  | |- run (ret _) _ _ _ => apply run_ret
  | |- run (lib_call _ _) _ _ _ =>
      let r := fresh "r" in
      let w := fresh "w" in
      apply run_lib_call; intros r w
  | |- run get_frame _ _ _ => apply run_get_frame
  | |- run (set_src _) _ _ _ => apply run_set_src
  | |- run (set_csr_graph _) _ _ _ => apply run_set_csr_graph
  end.

Ltac frame_run' := repeat (frame_step'; cbv beta; cbn [lib log src csr_graph]).

Lemma BuildRandomGraph_draws_spec
    (junk : CooEdgeTuple) (nodes edges : Z) (undirected : bool) (f : Frame W) :
  0 <= nodes -> 0 <= edges ->
  (undirected = true -> edges * 2 <= signed_max 32) ->
  returns (BuildRandomGraph libc junk nodes edges undirected) f
    (fun r f' =>
       exists new edge_draws,
         log f' = log f ++ new
         /\ map fst edge_draws = repeat nodes (2 * Z.to_nat edges)
         /\ (src f = -1 ->
             r = 0
             /\ draws new = edge_draws ++ [(RandomGraph.nodes (csr_graph f'), src f')])
         /\ (src f <> -1 -> draws new = edge_draws /\ src f' = src f)).
Proof.
  intros Hn He Hu.
  unfold BuildRandomGraph.
  assert (Sizes : (nodes <? 0) || (edges <? 0) = false).
  { apply orb_false_iff. split; apply Z.ltb_ge; assumption. }
  rewrite Sizes. unfold returns. frame_run'.
  assert (Overflow : undirected && negb (in_signed 32 (edges * 2)) = false).
  { destruct undirected; [|reflexivity]. cbn [andb]. apply negb_false_iff.
    specialize (Hu eq_refl). unfold in_signed. apply andb_true_iff.
    assert (signed_min 32 < 0) by (vm_compute; reflexivity).
    split; apply Z.leb_le; lia. }
  rewrite Overflow.
  apply run_bind.
  eapply returns_run; [apply select_edges_from_start; exact He|].
  intros coo f1 (new1 & T1 & S1 & G1 & D1 & _). cbv beta.
  cbn [log src csr_graph] in T1, S1, G1.
  frame_run'. rewrite S1.
  destruct (src f =? -1) eqn:Unspecified.
  - frame_run'. rewrite T1, <- !app_assoc. cbn [app].
    eexists. exists (draws new1). split; [reflexivity|]. split; [exact D1|].
    apply Z.eqb_eq in Unspecified.
    split; [|intros N; contradiction].
    intros _. split; [reflexivity|].
    unfold draws. cbn [flat_map draw_of app]. rewrite flat_map_app.
    reflexivity.
  - apply Z.eqb_neq in Unspecified.
    destruct ((src f <? 0)
              || (RandomGraph.nodes
                    (FromCoo coo nodes (if undirected then edges * 2 else edges))
                  <? src f)) eqn:Range.
    + frame_run'. rewrite T1, <- !app_assoc. cbn [app].
      eexists. exists (draws new1). split; [reflexivity|]. split; [exact D1|].
      split; [intros N; contradiction|].
      intros _. split; [|reflexivity].
      unfold draws. cbn [flat_map draw_of app]. rewrite flat_map_app.
      cbn [flat_map draw_of app]. apply app_nil_r.
    + frame_run'. rewrite T1, <- !app_assoc. cbn [app].
      eexists. exists (draws new1). split; [reflexivity|]. split; [exact D1|].
      split; [intros N; contradiction|].
      intros _. split; [|reflexivity].
      unfold draws. cbn [flat_map draw_of app]. rewrite flat_map_app.
      cbn [flat_map draw_of app]. apply app_nil_r.
Qed.

(** X13: a [BuildRandomGraph] with sizes it accepts draws exactly two random
    nodes for every edge, all under the bound [nodes], whether the graph is
    directed or not.  When the source is given as -1 it then draws one more
    node, under the node count of the graph it has built, stores it as the
    source and returns 0; a source given explicitly is never overwritten,
    and nothing more is drawn. *)
Theorem BuildRandomGraph_draws_two_nodes_an_edge_and_the_source
    (junk : CooEdgeTuple) (nodes edges : Z) (undirected : bool) (f : Frame W) :
  0 <= nodes -> 0 <= edges ->
  (undirected = true -> edges * 2 <= signed_max 32) ->
  exists r f' new edge_draws,
    BuildRandomGraph libc junk nodes edges undirected f = Returns r f'
    /\ log f' = log f ++ new
    /\ map fst edge_draws = repeat nodes (2 * Z.to_nat edges)
    /\ (src f = -1 ->
        r = 0
        /\ draws new = edge_draws ++ [(RandomGraph.nodes (csr_graph f'), src f')])
    /\ (src f <> -1 -> draws new = edge_draws /\ src f' = src f).
Proof.
  intros Hn He Hu.
  destruct (returns_elim _ _ _
              (BuildRandomGraph_draws_spec junk nodes edges undirected f Hn He Hu))
    as (r & f' & E & new & edge_draws & T & D & Random & Given).
  exists r, f', new, edge_draws. auto.
Qed.

End MoreOnBuildRandomGraph.

(** ** The properties above on runs of the scripted device *)

(** X3 on an enactor whose first [Setup] allocated [done] and then failed to
    map it: the next search sets up without mapping it, and its contraction
    kernels are handed a null alias. *)
Lemma unmapped_done_alias_witness :
  let w := {| statuses := [cudaSuccess; cudaErrorInvalidValue];
              done_reads := []; queue_lengths := [] |} in
  let h := final_state (Setup scripted small_problem 112 112
                          (fresh_host w false (fermi false))) in
  is_some (done (this h)) = true
  /\ d_done (this h) = None
  /\ exists new,
       trace (final_state
                (EnactIterativeSearch scripted MaxGridSize_spec 4 small_problem 0 0 h))
         = trace h ++ new
       /\ Forall (fun launch => k_d_done (snd launch) = None) (contract_launches new).
Proof.
  intros w h.
  assert (D : is_some (done (this h)) = true) by (vm_compute; reflexivity).
  assert (N : d_done (this h) = None) by (vm_compute; reflexivity).
  split; [exact D|]. split; [exact N|].
  destruct (contractions_carry_the_done_alias_of_the_enactor scripted MaxGridSize_spec
              4 small_problem 0 0 h) as (new & T & A & _).
  exists new. split; [exact T|].
  specialize (A D). rewrite N in A. exact A.
Defined.

(** X4 on the search of the 5-vertex graph: it ends on the flag. *)
Lemma successful_search_witness :
  let h := fresh_host five_vertex_run false (fermi false) in
  exists h' new,
    EnactIterativeSearch scripted MaxGridSize_spec 8 small_problem 0 0 h
      = Returns cudaSuccess h'
    /\ trace h' = trace h ++ new
    /\ left_on_flag new.
Proof.
  intros h.
  assert (E : EnactIterativeSearch scripted MaxGridSize_spec 8 small_problem 0 0 h
              = Returns cudaSuccess
                  (final_state
                     (EnactIterativeSearch scripted MaxGridSize_spec 8 small_problem 0 0 h)))
    by (vm_compute; reflexivity).
  destruct (successful_search_ended_on_the_flag_or_a_failed_queue_length scripted
              MaxGridSize_spec 8 small_problem 0 0 h _ E) as (new & T & _ & Fl).
  eexists. exists new. split; [exact E|]. split; [exact T|].
  apply Fl. reflexivity.
Defined.

(** X5 on the instrumented search of the 5-vertex graph: four expansions,
    depth 3. *)
Lemma search_depth_witness :
  let h := fresh_host five_vertex_run true (fermi false) in
  exists h' new total_queued_out avg_duty,
    EnactIterativeSearch scripted MaxGridSize_spec 8 small_problem 0 0 h
      = Returns cudaSuccess h'
    /\ trace h' = trace h ++ new
    /\ expansions new = 4
    /\ GetStatistics scripted 32 h'
       = Returns (total_queued_out, 3, avg_duty) (synchronized scripted h').
Proof.
  intros h.
  set (h' := final_state
               (EnactIterativeSearch scripted MaxGridSize_spec 8 small_problem 0 0 h)).
  assert (E : EnactIterativeSearch scripted MaxGridSize_spec 8 small_problem 0 0 h
              = Returns cudaSuccess h') by (vm_compute; reflexivity).
  destruct (search_depth_counts_the_expansions scripted MaxGridSize_spec 8 small_problem
              0 0 32 h h' E) as (new & tq & duty & T & I & G).
  assert (I4 : iteration (this h') = Some 4) by (vm_compute; reflexivity).
  assert (X : expansions new = 4) by congruence.
  rewrite X in G.
  exists h', new, tq, duty. auto.
Defined.

(** X6 on the search of the 5-vertex graph without instrumentation. *)
Lemma uninstrumented_search_witness :
  let h := fresh_host five_vertex_run false (fermi false) in
  INSTRUMENT (this h) = false
  /\ exists h' search_depth,
       EnactIterativeSearch scripted MaxGridSize_spec 8 small_problem 0 0 h
         = Returns cudaSuccess h'
       /\ totals (this h') = (0, 0, 0)
       /\ GetStatistics scripted 32 h'
          = Returns (0, search_depth, double_zero) (synchronized scripted h').
Proof.
  intros h.
  set (h' := final_state
               (EnactIterativeSearch scripted MaxGridSize_spec 8 small_problem 0 0 h)).
  assert (E : EnactIterativeSearch scripted MaxGridSize_spec 8 small_problem 0 0 h
              = Returns cudaSuccess h') by (vm_compute; reflexivity).
  split; [reflexivity|].
  destruct (uninstrumented_search_reports_no_work scripted MaxGridSize_spec 8 small_problem
              0 0 32 h h' eq_refl E) as (Tot & depth & G).
  exists h', depth. auto.
Defined.

(** X14 on the instrumented search of the 5-vertex graph: the expansions
    filled queues of 2, 4, 3 and 1 elements. *)
Lemma total_queued_witness :
  let h := fresh_host five_vertex_run true (fermi false) in
  exists h' new search_depth avg_duty,
    EnactIterativeSearch scripted MaxGridSize_spec 8 small_problem 0 0 h
      = Returns cudaSuccess h'
    /\ trace h' = trace h ++ new
    /\ total_queued (this h') = 10
    /\ u64 (queued new) = 10
    /\ GetStatistics scripted 32 h'
       = Returns (to_signed 64 (u64 (queued new)), search_depth, avg_duty)
           (synchronized scripted h').
Proof.
  intros h.
  set (h' := final_state
               (EnactIterativeSearch scripted MaxGridSize_spec 8 small_problem 0 0 h)).
  assert (E : EnactIterativeSearch scripted MaxGridSize_spec 8 small_problem 0 0 h
              = Returns cudaSuccess h') by (vm_compute; reflexivity).
  destruct (total_queued_counts_the_expansion_queues scripted MaxGridSize_spec 8
              small_problem 0 0 32 h h' E) as (new & depth & duty & T & Q & G).
  assert (Q10 : total_queued (this h') = 10) by (vm_compute; reflexivity).
  exists h', new, depth, duty.
  split; [exact E|]. split; [exact T|]. split; [exact Q10|].
  split; [congruence | exact G].
Defined.

(** X7 on a fused search of the small problem; the scripted kernel counts
    4 levels. *)
Lemma fused_search_depth_witness :
  let h := fresh_host calm false (fermi false) in
  0 < VertexId_bits small_problem < 64
  /\ exists h' total_queued_out avg_duty,
       EnactFusedSearch scripted MaxGridSize_spec small_problem 0 0 h
         = Returns cudaSuccess h'
       /\ GetStatistics scripted 32 h'
          = Returns (total_queued_out, 3, avg_duty) (synchronized scripted h').
Proof.
  intros h.
  set (h' := final_state (EnactFusedSearch scripted MaxGridSize_spec small_problem 0 0 h)).
  assert (Hbits : 0 < VertexId_bits small_problem < 64) by (cbn; lia).
  assert (E : EnactFusedSearch scripted MaxGridSize_spec small_problem 0 0 h
              = Returns cudaSuccess h') by (vm_compute; reflexivity).
  split; [exact Hbits|].
  destruct (fused_search_depth_is_the_level_count_less_one scripted MaxGridSize_spec
              small_problem 0 0 h h' Hbits E)
    as (new & a & levels & tq & depth & duty & T & D & Fd & G & Mapped & _).
  assert (T' : trace h' = trace h ++ trace h') by (vm_compute; reflexivity).
  rewrite T' in T at 1. apply app_inv_head in T. subst new.
  pose (answer := fun t : list Event =>
                    match t with
                    | [Ev c r] =>
                        match c in Call R return R -> Z with
                        | launch_two_phase _ _ _ => fun r => r
                        | _ => fun _ => 0
                        end r
                    | _ => 0
                    end).
  assert (L : levels = 4).
  { apply (f_equal answer) in D. cbn [trace h fresh_host app] in D.
    vm_compute in D. symmetry. exact D. }
  assert (M : is_some (d_iteration (this h')) = true) by (vm_compute; reflexivity).
  specialize (Mapped M). rewrite L in Mapped.
  change (to_signed (VertexId_bits small_problem) (4 - 1)) with 3 in Mapped.
  subst depth.
  exists h', tq, duty. auto.
Defined.

(** X8 on a fused search of the small problem. *)
Lemma release_fused_search_witness :
  let h := fresh_host calm false (fermi false) in
  DEBUG (base (this h)) = false
  /\ INSTRUMENT (this h) = false
  /\ exists h' pre a levels,
       EnactFusedSearch scripted MaxGridSize_spec small_problem 0 0 h
         = Returns cudaSuccess h'
       /\ trace h' = trace h ++ pre ++ [Ev (launch_two_phase
                                              (MaxGridSize_spec (base (this h)) 8 0)
                                              (FusedPolicy200 false) a) levels]
       /\ totals (this h') = (0, 0, 0).
Proof.
  intros h.
  split; [reflexivity|]. split; [reflexivity|].
  destruct (release_fused_search_returns_right_after_the_launch scripted MaxGridSize_spec
              small_problem 0 0 h eq_refl eq_refl)
    as (r & h' & new & E & T & [(F & _) | (R & Tot & pre & a & levels & N & _)]).
  - exfalso. vm_compute in E. injection E as R _. subst r. discriminate F.
  - subst r new. exists h', pre, a, levels. auto.
Defined.

(** X9 on an enactor whose first [Setup] allocated [done] and then failed to
    map it: the second [Setup] succeeds, and [d_done] is still null and the
    throttle event still not created. *)
Lemma Setup_after_failed_mapping_witness :
  let w := {| statuses := [cudaSuccess; cudaErrorInvalidValue];
              done_reads := []; queue_lengths := [] |} in
  let h := final_state (Setup scripted small_problem 112 112
                          (fresh_host w false (fermi false))) in
  is_some (done (this h)) = true
  /\ exists h',
       Setup scripted small_problem 112 112 h = Returns cudaSuccess h'
       /\ d_done (this h') = None
       /\ throttle_event (this h') = false.
Proof.
  intros w h.
  assert (D : is_some (done (this h)) = true) by (vm_compute; reflexivity).
  split; [exact D|].
  destruct (Setup_maps_a_host_word_only_with_its_allocation scripted small_problem
              112 112 h) as (r & h' & new & E & T & Kept & _).
  assert (E' : Setup scripted small_problem 112 112 h
               = Returns cudaSuccess
                   (final_state (Setup scripted small_problem 112 112 h)))
    by (vm_compute; reflexivity).
  assert (R : r = cudaSuccess) by congruence.
  subst r. exists h'. split; [exact E|].
  destruct (Kept D) as (Dd & Te & _).
  rewrite Dd, Te. split; vm_compute; reflexivity.
Defined.

(** X10 on a fresh enactor whose [Setup] allocated [done] and then failed to
    map it, with releases that all fail: the destructor frees [done] and
    destroys the throttle event, which was never created. *)
Lemma destructor_witness :
  let w := {| statuses := [cudaSuccess; cudaErrorInvalidValue];
              done_reads := []; queue_lengths := [] |} in
  let h := fresh_host w false (fermi false) in
  let failing : Releaser unit := fun _ v => (cudaErrorUnknown, v) in
  exists r h',
    Setup scripted small_problem 112 112 h = Returns r h'
    /\ map fst (fst (EnactorTwoPhase_destroy failing (this h') tt))
       = [cudaFreeHost cell_done; cudaEventDestroy]
    /\ throttle_event (this h') = false.
Proof.
  intros w h failing.
  destruct (destructor_releases_what_Setup_allocated scripted failing small_problem
              112 112 h tt) as (r & h' & new & E & T & Rel & Te & _).
  assert (E' : Setup scripted small_problem 112 112 h
               = Returns cudaErrorInvalidValue
                   (final_state (Setup scripted small_problem 112 112 h)))
    by (vm_compute; reflexivity).
  assert (H' : h' = final_state (Setup scripted small_problem 112 112 h)) by congruence.
  assert (N : new = trace h') by (rewrite T; reflexivity).
  exists r, h'. split; [exact E|].
  rewrite Rel, Te, N, H'. split; vm_compute; reflexivity.
Defined.

(** X11 on the small problem: 5 vertices take one byte of bitmask and 6
    offsets of 4 bytes. *)
Lemma Setup_bindings_witness :
  let h := fresh_host calm false (fermi false) in
  exists h' new,
    Setup scripted small_problem 112 112 h = Returns cudaSuccess h'
    /\ trace h' = trace h ++ new
    /\ bindings new = [(BitmaskTex, d_visited_mask, 1); (RowOffsetTex, d_row_offsets, 24)].
Proof.
  intros h.
  set (h' := final_state (Setup scripted small_problem 112 112 h)).
  assert (E : Setup scripted small_problem 112 112 h = Returns cudaSuccess h')
    by (vm_compute; reflexivity).
  assert (Hn : 0 <= nodes (graph_slice0 small_problem) <= signed_max 32 - 7)
    by (vm_compute; split; discriminate).
  assert (Hs : 0 < SizeT_bytes small_problem <= 8) by (cbn; lia).
  destruct (Setup_binds_a_bit_per_vertex_and_an_offset_per_row scripted small_problem
              112 112 h h' Hn Hs E) as (new & mask_bytes & T & B & Bits).
  cbn [nodes graph_slice0 small_problem SizeT_bytes] in B, Bits.
  assert (M : mask_bytes = 1) by lia. subst mask_bytes.
  exists h', new. auto.
Defined.

(** X12 on 4 undirected edges over 3 nodes: 8 slots, all written. *)
Lemma select_edges_witness :
  let f := RandomGraph.mkFrame 0 [] 0 RandomGraph.empty_graph in
  0 <= 4
  /\ (true = true -> 4 * 2 <= signed_max 32)
  /\ exists coo f' selected,
       RandomGraph.select_edges RandomGraph.counting 4 0 3 4 true
         (repeat RandomGraph.junk 8) f
       = Returns coo f'
       /\ List.length selected = 4%nat
       /\ coo = selected ++ map reverse_edge selected
       /\ List.length coo = 8%nat.
Proof.
  intros f.
  assert (He : 0 <= 4) by lia.
  assert (Hu : true = true -> 4 * 2 <= signed_max 32) by (intros _; vm_compute; discriminate).
  split; [exact He|]. split; [exact Hu|].
  destruct (select_edges_fills_every_slot RandomGraph.counting RandomGraph.junk 3 4 true
              f He Hu) as (coo & f' & new & E & T & D & L & C & Len).
  exists coo, f', (edges_of (map snd (draws new))). auto.
Defined.

(** X13 on 4 undirected edges over 3 nodes with the source left open: nine
    nodes are drawn, and the last one becomes the source. *)
Lemma BuildRandomGraph_draws_witness :
  let f := RandomGraph.mkFrame 0 [] (-1) RandomGraph.empty_graph in
  exists f' new edge_draws,
    RandomGraph.BuildRandomGraph RandomGraph.counting RandomGraph.junk 3 4 true f
      = Returns 0 f'
    /\ RandomGraph.log f' = RandomGraph.log f ++ new
    /\ List.length edge_draws = 8%nat
    /\ draws new
       = edge_draws ++ [(RandomGraph.nodes (RandomGraph.csr_graph f'), RandomGraph.src f')].
Proof.
  intros f.
  assert (Hn : 0 <= 3) by lia.
  assert (He : 0 <= 4) by lia.
  assert (Hu : true = true -> 4 * 2 <= signed_max 32) by (intros _; vm_compute; discriminate).
  destruct (BuildRandomGraph_draws_two_nodes_an_edge_and_the_source RandomGraph.counting
              RandomGraph.junk 3 4 true f Hn He Hu)
    as (r & f' & new & edge_draws & E & T & D & Random & _).
  destruct (Random eq_refl) as (R & Dr). subst r.
  exists f', new, edge_draws.
  split; [exact E|]. split; [exact T|]. split; [|exact Dr].
  rewrite <- (length_map fst), D. reflexivity.
Defined.
